(** * LemonNES: a shallow embedding of the emulator core

    The development follows the JavaScript sources:
    - [JS]       the fragment of JavaScript's value semantics the emulator
                 relies on ([undefined], [NaN], 32-bit bitwise operators,
                 typed arrays);
    - [Cart]     cartridge.js (the cartridge and its mappers);
    - [PPU]      ppu.js;
    - [Bus]      memory.js;
    - [CPU6502]  the second [CPU6502] class of cpu6502.js, the one nes.js
                 constructs and connects to the bus;
    - [NES]      the run loop of nes.js.

    Conventions.
    - Numbers are modelled by [Z]: every number the emulator computes is an
      integer far below 2^53, where JavaScript's doubles are exact.
    - A field that the source only ever assigns the result of a bitwise
      operator, a literal or a counter is a [Z]; on 32-bit values [Z.land],
      [Z.lor], [Z.lxor] and [Z.shiftr] are JavaScript's [&], [|], [^] and
      [>>]. A field or variable that can receive the result of an array
      read is a [jsval], and is converted where the source converts it.
    - A typed array is a [list Z] of its elements; objects are records, and
      [this.f = e] is the update [set_f e].
    - Loops are folds over their index range. *)

From Stdlib Require Import ZArith Lia Bool List.
From stdpp Require Import base list.
Import ListNotations.
Local Open Scope Z_scope.

(* ===================================================================== *)
(** ** JavaScript values and operators *)
(* ===================================================================== *)

Module JS.

(** The values that flow through the emulator's variables: a read outside a
    typed array yields [undefined], arithmetic on it yields [NaN], and an
    implied-mode operand address is [null]. *)
Inductive jsval : Type :=
  | JUndef
  | JNull
  | JNaN
  | JNum (z : Z).

(** ToNumber; [None] stands for NaN. *)
Definition to_number (j : jsval) : option Z :=
  match j with
  | JUndef => None
  | JNull => Some 0
  | JNaN => None
  | JNum z => Some z
  end.

Definition of_number (o : option Z) : jsval :=
  match o with Some z => JNum z | None => JNaN end.

(** Wrap-around of the 32-bit signed integers the bitwise operators use. *)
Definition wrap32 (z : Z) : Z := (z + 2 ^ 31) mod 2 ^ 32 - 2 ^ 31.

(** ToInt32: NaN and undefined become 0. *)
Definition to_int32 (j : jsval) : Z :=
  match to_number j with Some z => wrap32 z | None => 0 end.

(** The conversions applied by a store into a Uint8Array / Uint32Array. *)
Definition to_uint8 (j : jsval) : Z := to_int32 j mod 256.
Definition to_uint32 (j : jsval) : Z := to_int32 j mod 2 ^ 32.

(** ToBoolean. *)
Definition truthy (j : jsval) : bool :=
  match j with JNum z => negb (z =? 0) | _ => false end.

(** [a + b], [a - b], [a * b] on numbers. *)
Definition js_add (a b : jsval) : jsval :=
  match to_number a, to_number b with
  | Some m, Some n => JNum (m + n)
  | _, _ => JNaN
  end.

Definition js_sub (a b : jsval) : jsval :=
  match to_number a, to_number b with
  | Some m, Some n => JNum (m - n)
  | _, _ => JNaN
  end.

Definition js_mul (a b : jsval) : jsval :=
  match to_number a, to_number b with
  | Some m, Some n => JNum (m * n)
  | _, _ => JNaN
  end.

(** Relational operators: any comparison with NaN is false. *)
Definition js_lt (a b : jsval) : bool :=
  match to_number a, to_number b with
  | Some m, Some n => m <? n
  | _, _ => false
  end.

Definition js_gt (a b : jsval) : bool := js_lt b a.

Definition js_ge (a b : jsval) : bool :=
  match to_number a, to_number b with
  | Some m, Some n => n <=? m
  | _, _ => false
  end.

(** [j === k] for a number literal [k]. *)
Definition js_is (j : jsval) (k : Z) : bool :=
  match j with JNum z => z =? k | _ => false end.

(** Bitwise operators on 32-bit integers. The shift count is taken modulo
    32 and a left shift wraps. *)
Definition shl (a n : Z) : Z := wrap32 (Z.shiftl a (Z.land n 31)).
Definition shr (a n : Z) : Z := Z.shiftr a (Z.land n 31).

(** Typed arrays have a fixed length: a read out of range is [undefined]
    and a write out of range is dropped. *)
Definition ta_get (arr : list Z) (i : Z) : jsval :=
  if i <? 0 then JUndef
  else match arr !! Z.to_nat i with
       | Some b => JNum b
       | None => JUndef
       end.

Definition ta_set8 (arr : list Z) (i : Z) (j : jsval) : list Z :=
  if i <? 0 then arr else <[Z.to_nat i := to_uint8 j]> arr.

Definition ta_set32 (arr : list Z) (i : Z) (j : jsval) : list Z :=
  if i <? 0 then arr else <[Z.to_nat i := to_uint32 j]> arr.

Definition len (arr : list Z) : Z := Z.of_nat (length arr).

End JS.
Import JS.

Declare Scope js_scope.
Delimit Scope js_scope with js.
Infix ".&" := Z.land (at level 40, left associativity) : js_scope.
Infix ".|" := Z.lor (at level 50, left associativity) : js_scope.
Infix ".^" := Z.lxor (at level 50, left associativity) : js_scope.
Infix "<<" := shl (at level 33, left associativity) : js_scope.
Infix ">>" := shr (at level 33, left associativity) : js_scope.
Notation "~~ a" := (Z.lnot a) (at level 30, right associativity) : js_scope.
Notation "'#' z" := (JNum z) (at level 9, format "# z") : js_scope.
Local Open Scope js_scope.

(* ===================================================================== *)
(** ** cartridge.js *)
(* ===================================================================== *)

Module Cart.

Inductive Mirror : Type := horizontal | vertical | single0 | single1.

Record Mapper1 : Type := mkMapper1 {
  shift : Z;
  ctrl : Z;
  prgBank : Z;
  chrBank0 : Z;
  chrBank1 : Z
}.

Record Mapper4 : Type := mkMapper4 {
  bankSelect : Z;
  banks : list Z;        (* Uint8Array(8) *)
  prgMode : Z;
  chrMode : Z
}.

(** [mapperInstance]: the class hierarchy Mapper0..Mapper4 as a variant. *)
Inductive Mapper : Type :=
  | M0
  | M1 (m : Mapper1)
  | M2 (bank : Z)
  | M3 (chrBank : Z)
  | M4 (m : Mapper4).

Record Cartridge : Type := mkCartridge {
  prg : list Z;
  chr : list Z;
  chrRAM : bool;
  sram : list Z;
  mirror : Mirror;
  mapperInstance : Mapper
}.

Definition set_chr (c' : list Z) (c : Cartridge) : Cartridge :=
  mkCartridge (prg c) c' (chrRAM c) (sram c) (mirror c) (mapperInstance c).
Definition set_sram (m' : list Z) (c : Cartridge) : Cartridge :=
  mkCartridge (prg c) (chr c) (chrRAM c) m' (mirror c) (mapperInstance c).
Definition set_mirror (m' : Mirror) (c : Cartridge) : Cartridge :=
  mkCartridge (prg c) (chr c) (chrRAM c) (sram c) m' (mapperInstance c).
Definition set_mapperInstance (m' : Mapper) (c : Cartridge) : Cartridge :=
  mkCartridge (prg c) (chr c) (chrRAM c) (sram c) (mirror c) m'.

(** [Cartridge.read]: the path the bus takes for $8000-$FFFF. *)
Definition read (c : Cartridge) (addr : Z) : jsval :=
  if 0x8000 <=? addr then ta_get (prg c) (addr - 0x8000) else #0.

(** Mapper 1's constructor. *)
Definition Mapper1_new : Mapper1 := mkMapper1 0x10 0x0C 0 0 0.

(** ['horizontal','vertical','single0','single1'][data&3] *)
Definition mirror_of (i : Z) : Mirror :=
  if i =? 0 then horizontal
  else if i =? 1 then vertical
  else if i =? 2 then single0
  else if i =? 3 then single1
  else horizontal.

(** [Mapper1.writeReg]; the mapper mutates [cart.mirror] through its back
    reference, so the cartridge's mirroring is threaded along. *)
Definition writeReg (addr val : Z) (mc : Mapper1 * Mirror) : Mapper1 * Mirror :=
  let (m, mir) := mc in
  if negb (val .& 0x80 =? 0) then
    (mkMapper1 0x10 (ctrl m .| 0x0C) (prgBank m) (chrBank0 m) (chrBank1 m), mir)
  else
    let complete := shift m .& 1 in
    let shift1 := (shift m >> 1) .| ((val .& 1) << 4) in
    if negb (complete =? 0) then
      let reg := (addr >> 13) .& 3 in
      let data := shift1 .& 0x1F in
      if reg =? 0 then
        (mkMapper1 0x10 data (prgBank m) (chrBank0 m) (chrBank1 m),
         mirror_of (data .& 3))
      else if reg =? 1 then
        (mkMapper1 0x10 (ctrl m) (prgBank m) data (chrBank1 m), mir)
      else if reg =? 2 then
        (mkMapper1 0x10 (ctrl m) (prgBank m) (chrBank0 m) data, mir)
      else if reg =? 3 then
        (mkMapper1 0x10 (ctrl m) (data .& 0x0F) (chrBank0 m) (chrBank1 m), mir)
      else
        (mkMapper1 0x10 (ctrl m) (prgBank m) (chrBank0 m) (chrBank1 m), mir)
    else
      (mkMapper1 shift1 (ctrl m) (prgBank m) (chrBank0 m) (chrBank1 m), mir).

(** [Mapper1.prgWrite] *)
Definition Mapper1_prgWrite (addr val : Z) (mc : Mapper1 * Mirror)
  : Mapper1 * Mirror := writeReg addr val mc.

(** [chrRead] of the base class [Mapper], inherited by mappers 0 and 2. *)
Definition Mapper_chrRead (c : Cartridge) (addr : Z) : jsval :=
  ta_get (chr c) (addr .& (len (chr c) - 1)).

Definition Mapper1_chrBase (m : Mapper1) (addr : Z) : Z :=
  let mode := (ctrl m >> 4) .& 1 in
  if mode =? 0 then (chrBank0 m .& 0x1E) * 0x1000 + addr
  else (if addr <? 0x1000 then chrBank0 m else chrBank1 m) * 0x1000
       + (addr .& 0x0FFF).

Definition Mapper1_chrRead (c : Cartridge) (m : Mapper1) (addr : Z) : jsval :=
  ta_get (chr c) (Mapper1_chrBase m addr).

Definition Mapper3_chrRead (c : Cartridge) (chrBank addr : Z) : jsval :=
  ta_get (chr c) (chrBank * 0x2000 + addr).

(** [chrAt] of [Mapper4.chrRead] *)
Definition chrAt (c : Cartridge) (m : Mapper4) (i : Z) : Z :=
  to_int32 (js_mul (ta_get (banks m) i) #0x400) .& (len (chr c) - 1).

Definition Mapper4_chrRead (c : Cartridge) (m : Mapper4) (addr : Z) : jsval :=
  if negb (chrMode m =? 0) then
    if addr <? 0x0800 then ta_get (chr c) (chrAt c m 2 + addr)
    else if addr <? 0x1000 then ta_get (chr c) (chrAt c m 3 + (addr - 0x0800))
    else if addr <? 0x1400 then ta_get (chr c) (chrAt c m 4 + (addr - 0x1000))
    else if addr <? 0x1800 then ta_get (chr c) (chrAt c m 5 + (addr - 0x1400))
    else if addr <? 0x1C00 then ta_get (chr c) (chrAt c m 0 + (addr - 0x1800))
    else ta_get (chr c) (chrAt c m 1 + (addr - 0x1C00))
  else
    if addr <? 0x0800 then ta_get (chr c) (chrAt c m 0 + addr)
    else if addr <? 0x1000 then ta_get (chr c) (chrAt c m 1 + (addr - 0x0800))
    else if addr <? 0x1400 then ta_get (chr c) (chrAt c m 2 + (addr - 0x1000))
    else if addr <? 0x1800 then ta_get (chr c) (chrAt c m 3 + (addr - 0x1400))
    else if addr <? 0x1C00 then ta_get (chr c) (chrAt c m 4 + (addr - 0x1800))
    else ta_get (chr c) (chrAt c m 5 + (addr - 0x1C00)).

(** [mapper.chrRead(addr)], dispatched on the mapper's class. *)
Definition chrRead (c : Cartridge) (addr : Z) : jsval :=
  match mapperInstance c with
  | M0 => Mapper_chrRead c addr
  | M1 m => Mapper1_chrRead c m addr
  | M2 _ => Mapper_chrRead c addr
  | M3 b => Mapper3_chrRead c b addr
  | M4 m => Mapper4_chrRead c m addr
  end.

(** [chrWrite] of the base class, inherited by mappers 0, 2, 3 and 4. *)
Definition Mapper_chrWrite (c : Cartridge) (addr val : Z) : Cartridge :=
  if chrRAM c
  then set_chr (ta_set8 (chr c) (addr .& (len (chr c) - 1)) #val) c
  else c.

Definition Mapper1_chrWrite (c : Cartridge) (m : Mapper1) (addr val : Z)
  : Cartridge :=
  if chrRAM c
  then set_chr (ta_set8 (chr c) (Mapper1_chrBase m addr) #val) c
  else c.

Definition chrWrite (c : Cartridge) (addr val : Z) : Cartridge :=
  match mapperInstance c with
  | M1 m => Mapper1_chrWrite c m addr val
  | _ => Mapper_chrWrite c addr val
  end.

(** [Uint8Array.prototype.slice(start, end)]: both bounds go through
    ToIntegerOrInfinity (NaN is 0), a negative bound counts from the end,
    and both are clamped to the array; a missing [end] is the length. *)
Definition to_integer (j : jsval) : Z :=
  match to_number j with Some z => z | None => 0 end.

Definition slice_bound (k size : Z) : Z :=
  if k <? 0 then Z.max (size + k) 0 else Z.min k size.

Definition ta_slice (arr : list Z) (first last : jsval) : list Z :=
  let size := len arr in
  let from := slice_bound (to_integer first) size in
  let final := match last with
               | JUndef => size
               | _ => slice_bound (to_integer last) size
               end in
  take (Z.to_nat (final - from)) (drop (Z.to_nat from) arr).

(** What [new Cartridge(bytes)] can throw: the error of [parseINES], and
    the TypeError of [Mapper4]'s constructor, which assigns [this.mirror]
    although the class [Mapper] gives [mirror] a getter and no setter
    (class bodies are strict code). *)
Inductive Thrown : Type := NotINES | MirrorHasOnlyGetter.

(** The fields of the cartridge beside those of [Cartridge]. *)
Record Loaded : Type := mkLoaded {
  cartridge : Cartridge;
  mapperId : Z;
  hasTrainer : bool
}.

(** The mapper instantiated for a mapper id. *)
Definition newMapper (m : Z) : Thrown + Mapper :=
  if m =? 0 then inr M0
  else if m =? 1 then inr (M1 Mapper1_new)
  else if m =? 2 then inr (M2 0)
  else if m =? 3 then inr (M3 0)
  else if m =? 4 then inl MirrorHasOnlyGetter
  else inr M0.

(** [parseINES] *)
Definition parseINES (b : list Z) : Thrown + Loaded :=
  if negb (js_is (ta_get b 0) 0x4E) || negb (js_is (ta_get b 1) 0x45)
     || negb (js_is (ta_get b 2) 0x53) || negb (js_is (ta_get b 3) 0x1A)
  then inl NotINES
  else
    let prgBanks := ta_get b 4 in
    let chrBanks := ta_get b 5 in
    let flag6 := to_int32 (ta_get b 6) in
    let flag7 := to_int32 (ta_get b 7) in
    let mapper := (flag7 .& 0xF0) .| (flag6 >> 4) in
    let id := mapper .& 0xFF in
    let mir := if negb (flag6 .& 0x01 =? 0) then vertical else horizontal in
    let trainer := negb (flag6 .& 0x04 =? 0) in
    let off := if trainer then 16 + 512 else 16 in
    let prgSize := js_mul prgBanks #16384 in
    let chrSize := js_mul chrBanks #8192 in
    let prg' := ta_slice b #off (js_add #off prgSize) in
    let off' := js_add #off prgSize in
    let chr' := if truthy chrSize
                then ta_slice b off' (js_add off' chrSize)
                else replicate (Z.to_nat 8192) 0 in
    let ram' := js_is chrSize 0 in
    match newMapper id with
    | inl t => inl t
    | inr m =>
        inr (mkLoaded
               (mkCartridge prg' chr' ram' (replicate (Z.to_nat 0x2000) 0) mir m)
               id trainer)
    end.

End Cart.

(* ===================================================================== *)
(** ** ppu.js *)
(* ===================================================================== *)

Module PPU.

(** The PPU object, as wired by [attachCanvas] and [connectCart]. The
    cartridge it points to is shared with the bus and is passed to the
    functions that reach it; the canvas handles and the fields the code
    never reads ([nextTileFineX], [bgLatch.lo], [bgLatch.hi],
    [scanlineSprites]) are left out. *)
Record state : Type := mkPPU {
  v : Z;   (* current VRAM address (15 bits) *)
  t : Z;   (* temporary VRAM address (15 bits) *)
  x : Z;   (* fine X (3 bits) *)
  w : Z;   (* write toggle *)
  ctrl : Z;   (* $2000 *)
  mask : Z;   (* $2001 *)
  status : Z;   (* $2002 *)
  oam : list Z;   (* Uint8Array(256) *)
  oamaddr : Z;
  secOAM : list Z;   (* Uint8Array(32) *)
  spriteCount : Z;
  spriteZeroInLine : bool;
  vram : list Z;   (* Uint8Array(0x800) *)
  palette : list Z;   (* Uint8Array(32) *)
  mirror : Cart.Mirror;   (* copied from the cartridge by connectCart *)
  fb : list Z;   (* Uint32Array view of the 256x240 image *)
  cycle : Z;   (* 0..340 *)
  scanline : Z;   (* 0..261 *)
  frame : Z;
  nmi : bool;
  nameTableByte : jsval;
  attrTableByte : jsval;
  patternLo : jsval;
  patternHi : jsval;
  bgShiftLo : Z;   (* 16-bit shift register *)
  bgShiftHi : Z;
  attrShiftLo : Z;
  attrShiftHi : Z;
  bgLatch_pal : Z;   (* bgLatch.pal *)
  spriteShiftsLo : list Z;   (* Uint8Array(8) *)
  spriteShiftsHi : list Z;
  spriteX : list Z;
  spriteAttr : list Z;
  spriteY : list Z;
  spriteIndices : list Z;
  buffered : jsval   (* read buffer of $2007 *)
}.

(** Field updates ([this.f = e]). *)
Definition set_v (e : Z) (s : state) : state :=
  mkPPU e (t s) (x s) (w s) (ctrl s) (mask s) (status s) (oam s) (oamaddr s)
    (secOAM s) (spriteCount s) (spriteZeroInLine s) (vram s) (palette s)
    (mirror s) (fb s) (cycle s) (scanline s) (frame s) (nmi s)
    (nameTableByte s) (attrTableByte s) (patternLo s) (patternHi s)
    (bgShiftLo s) (bgShiftHi s) (attrShiftLo s) (attrShiftHi s)
    (bgLatch_pal s) (spriteShiftsLo s) (spriteShiftsHi s) (spriteX s)
    (spriteAttr s) (spriteY s) (spriteIndices s) (buffered s).
Definition set_t (e : Z) (s : state) : state :=
  mkPPU (v s) e (x s) (w s) (ctrl s) (mask s) (status s) (oam s) (oamaddr s)
    (secOAM s) (spriteCount s) (spriteZeroInLine s) (vram s) (palette s)
    (mirror s) (fb s) (cycle s) (scanline s) (frame s) (nmi s)
    (nameTableByte s) (attrTableByte s) (patternLo s) (patternHi s)
    (bgShiftLo s) (bgShiftHi s) (attrShiftLo s) (attrShiftHi s)
    (bgLatch_pal s) (spriteShiftsLo s) (spriteShiftsHi s) (spriteX s)
    (spriteAttr s) (spriteY s) (spriteIndices s) (buffered s).
Definition set_x (e : Z) (s : state) : state :=
  mkPPU (v s) (t s) e (w s) (ctrl s) (mask s) (status s) (oam s) (oamaddr s)
    (secOAM s) (spriteCount s) (spriteZeroInLine s) (vram s) (palette s)
    (mirror s) (fb s) (cycle s) (scanline s) (frame s) (nmi s)
    (nameTableByte s) (attrTableByte s) (patternLo s) (patternHi s)
    (bgShiftLo s) (bgShiftHi s) (attrShiftLo s) (attrShiftHi s)
    (bgLatch_pal s) (spriteShiftsLo s) (spriteShiftsHi s) (spriteX s)
    (spriteAttr s) (spriteY s) (spriteIndices s) (buffered s).
Definition set_w (e : Z) (s : state) : state :=
  mkPPU (v s) (t s) (x s) e (ctrl s) (mask s) (status s) (oam s) (oamaddr s)
    (secOAM s) (spriteCount s) (spriteZeroInLine s) (vram s) (palette s)
    (mirror s) (fb s) (cycle s) (scanline s) (frame s) (nmi s)
    (nameTableByte s) (attrTableByte s) (patternLo s) (patternHi s)
    (bgShiftLo s) (bgShiftHi s) (attrShiftLo s) (attrShiftHi s)
    (bgLatch_pal s) (spriteShiftsLo s) (spriteShiftsHi s) (spriteX s)
    (spriteAttr s) (spriteY s) (spriteIndices s) (buffered s).
Definition set_ctrl (e : Z) (s : state) : state :=
  mkPPU (v s) (t s) (x s) (w s) e (mask s) (status s) (oam s) (oamaddr s)
    (secOAM s) (spriteCount s) (spriteZeroInLine s) (vram s) (palette s)
    (mirror s) (fb s) (cycle s) (scanline s) (frame s) (nmi s)
    (nameTableByte s) (attrTableByte s) (patternLo s) (patternHi s)
    (bgShiftLo s) (bgShiftHi s) (attrShiftLo s) (attrShiftHi s)
    (bgLatch_pal s) (spriteShiftsLo s) (spriteShiftsHi s) (spriteX s)
    (spriteAttr s) (spriteY s) (spriteIndices s) (buffered s).
Definition set_mask (e : Z) (s : state) : state :=
  mkPPU (v s) (t s) (x s) (w s) (ctrl s) e (status s) (oam s) (oamaddr s)
    (secOAM s) (spriteCount s) (spriteZeroInLine s) (vram s) (palette s)
    (mirror s) (fb s) (cycle s) (scanline s) (frame s) (nmi s)
    (nameTableByte s) (attrTableByte s) (patternLo s) (patternHi s)
    (bgShiftLo s) (bgShiftHi s) (attrShiftLo s) (attrShiftHi s)
    (bgLatch_pal s) (spriteShiftsLo s) (spriteShiftsHi s) (spriteX s)
    (spriteAttr s) (spriteY s) (spriteIndices s) (buffered s).
Definition set_status (e : Z) (s : state) : state :=
  mkPPU (v s) (t s) (x s) (w s) (ctrl s) (mask s) e (oam s) (oamaddr s)
    (secOAM s) (spriteCount s) (spriteZeroInLine s) (vram s) (palette s)
    (mirror s) (fb s) (cycle s) (scanline s) (frame s) (nmi s)
    (nameTableByte s) (attrTableByte s) (patternLo s) (patternHi s)
    (bgShiftLo s) (bgShiftHi s) (attrShiftLo s) (attrShiftHi s)
    (bgLatch_pal s) (spriteShiftsLo s) (spriteShiftsHi s) (spriteX s)
    (spriteAttr s) (spriteY s) (spriteIndices s) (buffered s).
Definition set_oam (e : list Z) (s : state) : state :=
  mkPPU (v s) (t s) (x s) (w s) (ctrl s) (mask s) (status s) e (oamaddr s)
    (secOAM s) (spriteCount s) (spriteZeroInLine s) (vram s) (palette s)
    (mirror s) (fb s) (cycle s) (scanline s) (frame s) (nmi s)
    (nameTableByte s) (attrTableByte s) (patternLo s) (patternHi s)
    (bgShiftLo s) (bgShiftHi s) (attrShiftLo s) (attrShiftHi s)
    (bgLatch_pal s) (spriteShiftsLo s) (spriteShiftsHi s) (spriteX s)
    (spriteAttr s) (spriteY s) (spriteIndices s) (buffered s).
Definition set_oamaddr (e : Z) (s : state) : state :=
  mkPPU (v s) (t s) (x s) (w s) (ctrl s) (mask s) (status s) (oam s) e
    (secOAM s) (spriteCount s) (spriteZeroInLine s) (vram s) (palette s)
    (mirror s) (fb s) (cycle s) (scanline s) (frame s) (nmi s)
    (nameTableByte s) (attrTableByte s) (patternLo s) (patternHi s)
    (bgShiftLo s) (bgShiftHi s) (attrShiftLo s) (attrShiftHi s)
    (bgLatch_pal s) (spriteShiftsLo s) (spriteShiftsHi s) (spriteX s)
    (spriteAttr s) (spriteY s) (spriteIndices s) (buffered s).
Definition set_secOAM (e : list Z) (s : state) : state :=
  mkPPU (v s) (t s) (x s) (w s) (ctrl s) (mask s) (status s) (oam s)
    (oamaddr s) e (spriteCount s) (spriteZeroInLine s) (vram s) (palette s)
    (mirror s) (fb s) (cycle s) (scanline s) (frame s) (nmi s)
    (nameTableByte s) (attrTableByte s) (patternLo s) (patternHi s)
    (bgShiftLo s) (bgShiftHi s) (attrShiftLo s) (attrShiftHi s)
    (bgLatch_pal s) (spriteShiftsLo s) (spriteShiftsHi s) (spriteX s)
    (spriteAttr s) (spriteY s) (spriteIndices s) (buffered s).
Definition set_spriteCount (e : Z) (s : state) : state :=
  mkPPU (v s) (t s) (x s) (w s) (ctrl s) (mask s) (status s) (oam s)
    (oamaddr s) (secOAM s) e (spriteZeroInLine s) (vram s) (palette s)
    (mirror s) (fb s) (cycle s) (scanline s) (frame s) (nmi s)
    (nameTableByte s) (attrTableByte s) (patternLo s) (patternHi s)
    (bgShiftLo s) (bgShiftHi s) (attrShiftLo s) (attrShiftHi s)
    (bgLatch_pal s) (spriteShiftsLo s) (spriteShiftsHi s) (spriteX s)
    (spriteAttr s) (spriteY s) (spriteIndices s) (buffered s).
Definition set_spriteZeroInLine (e : bool) (s : state) : state :=
  mkPPU (v s) (t s) (x s) (w s) (ctrl s) (mask s) (status s) (oam s)
    (oamaddr s) (secOAM s) (spriteCount s) e (vram s) (palette s) (mirror s)
    (fb s) (cycle s) (scanline s) (frame s) (nmi s) (nameTableByte s)
    (attrTableByte s) (patternLo s) (patternHi s) (bgShiftLo s)
    (bgShiftHi s) (attrShiftLo s) (attrShiftHi s) (bgLatch_pal s)
    (spriteShiftsLo s) (spriteShiftsHi s) (spriteX s) (spriteAttr s)
    (spriteY s) (spriteIndices s) (buffered s).
Definition set_vram (e : list Z) (s : state) : state :=
  mkPPU (v s) (t s) (x s) (w s) (ctrl s) (mask s) (status s) (oam s)
    (oamaddr s) (secOAM s) (spriteCount s) (spriteZeroInLine s) e
    (palette s) (mirror s) (fb s) (cycle s) (scanline s) (frame s) (nmi s)
    (nameTableByte s) (attrTableByte s) (patternLo s) (patternHi s)
    (bgShiftLo s) (bgShiftHi s) (attrShiftLo s) (attrShiftHi s)
    (bgLatch_pal s) (spriteShiftsLo s) (spriteShiftsHi s) (spriteX s)
    (spriteAttr s) (spriteY s) (spriteIndices s) (buffered s).
Definition set_palette (e : list Z) (s : state) : state :=
  mkPPU (v s) (t s) (x s) (w s) (ctrl s) (mask s) (status s) (oam s)
    (oamaddr s) (secOAM s) (spriteCount s) (spriteZeroInLine s) (vram s) e
    (mirror s) (fb s) (cycle s) (scanline s) (frame s) (nmi s)
    (nameTableByte s) (attrTableByte s) (patternLo s) (patternHi s)
    (bgShiftLo s) (bgShiftHi s) (attrShiftLo s) (attrShiftHi s)
    (bgLatch_pal s) (spriteShiftsLo s) (spriteShiftsHi s) (spriteX s)
    (spriteAttr s) (spriteY s) (spriteIndices s) (buffered s).
Definition set_mirror (e : Cart.Mirror) (s : state) : state :=
  mkPPU (v s) (t s) (x s) (w s) (ctrl s) (mask s) (status s) (oam s)
    (oamaddr s) (secOAM s) (spriteCount s) (spriteZeroInLine s) (vram s)
    (palette s) e (fb s) (cycle s) (scanline s) (frame s) (nmi s)
    (nameTableByte s) (attrTableByte s) (patternLo s) (patternHi s)
    (bgShiftLo s) (bgShiftHi s) (attrShiftLo s) (attrShiftHi s)
    (bgLatch_pal s) (spriteShiftsLo s) (spriteShiftsHi s) (spriteX s)
    (spriteAttr s) (spriteY s) (spriteIndices s) (buffered s).
Definition set_fb (e : list Z) (s : state) : state :=
  mkPPU (v s) (t s) (x s) (w s) (ctrl s) (mask s) (status s) (oam s)
    (oamaddr s) (secOAM s) (spriteCount s) (spriteZeroInLine s) (vram s)
    (palette s) (mirror s) e (cycle s) (scanline s) (frame s) (nmi s)
    (nameTableByte s) (attrTableByte s) (patternLo s) (patternHi s)
    (bgShiftLo s) (bgShiftHi s) (attrShiftLo s) (attrShiftHi s)
    (bgLatch_pal s) (spriteShiftsLo s) (spriteShiftsHi s) (spriteX s)
    (spriteAttr s) (spriteY s) (spriteIndices s) (buffered s).
Definition set_cycle (e : Z) (s : state) : state :=
  mkPPU (v s) (t s) (x s) (w s) (ctrl s) (mask s) (status s) (oam s)
    (oamaddr s) (secOAM s) (spriteCount s) (spriteZeroInLine s) (vram s)
    (palette s) (mirror s) (fb s) e (scanline s) (frame s) (nmi s)
    (nameTableByte s) (attrTableByte s) (patternLo s) (patternHi s)
    (bgShiftLo s) (bgShiftHi s) (attrShiftLo s) (attrShiftHi s)
    (bgLatch_pal s) (spriteShiftsLo s) (spriteShiftsHi s) (spriteX s)
    (spriteAttr s) (spriteY s) (spriteIndices s) (buffered s).
Definition set_scanline (e : Z) (s : state) : state :=
  mkPPU (v s) (t s) (x s) (w s) (ctrl s) (mask s) (status s) (oam s)
    (oamaddr s) (secOAM s) (spriteCount s) (spriteZeroInLine s) (vram s)
    (palette s) (mirror s) (fb s) (cycle s) e (frame s) (nmi s)
    (nameTableByte s) (attrTableByte s) (patternLo s) (patternHi s)
    (bgShiftLo s) (bgShiftHi s) (attrShiftLo s) (attrShiftHi s)
    (bgLatch_pal s) (spriteShiftsLo s) (spriteShiftsHi s) (spriteX s)
    (spriteAttr s) (spriteY s) (spriteIndices s) (buffered s).
Definition set_frame (e : Z) (s : state) : state :=
  mkPPU (v s) (t s) (x s) (w s) (ctrl s) (mask s) (status s) (oam s)
    (oamaddr s) (secOAM s) (spriteCount s) (spriteZeroInLine s) (vram s)
    (palette s) (mirror s) (fb s) (cycle s) (scanline s) e (nmi s)
    (nameTableByte s) (attrTableByte s) (patternLo s) (patternHi s)
    (bgShiftLo s) (bgShiftHi s) (attrShiftLo s) (attrShiftHi s)
    (bgLatch_pal s) (spriteShiftsLo s) (spriteShiftsHi s) (spriteX s)
    (spriteAttr s) (spriteY s) (spriteIndices s) (buffered s).
Definition set_nmi (e : bool) (s : state) : state :=
  mkPPU (v s) (t s) (x s) (w s) (ctrl s) (mask s) (status s) (oam s)
    (oamaddr s) (secOAM s) (spriteCount s) (spriteZeroInLine s) (vram s)
    (palette s) (mirror s) (fb s) (cycle s) (scanline s) (frame s) e
    (nameTableByte s) (attrTableByte s) (patternLo s) (patternHi s)
    (bgShiftLo s) (bgShiftHi s) (attrShiftLo s) (attrShiftHi s)
    (bgLatch_pal s) (spriteShiftsLo s) (spriteShiftsHi s) (spriteX s)
    (spriteAttr s) (spriteY s) (spriteIndices s) (buffered s).
Definition set_nameTableByte (e : jsval) (s : state) : state :=
  mkPPU (v s) (t s) (x s) (w s) (ctrl s) (mask s) (status s) (oam s)
    (oamaddr s) (secOAM s) (spriteCount s) (spriteZeroInLine s) (vram s)
    (palette s) (mirror s) (fb s) (cycle s) (scanline s) (frame s) (nmi s) e
    (attrTableByte s) (patternLo s) (patternHi s) (bgShiftLo s)
    (bgShiftHi s) (attrShiftLo s) (attrShiftHi s) (bgLatch_pal s)
    (spriteShiftsLo s) (spriteShiftsHi s) (spriteX s) (spriteAttr s)
    (spriteY s) (spriteIndices s) (buffered s).
Definition set_attrTableByte (e : jsval) (s : state) : state :=
  mkPPU (v s) (t s) (x s) (w s) (ctrl s) (mask s) (status s) (oam s)
    (oamaddr s) (secOAM s) (spriteCount s) (spriteZeroInLine s) (vram s)
    (palette s) (mirror s) (fb s) (cycle s) (scanline s) (frame s) (nmi s)
    (nameTableByte s) e (patternLo s) (patternHi s) (bgShiftLo s)
    (bgShiftHi s) (attrShiftLo s) (attrShiftHi s) (bgLatch_pal s)
    (spriteShiftsLo s) (spriteShiftsHi s) (spriteX s) (spriteAttr s)
    (spriteY s) (spriteIndices s) (buffered s).
Definition set_patternLo (e : jsval) (s : state) : state :=
  mkPPU (v s) (t s) (x s) (w s) (ctrl s) (mask s) (status s) (oam s)
    (oamaddr s) (secOAM s) (spriteCount s) (spriteZeroInLine s) (vram s)
    (palette s) (mirror s) (fb s) (cycle s) (scanline s) (frame s) (nmi s)
    (nameTableByte s) (attrTableByte s) e (patternHi s) (bgShiftLo s)
    (bgShiftHi s) (attrShiftLo s) (attrShiftHi s) (bgLatch_pal s)
    (spriteShiftsLo s) (spriteShiftsHi s) (spriteX s) (spriteAttr s)
    (spriteY s) (spriteIndices s) (buffered s).
Definition set_patternHi (e : jsval) (s : state) : state :=
  mkPPU (v s) (t s) (x s) (w s) (ctrl s) (mask s) (status s) (oam s)
    (oamaddr s) (secOAM s) (spriteCount s) (spriteZeroInLine s) (vram s)
    (palette s) (mirror s) (fb s) (cycle s) (scanline s) (frame s) (nmi s)
    (nameTableByte s) (attrTableByte s) (patternLo s) e (bgShiftLo s)
    (bgShiftHi s) (attrShiftLo s) (attrShiftHi s) (bgLatch_pal s)
    (spriteShiftsLo s) (spriteShiftsHi s) (spriteX s) (spriteAttr s)
    (spriteY s) (spriteIndices s) (buffered s).
Definition set_bgShiftLo (e : Z) (s : state) : state :=
  mkPPU (v s) (t s) (x s) (w s) (ctrl s) (mask s) (status s) (oam s)
    (oamaddr s) (secOAM s) (spriteCount s) (spriteZeroInLine s) (vram s)
    (palette s) (mirror s) (fb s) (cycle s) (scanline s) (frame s) (nmi s)
    (nameTableByte s) (attrTableByte s) (patternLo s) (patternHi s) e
    (bgShiftHi s) (attrShiftLo s) (attrShiftHi s) (bgLatch_pal s)
    (spriteShiftsLo s) (spriteShiftsHi s) (spriteX s) (spriteAttr s)
    (spriteY s) (spriteIndices s) (buffered s).
Definition set_bgShiftHi (e : Z) (s : state) : state :=
  mkPPU (v s) (t s) (x s) (w s) (ctrl s) (mask s) (status s) (oam s)
    (oamaddr s) (secOAM s) (spriteCount s) (spriteZeroInLine s) (vram s)
    (palette s) (mirror s) (fb s) (cycle s) (scanline s) (frame s) (nmi s)
    (nameTableByte s) (attrTableByte s) (patternLo s) (patternHi s)
    (bgShiftLo s) e (attrShiftLo s) (attrShiftHi s) (bgLatch_pal s)
    (spriteShiftsLo s) (spriteShiftsHi s) (spriteX s) (spriteAttr s)
    (spriteY s) (spriteIndices s) (buffered s).
Definition set_attrShiftLo (e : Z) (s : state) : state :=
  mkPPU (v s) (t s) (x s) (w s) (ctrl s) (mask s) (status s) (oam s)
    (oamaddr s) (secOAM s) (spriteCount s) (spriteZeroInLine s) (vram s)
    (palette s) (mirror s) (fb s) (cycle s) (scanline s) (frame s) (nmi s)
    (nameTableByte s) (attrTableByte s) (patternLo s) (patternHi s)
    (bgShiftLo s) (bgShiftHi s) e (attrShiftHi s) (bgLatch_pal s)
    (spriteShiftsLo s) (spriteShiftsHi s) (spriteX s) (spriteAttr s)
    (spriteY s) (spriteIndices s) (buffered s).
Definition set_attrShiftHi (e : Z) (s : state) : state :=
  mkPPU (v s) (t s) (x s) (w s) (ctrl s) (mask s) (status s) (oam s)
    (oamaddr s) (secOAM s) (spriteCount s) (spriteZeroInLine s) (vram s)
    (palette s) (mirror s) (fb s) (cycle s) (scanline s) (frame s) (nmi s)
    (nameTableByte s) (attrTableByte s) (patternLo s) (patternHi s)
    (bgShiftLo s) (bgShiftHi s) (attrShiftLo s) e (bgLatch_pal s)
    (spriteShiftsLo s) (spriteShiftsHi s) (spriteX s) (spriteAttr s)
    (spriteY s) (spriteIndices s) (buffered s).
Definition set_bgLatch_pal (e : Z) (s : state) : state :=
  mkPPU (v s) (t s) (x s) (w s) (ctrl s) (mask s) (status s) (oam s)
    (oamaddr s) (secOAM s) (spriteCount s) (spriteZeroInLine s) (vram s)
    (palette s) (mirror s) (fb s) (cycle s) (scanline s) (frame s) (nmi s)
    (nameTableByte s) (attrTableByte s) (patternLo s) (patternHi s)
    (bgShiftLo s) (bgShiftHi s) (attrShiftLo s) (attrShiftHi s) e
    (spriteShiftsLo s) (spriteShiftsHi s) (spriteX s) (spriteAttr s)
    (spriteY s) (spriteIndices s) (buffered s).
Definition set_spriteShiftsLo (e : list Z) (s : state) : state :=
  mkPPU (v s) (t s) (x s) (w s) (ctrl s) (mask s) (status s) (oam s)
    (oamaddr s) (secOAM s) (spriteCount s) (spriteZeroInLine s) (vram s)
    (palette s) (mirror s) (fb s) (cycle s) (scanline s) (frame s) (nmi s)
    (nameTableByte s) (attrTableByte s) (patternLo s) (patternHi s)
    (bgShiftLo s) (bgShiftHi s) (attrShiftLo s) (attrShiftHi s)
    (bgLatch_pal s) e (spriteShiftsHi s) (spriteX s) (spriteAttr s)
    (spriteY s) (spriteIndices s) (buffered s).
Definition set_spriteShiftsHi (e : list Z) (s : state) : state :=
  mkPPU (v s) (t s) (x s) (w s) (ctrl s) (mask s) (status s) (oam s)
    (oamaddr s) (secOAM s) (spriteCount s) (spriteZeroInLine s) (vram s)
    (palette s) (mirror s) (fb s) (cycle s) (scanline s) (frame s) (nmi s)
    (nameTableByte s) (attrTableByte s) (patternLo s) (patternHi s)
    (bgShiftLo s) (bgShiftHi s) (attrShiftLo s) (attrShiftHi s)
    (bgLatch_pal s) (spriteShiftsLo s) e (spriteX s) (spriteAttr s)
    (spriteY s) (spriteIndices s) (buffered s).
Definition set_spriteX (e : list Z) (s : state) : state :=
  mkPPU (v s) (t s) (x s) (w s) (ctrl s) (mask s) (status s) (oam s)
    (oamaddr s) (secOAM s) (spriteCount s) (spriteZeroInLine s) (vram s)
    (palette s) (mirror s) (fb s) (cycle s) (scanline s) (frame s) (nmi s)
    (nameTableByte s) (attrTableByte s) (patternLo s) (patternHi s)
    (bgShiftLo s) (bgShiftHi s) (attrShiftLo s) (attrShiftHi s)
    (bgLatch_pal s) (spriteShiftsLo s) (spriteShiftsHi s) e (spriteAttr s)
    (spriteY s) (spriteIndices s) (buffered s).
Definition set_spriteAttr (e : list Z) (s : state) : state :=
  mkPPU (v s) (t s) (x s) (w s) (ctrl s) (mask s) (status s) (oam s)
    (oamaddr s) (secOAM s) (spriteCount s) (spriteZeroInLine s) (vram s)
    (palette s) (mirror s) (fb s) (cycle s) (scanline s) (frame s) (nmi s)
    (nameTableByte s) (attrTableByte s) (patternLo s) (patternHi s)
    (bgShiftLo s) (bgShiftHi s) (attrShiftLo s) (attrShiftHi s)
    (bgLatch_pal s) (spriteShiftsLo s) (spriteShiftsHi s) (spriteX s) e
    (spriteY s) (spriteIndices s) (buffered s).
Definition set_spriteY (e : list Z) (s : state) : state :=
  mkPPU (v s) (t s) (x s) (w s) (ctrl s) (mask s) (status s) (oam s)
    (oamaddr s) (secOAM s) (spriteCount s) (spriteZeroInLine s) (vram s)
    (palette s) (mirror s) (fb s) (cycle s) (scanline s) (frame s) (nmi s)
    (nameTableByte s) (attrTableByte s) (patternLo s) (patternHi s)
    (bgShiftLo s) (bgShiftHi s) (attrShiftLo s) (attrShiftHi s)
    (bgLatch_pal s) (spriteShiftsLo s) (spriteShiftsHi s) (spriteX s)
    (spriteAttr s) e (spriteIndices s) (buffered s).
Definition set_spriteIndices (e : list Z) (s : state) : state :=
  mkPPU (v s) (t s) (x s) (w s) (ctrl s) (mask s) (status s) (oam s)
    (oamaddr s) (secOAM s) (spriteCount s) (spriteZeroInLine s) (vram s)
    (palette s) (mirror s) (fb s) (cycle s) (scanline s) (frame s) (nmi s)
    (nameTableByte s) (attrTableByte s) (patternLo s) (patternHi s)
    (bgShiftLo s) (bgShiftHi s) (attrShiftLo s) (attrShiftHi s)
    (bgLatch_pal s) (spriteShiftsLo s) (spriteShiftsHi s) (spriteX s)
    (spriteAttr s) (spriteY s) e (buffered s).
Definition set_buffered (e : jsval) (s : state) : state :=
  mkPPU (v s) (t s) (x s) (w s) (ctrl s) (mask s) (status s) (oam s)
    (oamaddr s) (secOAM s) (spriteCount s) (spriteZeroInLine s) (vram s)
    (palette s) (mirror s) (fb s) (cycle s) (scanline s) (frame s) (nmi s)
    (nameTableByte s) (attrTableByte s) (patternLo s) (patternHi s)
    (bgShiftLo s) (bgShiftHi s) (attrShiftLo s) (attrShiftHi s)
    (bgLatch_pal s) (spriteShiftsLo s) (spriteShiftsHi s) (spriteX s)
    (spriteAttr s) (spriteY s) (spriteIndices s) e.

(** The constructor, followed by [attachCanvas] and by [connectCart] on a
    cartridge with the given mirroring. *)
Definition new (m : Cart.Mirror) : state :=
  mkPPU 0 0 0 0 0 0 0 (replicate 256 0) 0 (replicate 32 0) 0 false
    (replicate (Z.to_nat 0x800) 0) (replicate 32 0) m
    (replicate (Z.to_nat (256 * 240)) 0)
    0 261 0 false #0 #0 #0 #0 0 0 0 0 0
    (replicate 8 0) (replicate 8 0) (replicate 8 0) (replicate 8 0)
    (replicate 8 0) (replicate 8 0) #0.

(** [for (let i = 0; i < n; i++) body] without [break]. *)
Definition for_ {S : Type} (n : Z) (body : Z -> S -> S) (s : S) : S :=
  foldl (fun acc i => body i acc) s (seqZ 0 n).

(** The increment of [v] after a $2007 access. *)
Definition vramInc (s : state) : Z :=
  if negb (ctrl s .& 0x04 =? 0) then 32 else 1.

(** [ntIndex]: name table index mapping with mirroring. *)
Definition ntIndex (s : state) (addr : Z) : Z :=
  let a := addr .& 0x0FFF in
  let nt := (a >> 10) .& 3 in
  let off := a .& 0x03FF in
  match mirror s with
  | Cart.vertical => ((nt .& 1) * 0x400) + off
  | Cart.horizontal => (((nt >> 1) .& 1) * 0x400) + off
  | _ => off
  end.

(** The palette slot an address in $3F00-$3FFF falls on. *)
Definition paletteIndex (addr : Z) : Z :=
  let a := 0x3F00 + (addr .& 0x1F) in
  let idx := a .& 0x1F in
  if idx .& 0x13 =? 0x10 then idx .& ~~0x10 else idx.

(** [ppuRead]. [addr &= 0x3FFF] keeps the low 14 bits, which is [Z.land]
    on any integer; a caller whose address may be NaN passes its ToInt32. *)
Definition ppuRead (c : Cart.Cartridge) (s : state) (addr : Z) : jsval :=
  let addr := addr .& 0x3FFF in
  if addr <? 0x2000 then Cart.chrRead c (addr .& 0x1FFF)
  else if addr <? 0x3F00 then ta_get (vram s) (ntIndex s addr .& 0x7FF)
  else #(to_int32 (ta_get (palette s) (paletteIndex addr)) .& 0x3F).

Definition ppuWrite (addr val : Z) (cs : Cart.Cartridge * state)
  : Cart.Cartridge * state :=
  let (c, s) := cs in
  let addr := addr .& 0x3FFF in
  let val := val .& 0xFF in
  if addr <? 0x2000 then (Cart.chrWrite c (addr .& 0x1FFF) val, s)
  else if addr <? 0x3F00 then
    (c, set_vram (ta_set8 (vram s) (ntIndex s addr .& 0x7FF) #val) s)
  else
    (c, set_palette (ta_set8 (palette s) (paletteIndex addr) #(val .& 0x3F)) s).

(** [read]: CPU-visible register reads ($2002, $2004, $2007). *)
Definition read (c : Cart.Cartridge) (addr : Z) (s : state) : jsval * state :=
  let r := addr .& 7 in
  if r =? 2 then
    let res := (status s .& 0xE0) .| (to_int32 (buffered s) .& 0x1F) in
    (#res, set_w 0 (set_status (status s .& ~~0x80) s))
  else if r =? 4 then
    (ta_get (oam s) (oamaddr s .& 0xFF), s)
  else if r =? 7 then
    let addr14 := v s .& 0x3FFF in
    let val := ppuRead c s addr14 in
    if 0x3F00 <=? addr14 then
      let s1 := set_buffered (ppuRead c s (addr14 - 0x1000)) s in
      (val, set_v ((v s1 + vramInc s1) .& 0x7FFF) s1)
    else
      let ret := buffered s in
      let s1 := set_buffered val s in
      (ret, set_v ((v s1 + vramInc s1) .& 0x7FFF) s1)
  else (#0, s).

(** [write]: CPU-visible register writes ($2000-$2007). *)
Definition write (addr val : Z) (cs : Cart.Cartridge * state)
  : Cart.Cartridge * state :=
  let (c, s) := cs in
  let val := val .& 0xFF in
  let r := addr .& 7 in
  if r =? 0 then
    (c, set_t ((t s .& 0xF3FF) .| ((val .& 0x03) << 10)) (set_ctrl val s))
  else if r =? 1 then (c, set_mask val s)
  else if r =? 3 then (c, set_oamaddr (val .& 0xFF) s)
  else if r =? 4 then
    let s1 := set_oam (ta_set8 (oam s) (oamaddr s .& 0xFF) #val) s in
    (c, set_oamaddr ((oamaddr s1 + 1) .& 0xFF) s1)
  else if r =? 5 then
    if w s =? 0 then
      let s1 := set_x (val .& 0x07) s in
      let s2 := set_t ((t s1 .& 0x7FE0) .| ((val .& 0xF8) >> 3)) s1 in
      (c, set_w 1 s2)
    else
      let s1 := set_t ((t s .& 0x0C1F) .| ((val .& 0x07) << 12)
                       .| ((val .& 0xF8) << 2)) s in
      (c, set_w 0 s1)
  else if r =? 6 then
    if w s =? 0 then
      let s1 := set_t ((t s .& 0x00FF) .| ((val .& 0x3F) << 8)) s in
      (c, set_w 1 s1)
    else
      let s1 := set_t ((t s .& 0x7F00) .| val) s in
      let s2 := set_v (t s1) s1 in
      (c, set_w 0 s2)
  else if r =? 7 then
    let (c1, s1) := ppuWrite (v s .& 0x3FFF) val (c, s) in
    (c1, set_v ((v s1 + vramInc s1) .& 0x7FFF) s1)
  else (c, s).

(** [doDMA]: OAM DMA. *)
Definition doDMA (buf : list Z) (s : state) : state :=
  for_ 256
    (fun i s' =>
       set_oam (ta_set8 (oam s') ((oamaddr s' + i) .& 0xFF) (ta_get buf i)) s')
    s.

(** Scrolling helpers. *)
Definition incCoarseX (s : state) : state :=
  if v s .& 0x001F =? 31 then
    let s1 := set_v (v s .& ~~0x001F) s in
    set_v (v s1 .^ 0x0400) s1
  else set_v (v s + 1) s.

Definition incY (s : state) : state :=
  if negb (v s .& 0x7000 =? 0x7000) then set_v (v s + 0x1000) s
  else
    let s1 := set_v (v s .& ~~0x7000) s in
    let y0 := (v s1 .& 0x03E0) >> 5 in
    let '(y1, s2) :=
      if y0 =? 29 then (0, set_v (v s1 .^ 0x0800) s1)
      else if y0 =? 31 then (0, s1)
      else (y0 + 1, s1) in
    set_v ((v s2 .& ~~0x03E0) .| (y1 << 5)) s2.

Definition copyX (s : state) : state :=
  set_v ((v s .& ~~0x041F) .| (t s .& 0x041F)) s.

Definition copyY (s : state) : state :=
  set_v ((v s .& ~~0x7BE0) .| (t s .& 0x7BE0)) s.

(** Background fetch pipeline. *)
Definition fetchName (c : Cart.Cartridge) (s : state) : state :=
  let addr := 0x2000 .| (v s .& 0x0FFF) in
  set_nameTableByte (ppuRead c s addr) s.

Definition fetchAttr (c : Cart.Cartridge) (s : state) : state :=
  let at_ := 0x23C0 .| (v s .& 0x0C00) .| ((v s >> 4) .& 0x38)
             .| ((v s >> 2) .& 0x07) in
  let s1 := set_attrTableByte (ppuRead c s at_) s in
  let sh := ((v s1 >> 4) .& 4) .| (v s1 .& 2) in
  set_bgLatch_pal (((to_int32 (attrTableByte s1) >> sh) .& 3) << 2) s1.

Definition bgPatternAddr (s : state) : Z :=
  let fineY := (v s >> 12) .& 7 in
  let table := if negb (ctrl s .& 0x10 =? 0) then 1 else 0 in
  let tile := to_int32 (nameTableByte s) .& 0xFF in
  (table * 0x1000) + (tile * 16) + fineY.

Definition fetchPatternLow (c : Cart.Cartridge) (s : state) : state :=
  set_patternLo (ppuRead c s (bgPatternAddr s)) s.

Definition fetchPatternHigh (c : Cart.Cartridge) (s : state) : state :=
  set_patternHi (ppuRead c s (bgPatternAddr s + 8)) s.

Definition loadBGShiftRegisters (s : state) : state :=
  let s1 := set_bgShiftLo
              (((bgShiftLo s .& 0xFF) .| (to_int32 (patternLo s) << 8))
               .& 0xFFFF) s in
  let s2 := set_bgShiftHi
              (((bgShiftHi s1 .& 0xFF) .| (to_int32 (patternHi s1) << 8))
               .& 0xFFFF) s1 in
  let pal := bgLatch_pal s2 .& 0xFF in
  let lo := if negb (pal .& 0x01 =? 0) then 0xFF else 0x00 in
  let hi := if negb (pal .& 0x02 =? 0) then 0xFF else 0x00 in
  let s3 := set_attrShiftLo (((attrShiftLo s2 .& 0xFF) .| (lo << 8)) .& 0xFFFF)
              s2 in
  set_attrShiftHi (((attrShiftHi s3 .& 0xFF) .| (hi << 8)) .& 0xFFFF) s3.

(** [for (...) { ... break ... }]: the body reports whether it broke out. *)
Definition for_break {S : Type} (n : Z) (body : Z -> S -> bool * S) (s : S) : S :=
  snd (foldl (fun (acc : bool * S) i =>
                if fst acc then acc else body i (snd acc))
             (false, s) (seqZ 0 n)).

(** One iteration of the OAM scan of [evaluateSprites]. *)
Definition scanOAM (i : Z) (s : state) : bool * state :=
  let o := i * 4 in
  let sy := ta_get (oam s) o in
  let tile := ta_get (oam s) (o + 1) in
  let attr := ta_get (oam s) (o + 2) in
  let sx := ta_get (oam s) (o + 3) in
  let h := if negb (ctrl s .& 0x20 =? 0) then 16 else 8 in
  let row := js_sub #(scanline s) sy in
  if js_ge row #0 && js_lt row #h then
    let s1 :=
      if spriteCount s <? 8 then
        let dest := spriteCount s * 4 in
        let sec := ta_set8 (secOAM s) (dest + 0) sy in
        let sec := ta_set8 sec (dest + 1) tile in
        let sec := ta_set8 sec (dest + 2) attr in
        let sec := ta_set8 sec (dest + 3) sx in
        let s' := set_secOAM sec s in
        if i =? 0 then set_spriteZeroInLine true s' else s'
      else s in
    let s2 := set_spriteCount (spriteCount s1 + 1) s1 in
    if spriteCount s2 =? 9
    then (true, set_status (status s2 .| 0x20) s2)
    else (false, s2)
  else (false, s).

(** One iteration of the second loop of [evaluateSprites]. *)
Definition loadSlot (i : Z) (s : state) : state :=
  let base := i * 4 in
  let sy := ta_get (secOAM s) (base + 0) in
  if js_is sy 0xFF then
    let s := set_spriteY (ta_set8 (spriteY s) i #0xFF) s in
    let s := set_spriteX (ta_set8 (spriteX s) i #0x00) s in
    let s := set_spriteAttr (ta_set8 (spriteAttr s) i #0) s in
    let s := set_spriteShiftsLo (ta_set8 (spriteShiftsLo s) i #0) s in
    let s := set_spriteShiftsHi (ta_set8 (spriteShiftsHi s) i #0) s in
    set_spriteIndices (ta_set8 (spriteIndices s) i #0xFF) s
  else
    let tile := ta_get (secOAM s) (base + 1) in
    let attr := ta_get (secOAM s) (base + 2) in
    let sx := ta_get (secOAM s) (base + 3) in
    let s := set_spriteY (ta_set8 (spriteY s) i sy) s in
    let s := set_spriteAttr (ta_set8 (spriteAttr s) i attr) s in
    let s := set_spriteX (ta_set8 (spriteX s) i sx) s in
    let s := set_spriteIndices (ta_set8 (spriteIndices s) i tile) s in
    let s := set_spriteShiftsLo (ta_set8 (spriteShiftsLo s) i #0) s in
    set_spriteShiftsHi (ta_set8 (spriteShiftsHi s) i #0) s.

(** [evaluateSprites]: sprite evaluation (scanline -> secOAM). *)
Definition evaluateSprites (s : state) : state :=
  let s := set_spriteCount 0 s in
  let s := set_spriteZeroInLine false s in
  let s := for_ 32 (fun i s' => set_secOAM (ta_set8 (secOAM s') i #0xFF) s') s in
  let s := for_break 64 scanOAM s in
  for_ 8 loadSlot s.

(** [reverseByte]: reverse the bits of a byte. *)
Definition reverseByte (j : jsval) : Z :=
  let b := to_int32 j in
  let b := ((b .& 0xF0) >> 4) .| ((b .& 0x0F) << 4) in
  let b := ((b .& 0xCC) >> 2) .| ((b .& 0x33) << 2) in
  let b := ((b .& 0xAA) >> 1) .| ((b .& 0x55) << 1) in
  b .& 0xFF.

(** One iteration of [fetchSpritePatterns]. *)
Definition fetchSlot (c : Cart.Cartridge) (i : Z) (s : state) : state :=
  let spriteHeight := if negb (ctrl s .& 0x20 =? 0) then 16 else 8 in
  if js_is (ta_get (spriteY s) i) 0xFF then
    let s := set_spriteShiftsLo (ta_set8 (spriteShiftsLo s) i #0) s in
    set_spriteShiftsHi (ta_set8 (spriteShiftsHi s) i #0) s
  else
    let row := js_sub #(scanline s) (ta_get (spriteY s) i) in
    let tile0 := ta_get (spriteIndices s) i in
    let table0 := if negb (ctrl s .& 0x08 =? 0) then 1 else 0 in
    let fineY0 := #(to_int32 row .& 0x07) in
    let '(table, tile, fineY) :=
      if spriteHeight =? 16 then
        let table := to_int32 tile0 .& 1 in
        let tile := to_int32 tile0 .& 0xFE in
        if js_ge row #8 then (table, #(tile + 1), js_sub row #8)
        else (table, #tile, fineY0)
      else (table0, tile0, fineY0) in
    let flipV := (to_int32 (ta_get (spriteAttr s) i) >> 7) .& 1 in
    let flipH := (to_int32 (ta_get (spriteAttr s) i) >> 6) .& 1 in
    let fy := if negb (flipV =? 0) then js_sub #7 fineY else fineY in
    let addrLo := js_add (js_add #(table * 0x1000) (js_mul tile #16)) fy in
    let addrHi := js_add addrLo #8 in
    let lo := ppuRead c s (to_int32 addrLo) in
    let hi := ppuRead c s (to_int32 addrHi) in
    let '(lo, hi) :=
      if negb (flipH =? 0) then (#(reverseByte lo), #(reverseByte hi))
      else (lo, hi) in
    let s := set_spriteShiftsLo (ta_set8 (spriteShiftsLo s) i lo) s in
    set_spriteShiftsHi (ta_set8 (spriteShiftsHi s) i hi) s.

Definition fetchSpritePatterns (c : Cart.Cartridge) (s : state) : state :=
  for_ 8 (fetchSlot c) s.

(** The NTSC palette and the RGBA words [attachCanvas] derives from it. *)
Definition NTSC_PALETTE : list (Z * Z * Z) :=
  [ (84,84,84); (0,30,116); (8,16,144); (48,0,136); (68,0,100); (92,0,48);
    (84,4,0); (60,24,0); (32,42,0); (8,58,0); (0,64,0); (0,60,0); (0,50,60);
    (0,0,0); (0,0,0); (0,0,0);
    (152,150,152); (8,76,196); (48,50,236); (92,30,228); (136,20,176);
    (160,20,100); (152,34,32); (120,60,0); (84,90,0); (40,114,0); (8,124,0);
    (0,118,40); (0,102,120); (0,0,0); (0,0,0); (0,0,0);
    (236,238,236); (76,154,236); (120,124,236); (176,98,236); (228,84,236);
    (236,88,180); (236,106,100); (212,136,32); (160,170,0); (116,196,0);
    (76,208,32); (56,204,108); (56,180,204); (60,60,60); (0,0,0); (0,0,0);
    (236,238,236); (168,204,236); (188,188,236); (212,178,236); (236,174,236);
    (236,174,212); (236,180,176); (228,196,144); (204,210,120); (180,222,120);
    (168,226,144); (152,226,180); (160,214,228); (160,162,160); (0,0,0);
    (0,0,0) ].

Definition paletteRGB : list Z :=
  map (fun '(r, g, b) => (255 << 24) .| (b << 16) .| (g << 8) .| r)
      NTSC_PALETTE.

(** [fb[y*256 + x] = paletteRGB[i] || 0xFF000000] *)
Definition plot (xpos ypos i : Z) (s : state) : state :=
  let rgb := ta_get paletteRGB i in
  let word := if truthy rgb then rgb else #0xFF000000 in
  set_fb (ta_set32 (fb s) (ypos * 256 + xpos) word) s.

(** The background pixel and palette bits [renderPixel] samples. *)
Definition bgSample (s : state) : Z * Z :=
  if negb (mask s .& 0x08 =? 0) then
    let planeLo := (bgShiftLo s >> (15 - x s)) .& 1 in
    let planeHi := (bgShiftHi s >> (15 - x s)) .& 1 in
    let palLo := (attrShiftLo s >> (15 - x s)) .& 1 in
    let palHi := (attrShiftHi s >> (15 - x s)) .& 1 in
    ((planeHi << 1) .| planeLo, ((palHi << 1) .| palLo) << 2)
  else (0, 0).

(** The sprite loop of [renderPixel] over the slots still to visit: the
    first sprite whose X counter is 0 and whose pixel is opaque, as
    (spritePixel, spritePal, spritePriority, spriteIsZero). *)
Fixpoint spriteScan (s : state) (slots : list Z) : Z * Z * Z * bool :=
  match slots with
  | [] => (0, 0, 0, false)
  | i :: rest =>
      if js_is (ta_get (spriteY s) i) 0xFF then spriteScan s rest
      else if js_is (ta_get (spriteX s) i) 0 then
        let lo := (to_int32 (ta_get (spriteShiftsLo s) i) >> 7) .& 1 in
        let hi := (to_int32 (ta_get (spriteShiftsHi s) i) >> 7) .& 1 in
        let px := (hi << 1) .| lo in
        if negb (px =? 0) then
          let attr := to_int32 (ta_get (spriteAttr s) i) in
          (px, ((attr .& 3) + 4) << 2, (attr >> 5) .& 1,
           spriteZeroInLine s && (i =? 0))
        else spriteScan s rest
      else spriteScan s rest
  end.

Definition spriteSample (s : state) : Z * Z * Z * bool :=
  if negb (mask s .& 0x10 =? 0) then spriteScan s (seqZ 0 8)
  else (0, 0, 0, false).

(** [renderPixel]: render a single pixel from bg + sprites at (x,y). The
    constants the source computes and never uses are left out. *)
Definition renderPixel (xpos ypos : Z) (s : state) : state :=
  let '(bgPixel, bgPalette) := bgSample s in
  let '(spritePixel, spritePal, spritePriority, spriteIsZero) :=
    spriteSample s in
  let s1 :=
    if negb (spritePixel =? 0) && negb (bgPixel =? 0) && spriteIsZero
       && (xpos <? 255)
    then set_status (status s .| 0x40) s
    else s in
  let colorIndex :=
    if negb (spritePixel =? 0) && ((spritePriority =? 0) || (bgPixel =? 0))
    then 0x10 .| spritePal .| (spritePixel .& 3)
    else if negb (bgPixel =? 0) then 0x10 .| bgPalette .| (bgPixel .& 3)
    else to_int32 (ta_get (palette s1) 0) .& 0x3F in
  let rgbIndex := colorIndex .& 0x3F in
  plot xpos ypos rgbIndex s1.

(** One sprite slot of [stepShifters]. *)
Definition shiftSlot (i : Z) (s : state) : state :=
  if js_is (ta_get (spriteX s) i) 0 then
    let s1 := set_spriteShiftsLo
                (ta_set8 (spriteShiftsLo s) i
                   #((to_int32 (ta_get (spriteShiftsLo s) i) << 1) .& 0xFF)) s in
    set_spriteShiftsHi
      (ta_set8 (spriteShiftsHi s1) i
         #((to_int32 (ta_get (spriteShiftsHi s1) i) << 1) .& 0xFF)) s1
  else if js_gt (ta_get (spriteX s) i) #0 then
    set_spriteX (ta_set8 (spriteX s) i (js_sub (ta_get (spriteX s) i) #1)) s
  else s.

Definition stepShifters (s : state) : state :=
  let s1 :=
    if negb (mask s .& 0x08 =? 0) then
      let s := set_bgShiftLo ((bgShiftLo s << 1) .& 0xFFFF) s in
      let s := set_bgShiftHi ((bgShiftHi s << 1) .& 0xFFFF) s in
      let s := set_attrShiftLo ((attrShiftLo s << 1) .& 0xFFFF) s in
      set_attrShiftHi ((attrShiftHi s << 1) .& 0xFFFF) s
    else s in
  if negb (mask s1 .& 0x10 =? 0) then for_ 8 shiftSlot s1 else s1.

(** The body of [step] for a visible scanline, dots 1..256. *)
Definition visibleDot (c : Cart.Cartridge) (renderingEnabled : bool)
    (s : state) : state :=
  let cycleMod8 := cycle s .& 7 in
  let s1 :=
    if cycleMod8 =? 1 then fetchName c s
    else if cycleMod8 =? 3 then fetchAttr c s
    else if cycleMod8 =? 5 then fetchPatternLow c s
    else if cycleMod8 =? 7 then fetchPatternHigh c s
    else if cycleMod8 =? 0 then loadBGShiftRegisters s
    else s in
  let xpos := cycle s1 - 1 in
  let ypos := scanline s1 in
  let s2 :=
    if renderingEnabled then renderPixel xpos ypos s1
    else plot xpos ypos (to_int32 (ta_get (palette s1) 0) .& 0x3F) s1 in
  let s3 := stepShifters s2 in
  if cycleMod8 =? 0 then incCoarseX s3 else s3.

(** The body of [step] at dot 257 of a visible scanline. *)
Definition spriteDot (c : Cart.Cartridge) (renderingEnabled : bool)
    (s : state) : state :=
  let s1 := if renderingEnabled then copyX s else s in
  if renderingEnabled then
    let s2 := evaluateSprites s1 in
    let s3 := fetchSpritePatterns c s2 in
    for_ 8 (fun i s' =>
              if js_is (ta_get (spriteY s') i) 0xFF
              then set_spriteX (ta_set8 (spriteX s') i #0xFF) s'
              else s') s3
  else s1.

(** The counters at the end of [step]. *)
Definition advance (s : state) : state :=
  let s1 := set_cycle (cycle s + 1) s in
  if 340 <? cycle s1 then
    let s2 := set_cycle 0 s1 in
    let s3 := set_scanline (scanline s2 + 1) s2 in
    if 261 <? scanline s3 then
      let s4 := set_scanline 0 s3 in
      set_frame (frame s4 + 1) s4
    else s3
  else s1.

(** The blocks of [step], in the order of the source. *)

(** Pre-render line 261: clear flags at cycle 1. *)
Definition preRenderClear (s : state) : state :=
  if (scanline s =? 261) && (cycle s =? 1) then
    let s1 := set_status (status s .& ~~(0x80 .| 0x40 .| 0x20)) s in
    set_spriteZeroInLine false s1
  else s.

(** Visible scanlines 0..239. *)
Definition visibleLine (c : Cart.Cartridge) (renderingEnabled : bool)
    (s : state) : state :=
  if (0 <=? scanline s) && (scanline s <=? 239) then
    let s1 :=
      if (1 <=? cycle s) && (cycle s <=? 256)
      then visibleDot c renderingEnabled s else s in
    let s2 := if cycle s1 =? 257 then spriteDot c renderingEnabled s1 else s1 in
    if cycle s2 =? 256 then (if renderingEnabled then incY s2 else s2) else s2
  else s.

(** Pre-render line: cycles 280..304 copy Y if rendering is enabled. *)
Definition preRenderCopy (renderingEnabled : bool) (s : state) : state :=
  if scanline s =? 261 then
    if (280 <=? cycle s) && (cycle s <=? 304) && renderingEnabled
    then copyY s else s
  else s.

(** Enter VBlank at scanline 241, cycle 1. [renderToCanvas] only hands the
    image to the host canvas and leaves the PPU as it is. *)
Definition enterVBlank (s : state) : state :=
  if (scanline s =? 241) && (cycle s =? 1) then
    let s1 := set_status (status s .| 0x80) s in
    if negb (ctrl s1 .& 0x80 =? 0) then set_nmi true s1 else s1
  else s.

(** [step]: the primary PPU cycle step. *)
Definition step (c : Cart.Cartridge) (s : state) : state :=
  let s1 := preRenderClear s in
  let renderingEnabled := negb (mask s1 .& 0x18 =? 0) in
  let s2 := visibleLine c renderingEnabled s1 in
  let s3 := preRenderCopy renderingEnabled s2 in
  let s4 := enterVBlank s3 in
  advance s4.

End PPU.

(* ===================================================================== *)
(** ** cpu6502.js: the registers of the second [CPU6502] class *)
(* ===================================================================== *)

Module CPUState.

Inductive Mode : Type :=
  IMP | IMM | ZP0 | ZPX | ZPY | ABS | ABX | ABY | IZX | IZY | IND | REL.

(** A register loaded from the bus holds whatever the read returned, and
    [cycles] is a plain number field: these are [jsval]s. [p] is only ever
    assigned the result of a bitwise operator. *)
Record regs : Type := mkCPU {
  a : jsval;
  x : jsval;
  y : jsval;
  sp : jsval;
  p : Z;
  pc : jsval;
  cycles : jsval;
  stall : Z;
  addrMode : option Mode;   (* null until the first instruction *)
  pageCross : Z
}.

Definition set_a (e : jsval) (r : regs) : regs :=
  mkCPU e (x r) (y r) (sp r) (p r) (pc r) (cycles r) (stall r) (addrMode r)
    (pageCross r).
Definition set_x (e : jsval) (r : regs) : regs :=
  mkCPU (a r) e (y r) (sp r) (p r) (pc r) (cycles r) (stall r) (addrMode r)
    (pageCross r).
Definition set_y (e : jsval) (r : regs) : regs :=
  mkCPU (a r) (x r) e (sp r) (p r) (pc r) (cycles r) (stall r) (addrMode r)
    (pageCross r).
Definition set_sp (e : jsval) (r : regs) : regs :=
  mkCPU (a r) (x r) (y r) e (p r) (pc r) (cycles r) (stall r) (addrMode r)
    (pageCross r).
Definition set_p (e : Z) (r : regs) : regs :=
  mkCPU (a r) (x r) (y r) (sp r) e (pc r) (cycles r) (stall r) (addrMode r)
    (pageCross r).
Definition set_pc (e : jsval) (r : regs) : regs :=
  mkCPU (a r) (x r) (y r) (sp r) (p r) e (cycles r) (stall r) (addrMode r)
    (pageCross r).
Definition set_cycles (e : jsval) (r : regs) : regs :=
  mkCPU (a r) (x r) (y r) (sp r) (p r) (pc r) e (stall r) (addrMode r)
    (pageCross r).
Definition set_stall (e : Z) (r : regs) : regs :=
  mkCPU (a r) (x r) (y r) (sp r) (p r) (pc r) (cycles r) e (addrMode r)
    (pageCross r).
Definition set_addrMode (e : option Mode) (r : regs) : regs :=
  mkCPU (a r) (x r) (y r) (sp r) (p r) (pc r) (cycles r) (stall r) e
    (pageCross r).
Definition set_pageCross (e : Z) (r : regs) : regs :=
  mkCPU (a r) (x r) (y r) (sp r) (p r) (pc r) (cycles r) (stall r)
    (addrMode r) e.

(** The constructor. *)
Definition new : regs :=
  mkCPU #0 #0 #0 #0xFD 0x24 #0 #0 0 None 0.

End CPUState.

(* ===================================================================== *)
(** ** memory.js *)
(* ===================================================================== *)

(** input.js and apu.js are not among the sources: the two controllers and
    the APU enter as an interface. [apu_read] stands for
    [apu.read ? apu.read(addr) : 0] and [apu_write] for the guarded
    [apu.write(addr, val)]. *)
Class Peripherals (Pad Apu : Type) : Type := {
  pad_read : Pad -> jsval * Pad;
  pad_write : Z -> Pad -> Pad;
  apu_read : Z -> Apu -> jsval * Apu;
  apu_write : Z -> Z -> Apu -> Apu
}.

Module Bus.
Section Bus.
Context {Pad Apu : Type} `{Peripherals Pad Apu}.

(** The object graph [createNESFromROMBytes] builds: the bus with its RAM
    and the components it points to. *)
Record nes : Type := mkNES {
  cpu : CPUState.regs;
  ppu : PPU.state;
  apu : Apu;
  pad1 : Pad;     (* controllers[0] *)
  pad2 : Pad;     (* controllers[1] *)
  cart : Cart.Cartridge;
  ram : list Z    (* Uint8Array(0x800) *)
}.

Definition set_cpu (e : CPUState.regs) (n : nes) : nes :=
  mkNES e (ppu n) (apu n) (pad1 n) (pad2 n) (cart n) (ram n).
Definition set_ppu (e : PPU.state) (n : nes) : nes :=
  mkNES (cpu n) e (apu n) (pad1 n) (pad2 n) (cart n) (ram n).
Definition set_apu (e : Apu) (n : nes) : nes :=
  mkNES (cpu n) (ppu n) e (pad1 n) (pad2 n) (cart n) (ram n).
Definition set_pad1 (e : Pad) (n : nes) : nes :=
  mkNES (cpu n) (ppu n) (apu n) e (pad2 n) (cart n) (ram n).
Definition set_pad2 (e : Pad) (n : nes) : nes :=
  mkNES (cpu n) (ppu n) (apu n) (pad1 n) e (cart n) (ram n).
Definition set_cart (e : Cart.Cartridge) (n : nes) : nes :=
  mkNES (cpu n) (ppu n) (apu n) (pad1 n) (pad2 n) e (ram n).
Definition set_ram (e : list Z) (n : nes) : nes :=
  mkNES (cpu n) (ppu n) (apu n) (pad1 n) (pad2 n) (cart n) e.

(** [cpuRead]. The bus holds the [Cartridge] object, which has a [read]
    method and no [prgRead]: reads of $8000-$FFFF take [cart.read]. *)
Definition cpuRead (addr : Z) (n : nes) : jsval * nes :=
  let addr := addr .& 0xFFFF in
  if addr <? 0x2000 then (ta_get (ram n) (addr .& 0x7FF), n)
  else if addr <? 0x4000 then
    let (r, ppu') := PPU.read (cart n) (0x2000 + (addr .& 7)) (ppu n) in
    (r, set_ppu ppu' n)
  else if addr =? 0x4016 then
    let (r, pad') := pad_read (pad1 n) in (r, set_pad1 pad' n)
  else if addr =? 0x4017 then
    let (r, pad') := pad_read (pad2 n) in (r, set_pad2 pad' n)
  else if addr =? 0x4015 then
    let (r, apu') := apu_read 0x4015 (apu n) in (r, set_apu apu' n)
  else if 0x8000 <=? addr then (Cart.read (cart n) addr, n)
  else if 0x6000 <=? addr then (ta_get (Cart.sram (cart n)) (addr - 0x6000), n)
  else (#0, n).

(** The read loop of the OAM DMA: [buf[i] = this.cpuRead(page + i)]. *)
Definition dmaRead (page : Z) (i : Z) (bn : list Z * nes) : list Z * nes :=
  let (buf, n) := bn in
  let (r, n') := cpuRead (page + i) n in
  (ta_set8 buf i r, n').

Definition dmaFetch (page : Z) (n : nes) : list Z * nes :=
  PPU.for_ 256 (dmaRead page) (replicate 256 0, n).

(** [cpuWrite]. The [Cartridge] object has no [prgWrite], so a write to
    $8000-$FFFF changes nothing. *)
Definition cpuWrite (addr val : Z) (n : nes) : nes :=
  let addr := addr .& 0xFFFF in
  let val := val .& 0xFF in
  if addr <? 0x2000 then set_ram (ta_set8 (ram n) (addr .& 0x7FF) #val) n
  else if addr <? 0x4000 then
    let (cart', ppu') := PPU.write (0x2000 + (addr .& 7)) val (cart n, ppu n) in
    set_ppu ppu' (set_cart cart' n)
  else if addr =? 0x4014 then
    let page := val << 8 in
    let (buf, n') := dmaFetch page n in
    set_ppu (PPU.doDMA buf (ppu n')) n'
  else if addr =? 0x4016 then
    let n1 := set_pad1 (pad_write val (pad1 n)) n in
    set_pad2 (pad_write val (pad2 n1)) n1
  else if (0x4000 <=? addr) && (addr <=? 0x4017) then
    set_apu (apu_write addr val (apu n)) n
  else if 0x8000 <=? addr then n
  else if 0x6000 <=? addr then
    set_cart (Cart.set_sram
                (ta_set8 (Cart.sram (cart n)) (addr - 0x6000) #val) (cart n)) n
  else n.

End Bus.
End Bus.

(* ===================================================================== *)
(** ** cpu6502.js: the second [CPU6502] class *)
(* ===================================================================== *)

Module CPU6502.
Import CPUState.

Inductive Ins : Type :=
  | BRK | NOP | LDA | LDX | LDY | STA | STX | STY
  | TAX | TAY | TXA | TYA | TSX | TXS | PHA | PHP | PLA | PLP
  | AND | ORA | EOR | ADC | SBC | CMP | CPX | CPY
  | INC | DEC | INX | INY | DEX | DEY | ASL | LSR | ROL | ROR | BIT
  | JMP | JSR | RTS | RTI
  | BCC | BCS | BEQ | BMI | BNE | BPL | BVC | BVS
  | CLC | SEC | CLI | SEI | CLV | CLD | SED.

(** An entry of the opcode table, as [O(mode, ins, cyc)] builds it. *)
Record OpEntry : Type := O { mode : Mode; ins : Ins; cyc : Z }.

(** [entry.cy]: [step] reads the property [cy], which no entry carries
    (the entries hold [mode], [ins] and [cyc]); the read is [undefined]. *)
Definition cy (e : OpEntry) : jsval := JUndef.

Definition opcodeList : list (Z * Mode * Ins * Z) :=
  [
    (0x00, IMP, BRK, 7); (0xEA, IMP, NOP, 2);
    (0xA9, IMM, LDA, 2); (0xA5, ZP0, LDA, 3); (0xB5, ZPX, LDA, 4);
    (0xAD, ABS, LDA, 4); (0xBD, ABX, LDA, 4); (0xB9, ABY, LDA, 4);
    (0xA1, IZX, LDA, 6); (0xB1, IZY, LDA, 5);
    (0xA2, IMM, LDX, 2); (0xA6, ZP0, LDX, 3); (0xB6, ZPY, LDX, 4);
    (0xAE, ABS, LDX, 4); (0xBE, ABY, LDX, 4);
    (0xA0, IMM, LDY, 2); (0xA4, ZP0, LDY, 3); (0xB4, ZPX, LDY, 4);
    (0xAC, ABS, LDY, 4); (0xBC, ABX, LDY, 4);
    (0x85, ZP0, STA, 3); (0x95, ZPX, STA, 4); (0x8D, ABS, STA, 4);
    (0x9D, ABX, STA, 5); (0x99, ABY, STA, 5); (0x81, IZX, STA, 6);
    (0x91, IZY, STA, 6);
    (0x86, ZP0, STX, 3); (0x96, ZPY, STX, 4); (0x8E, ABS, STX, 4);
    (0x84, ZP0, STY, 3); (0x94, ZPX, STY, 4); (0x8C, ABS, STY, 4);
    (0xAA, IMP, TAX, 2); (0xA8, IMP, TAY, 2); (0x8A, IMP, TXA, 2);
    (0x98, IMP, TYA, 2);
    (0xBA, IMP, TSX, 2); (0x9A, IMP, TXS, 2); (0x48, IMP, PHA, 3);
    (0x08, IMP, PHP, 3); (0x68, IMP, PLA, 4); (0x28, IMP, PLP, 4);
    (0x29, IMM, AND, 2); (0x25, ZP0, AND, 3); (0x35, ZPX, AND, 4);
    (0x2D, ABS, AND, 4); (0x3D, ABX, AND, 4); (0x39, ABY, AND, 4);
    (0x21, IZX, AND, 6); (0x31, IZY, AND, 5);
    (0x09, IMM, ORA, 2); (0x05, ZP0, ORA, 3); (0x15, ZPX, ORA, 4);
    (0x0D, ABS, ORA, 4); (0x1D, ABX, ORA, 4); (0x19, ABY, ORA, 4);
    (0x01, IZX, ORA, 6); (0x11, IZY, ORA, 5);
    (0x49, IMM, EOR, 2); (0x45, ZP0, EOR, 3); (0x55, ZPX, EOR, 4);
    (0x4D, ABS, EOR, 4); (0x5D, ABX, EOR, 4); (0x59, ABY, EOR, 4);
    (0x41, IZX, EOR, 6); (0x51, IZY, EOR, 5);
    (0x69, IMM, ADC, 2); (0x65, ZP0, ADC, 3); (0x75, ZPX, ADC, 4);
    (0x6D, ABS, ADC, 4); (0x7D, ABX, ADC, 4); (0x79, ABY, ADC, 4);
    (0x61, IZX, ADC, 6); (0x71, IZY, ADC, 5);
    (0xE9, IMM, SBC, 2); (0xE5, ZP0, SBC, 3); (0xF5, ZPX, SBC, 4);
    (0xED, ABS, SBC, 4); (0xFD, ABX, SBC, 4); (0xF9, ABY, SBC, 4);
    (0xE1, IZX, SBC, 6); (0xF1, IZY, SBC, 5);
    (0xC9, IMM, CMP, 2); (0xC5, ZP0, CMP, 3); (0xD5, ZPX, CMP, 4);
    (0xCD, ABS, CMP, 4); (0xDD, ABX, CMP, 4); (0xD9, ABY, CMP, 4);
    (0xC1, IZX, CMP, 6); (0xD1, IZY, CMP, 5);
    (0xE0, IMM, CPX, 2); (0xE4, ZP0, CPX, 3); (0xEC, ABS, CPX, 4);
    (0xC0, IMM, CPY, 2); (0xC4, ZP0, CPY, 3); (0xCC, ABS, CPY, 4);
    (0xE6, ZP0, INC, 5); (0xF6, ZPX, INC, 6); (0xEE, ABS, INC, 6);
    (0xFE, ABX, INC, 7);
    (0xC6, ZP0, DEC, 5); (0xD6, ZPX, DEC, 6); (0xCE, ABS, DEC, 6);
    (0xDE, ABX, DEC, 7);
    (0xE8, IMP, INX, 2); (0xC8, IMP, INY, 2); (0xCA, IMP, DEX, 2);
    (0x88, IMP, DEY, 2);
    (0x0A, IMP, ASL, 2); (0x06, ZP0, ASL, 5); (0x16, ZPX, ASL, 6);
    (0x0E, ABS, ASL, 6); (0x1E, ABX, ASL, 7);
    (0x4A, IMP, LSR, 2); (0x46, ZP0, LSR, 5); (0x56, ZPX, LSR, 6);
    (0x4E, ABS, LSR, 6); (0x5E, ABX, LSR, 7);
    (0x2A, IMP, ROL, 2); (0x26, ZP0, ROL, 5); (0x36, ZPX, ROL, 6);
    (0x2E, ABS, ROL, 6); (0x3E, ABX, ROL, 7);
    (0x6A, IMP, ROR, 2); (0x66, ZP0, ROR, 5); (0x76, ZPX, ROR, 6);
    (0x6E, ABS, ROR, 6); (0x7E, ABX, ROR, 7);
    (0x24, ZP0, BIT, 3); (0x2C, ABS, BIT, 4);
    (0x4C, ABS, JMP, 3); (0x6C, IND, JMP, 5);
    (0x20, ABS, JSR, 6); (0x60, IMP, RTS, 6); (0x40, IMP, RTI, 6);
    (0x90, REL, BCC, 2); (0xB0, REL, BCS, 2); (0xF0, REL, BEQ, 2);
    (0x30, REL, BMI, 2); (0xD0, REL, BNE, 2); (0x10, REL, BPL, 2);
    (0x50, REL, BVC, 2); (0x70, REL, BVS, 2);
    (0x18, IMP, CLC, 2); (0x38, IMP, SEC, 2); (0x58, IMP, CLI, 2);
    (0x78, IMP, SEI, 2); (0xB8, IMP, CLV, 2); (0xD8, IMP, CLD, 2);
    (0xF8, IMP, SED, 2)
  ].

(** [buildOpcodes]: [new Array(256)] filled entry by entry. *)
Definition OPCODES : list (option OpEntry) :=
  foldl (fun tbl '(op, m, i, c) => <[Z.to_nat op := Some (O m i c)]> tbl)
        (replicate 256 None) opcodeList.

(** [this.OPCODES[op]]: a hole of the array, an index outside it and a key
    that is no number all give [undefined]. *)
Definition lookupOp (op : jsval) : option OpEntry :=
  match op with
  | JNum z => if z <? 0 then None else mjoin (OPCODES !! Z.to_nat z)
  | _ => None
  end.

(** [a >>> n] *)
Definition ushr (a n : Z) : Z := Z.shiftr (a mod 2 ^ 32) (n .& 31).

Section CPU.
Context {Pad Apu : Type} `{Peripherals Pad Apu}.

Abbreviation nes := (@Bus.nes Pad Apu).

(** The methods of the CPU act on the whole machine through the bus: they
    are state transformers over [nes]. *)
Definition M (A : Type) : Type := nes -> A * nes.
Definition ret {A : Type} (r : A) : M A := fun n => (r, n).
Definition bind {A B : Type} (m : M A) (k : A -> M B) : M B :=
  fun n => let (r, n') := m n in k r n'.

Notation "r <- m ;; k" := (bind m (fun r => k))
  (at level 100, m at next level, right associativity).
Notation "m ;;; k" := (bind m (fun _ => k))
  (at level 100, right associativity).

Definition get {A : Type} (f : regs -> A) : M A :=
  fun n => (f (Bus.cpu n), n).
Definition upd (g : regs -> regs) : M unit :=
  fun n => (tt, Bus.set_cpu (g (Bus.cpu n)) n).
Definition when (b : bool) (m : M unit) : M unit := if b then m else ret tt.

Definition read (addr : jsval) : M jsval :=
  fun n => Bus.cpuRead (to_int32 addr .& 0xFFFF) n.

Definition write (addr val : jsval) : M unit :=
  fun n => (tt, Bus.cpuWrite (to_int32 addr .& 0xFFFF) (to_int32 val .& 0xFF) n).

(** [this.pc++] as an expression: the old value, as a number. *)
Definition pc_postinc : M jsval :=
  old <- get pc ;;
  upd (set_pc (js_add old #1)) ;;;
  ret (of_number (to_number old)).

Definition push (val : jsval) : M unit :=
  s <- get sp ;;
  write (js_add #0x100 s) #(to_int32 val .& 0xFF) ;;;
  upd (fun r => set_sp #(to_int32 (js_sub (sp r) #1) .& 0xFF) r).

Definition pop : M jsval :=
  upd (fun r => set_sp #(to_int32 (js_add (sp r) #1) .& 0xFF) r) ;;;
  s <- get sp ;;
  read (js_add #0x100 s).

Definition getFlag (bit : Z) : M Z := get (fun r => (p r >> bit) .& 1).
Definition setFlag (bit : Z) (val : bool) : M unit :=
  upd (fun r => if val then set_p (p r .| (1 << bit)) r
                else set_p (p r .& ~~(1 << bit)) r).

Definition getC := getFlag 0.
Definition setC := setFlag 0.
Definition getZ := getFlag 1.
Definition setZ := setFlag 1.
Definition getI := getFlag 2.
Definition setI := setFlag 2.
Definition getD := getFlag 3.
Definition setD := setFlag 3.
Definition getB := getFlag 4.
Definition setB := setFlag 4.
Definition getU := getFlag 5.
Definition setU := setFlag 5.
Definition getV := getFlag 6.
Definition setV := setFlag 6.
Definition getN := getFlag 7.
Definition setN := setFlag 7.

(** The helpers of [fetchAddr]. *)
Definition word (lo hi : jsval) : jsval := #(to_int32 lo .| (to_int32 hi << 8)).

Definition zp : M jsval := a0 <- pc_postinc ;; read a0.
Definition imm : M jsval := pc_postinc.
Definition abs : M jsval :=
  a0 <- pc_postinc ;; lo <- read a0 ;;
  a1 <- pc_postinc ;; hi <- read a1 ;;
  ret (word lo hi).
Definition ind : M jsval :=
  ptr <- abs ;;
  lo <- read ptr ;;
  hi <- read #((to_int32 ptr .& 0xFF00) .| (to_int32 (js_add ptr #1) .& 0xFF)) ;;
  ret (word lo hi).
Definition zpX : M jsval :=
  b <- zp ;; xr <- get x ;; ret #(to_int32 (js_add b xr) .& 0xFF).
Definition zpY : M jsval :=
  b <- zp ;; yr <- get y ;; ret #(to_int32 (js_add b yr) .& 0xFF).
Definition indexed (base idx : jsval) : M jsval :=
  let res := to_int32 (js_add base idx) .& 0xFFFF in
  when (negb (((to_int32 base .^ res) .& 0xFF00) =? 0)) (upd (set_pageCross 1)) ;;;
  ret #res.
Definition absX : M jsval := b <- abs ;; xr <- get x ;; indexed b xr.
Definition absY : M jsval := b <- abs ;; yr <- get y ;; indexed b yr.
Definition indX : M jsval :=
  a0 <- pc_postinc ;; b <- read a0 ;; xr <- get x ;;
  let t := to_int32 (js_add b xr) .& 0xFF in
  lo <- read #t ;;
  hi <- read #((t + 1) .& 0xFF) ;;
  ret (word lo hi).
Definition indY : M jsval :=
  a0 <- pc_postinc ;; t <- read a0 ;;
  lo <- read t ;;
  hi <- read #(to_int32 (js_add t #1) .& 0xFF) ;;
  yr <- get y ;;
  indexed (word lo hi) yr.
Definition rel : M jsval :=
  a0 <- pc_postinc ;; off <- read a0 ;;
  pc1 <- get pc ;;
  ret (if js_lt off #0x80 then js_add pc1 off
       else js_sub (js_add pc1 off) #0x100).

(** [fetchAddr]: addressing modes. *)
Definition fetchAddr (m : option Mode) : M jsval :=
  match m with
  | Some IMP => ret JNull
  | Some IMM => imm
  | Some ZP0 => zp
  | Some ZPX => zpX
  | Some ZPY => zpY
  | Some ABS => abs
  | Some ABX => absX
  | Some ABY => absY
  | Some IZX => indX
  | Some IZY => indY
  | Some IND => ind
  | Some REL => rel
  | None => ret JNull
  end.

Definition setZN (val : jsval) : M unit :=
  setZ ((to_int32 val .& 0xFF) =? 0) ;;;
  setN (negb ((to_int32 val .& 0x80) =? 0)).

(** The local helpers of [execute]. *)
Definition ADC_ (val : jsval) : M unit :=
  acc <- get a ;; c <- getC ;;
  let t := js_add (js_add acc val) #c in
  setC (js_gt t #0xFF) ;;;
  setV (negb ((~~(to_int32 acc .^ to_int32 val)
               .& (to_int32 acc .^ to_int32 t) .& 0x80) =? 0)) ;;;
  upd (set_a #(to_int32 t .& 0xFF)) ;;;
  acc' <- get a ;; setZN acc'.

Definition SBC_ (val : jsval) : M unit :=
  ADC_ #((to_int32 val .^ 0xFF) .& 0xFF).

Definition CMP_ (r val : jsval) : M unit :=
  let t := js_sub r val in
  setC (js_ge r val) ;;;
  setZN #(to_int32 t .& 0xFF).

Definition BIT_ (val : jsval) : M unit :=
  acc <- get a ;;
  setZ ((to_int32 acc .& to_int32 val) =? 0) ;;;
  setV (negb ((to_int32 val .& 0x40) =? 0)) ;;;
  setN (negb ((to_int32 val .& 0x80) =? 0)).

(** The body shared by the eight branch instructions. *)
Definition branch (taken : bool) (addr : jsval) : M unit :=
  when taken
    (upd (fun r => set_cycles (js_add (cycles r) #1) r) ;;;
     pc0 <- get pc ;;
     when (negb ((to_int32 pc0 .& 0xFF00) =? (to_int32 addr .& 0xFF00)))
          (upd (fun r => set_cycles (js_add (cycles r) #1) r)) ;;;
     upd (set_pc addr)).

(** The read-modify-write instructions: [f] maps the operand and the carry
    to the new carry and the result. *)
Definition shiftOp (f : Z -> Z -> bool * Z) (addr : jsval) : M unit :=
  am <- get addrMode ;;
  match am with
  | Some IMP =>
      acc <- get a ;; c <- getC ;;
      let (cout, r) := f (to_int32 acc) c in
      setC cout ;;; upd (set_a #r) ;;; acc' <- get a ;; setZN acc'
  | _ =>
      val <- read addr ;; c <- getC ;;
      let (cout, r) := f (to_int32 val) c in
      setC cout ;;; write addr #(r .& 0xFF) ;;; setZN #r
  end.

Definition asl (val c : Z) : bool * Z :=
  (negb (((val >> 7) .& 1) =? 0), (val << 1) .& 0xFF).
Definition lsr (val c : Z) : bool * Z :=
  (negb ((val .& 1) =? 0), ushr val 1 .& 0xFF).
Definition rol (val c : Z) : bool * Z :=
  (negb (((val >> 7) .& 1) =? 0), ((val << 1) .| c) .& 0xFF).
Definition ror (val c : Z) : bool * Z :=
  (negb ((val .& 1) =? 0), (ushr val 1 .| (c << 7)) .& 0xFF).

(** [execute] *)
Definition execute (i : Ins) (addr : jsval) : M unit :=
  match i with
  | BRK =>
      _ <- pc_postinc ;;
      pc0 <- get pc ;; push #((to_int32 pc0 >> 8) .& 0xFF) ;;;
      pc1 <- get pc ;; push #(to_int32 pc1 .& 0xFF) ;;;
      setB true ;;; setU true ;;; setI true ;;;
      flags <- get p ;; push #flags ;;;
      lo <- read #0xFFFE ;; hi <- read #0xFFFF ;;
      upd (set_pc (word lo hi))
  | NOP => ret tt
  | LDA => val <- read addr ;; upd (set_a val) ;;; r <- get a ;; setZN r
  | LDX => val <- read addr ;; upd (set_x val) ;;; r <- get x ;; setZN r
  | LDY => val <- read addr ;; upd (set_y val) ;;; r <- get y ;; setZN r
  | STA => r <- get a ;; write addr #(to_int32 r .& 0xFF)
  | STX => r <- get x ;; write addr #(to_int32 r .& 0xFF)
  | STY => r <- get y ;; write addr #(to_int32 r .& 0xFF)
  | TAX => upd (fun r => set_x (a r) r) ;;; r <- get x ;; setZN r
  | TAY => upd (fun r => set_y (a r) r) ;;; r <- get y ;; setZN r
  | TXA => upd (fun r => set_a (x r) r) ;;; r <- get a ;; setZN r
  | TYA => upd (fun r => set_a (y r) r) ;;; r <- get a ;; setZN r
  | TSX => upd (fun r => set_x (sp r) r) ;;; r <- get x ;; setZN r
  | TXS => upd (fun r => set_sp (x r) r)
  | PHA => r <- get a ;; push r
  | PHP => flags <- get p ;; push #(flags .| 0x10)
  | PLA => val <- pop ;; upd (set_a val) ;;; r <- get a ;; setZN r
  | PLP => val <- pop ;; upd (set_p ((to_int32 val .& 0xEF) .| 0x20))
  | AND =>
      acc <- get a ;; val <- read addr ;;
      upd (set_a #(to_int32 acc .& to_int32 val)) ;;; r <- get a ;; setZN r
  | ORA =>
      acc <- get a ;; val <- read addr ;;
      upd (set_a #(to_int32 acc .| to_int32 val)) ;;; r <- get a ;; setZN r
  | EOR =>
      acc <- get a ;; val <- read addr ;;
      upd (set_a #(to_int32 acc .^ to_int32 val)) ;;; r <- get a ;; setZN r
  | ADC => val <- read addr ;; ADC_ val
  | SBC => val <- read addr ;; SBC_ val
  | CMP => r <- get a ;; val <- read addr ;; CMP_ r val
  | CPX => r <- get x ;; val <- read addr ;; CMP_ r val
  | CPY => r <- get y ;; val <- read addr ;; CMP_ r val
  | INC =>
      val <- read addr ;;
      let r := to_int32 (js_add val #1) .& 0xFF in
      write addr #(r .& 0xFF) ;;; setZN #r
  | INX =>
      upd (fun r => set_x #(to_int32 (js_add (x r) #1) .& 0xFF) r) ;;;
      r <- get x ;; setZN r
  | INY =>
      upd (fun r => set_y #(to_int32 (js_add (y r) #1) .& 0xFF) r) ;;;
      r <- get y ;; setZN r
  | DEC =>
      val <- read addr ;;
      let r := to_int32 (js_sub val #1) .& 0xFF in
      write addr #(r .& 0xFF) ;;; setZN #r
  | DEX =>
      upd (fun r => set_x #(to_int32 (js_sub (x r) #1) .& 0xFF) r) ;;;
      r <- get x ;; setZN r
  | DEY =>
      upd (fun r => set_y #(to_int32 (js_sub (y r) #1) .& 0xFF) r) ;;;
      r <- get y ;; setZN r
  | ASL => shiftOp asl addr
  | LSR => shiftOp lsr addr
  | ROL => shiftOp rol addr
  | ROR => shiftOp ror addr
  | BIT => val <- read addr ;; BIT_ val
  | JMP => upd (set_pc addr)
  | JSR =>
      pc0 <- get pc ;;
      let r := to_int32 (js_sub pc0 #1) .& 0xFFFF in
      push #((r >> 8) .& 0xFF) ;;;
      push #(r .& 0xFF) ;;;
      upd (set_pc addr)
  | RTS =>
      lo <- pop ;; hi <- pop ;;
      upd (set_pc (js_add #((to_int32 hi << 8) .| to_int32 lo) #1))
  | RTI =>
      val <- pop ;; upd (set_p ((to_int32 val .& 0xEF) .| 0x20)) ;;;
      lo <- pop ;; hi <- pop ;;
      upd (set_pc #((to_int32 hi << 8) .| to_int32 lo))
  | BCC => c <- getC ;; branch (c =? 0) addr
  | BCS => c <- getC ;; branch (negb (c =? 0)) addr
  | BEQ => z <- getZ ;; branch (negb (z =? 0)) addr
  | BMI => f <- getN ;; branch (negb (f =? 0)) addr
  | BNE => z <- getZ ;; branch (z =? 0) addr
  | BPL => f <- getN ;; branch (f =? 0) addr
  | BVC => f <- getV ;; branch (f =? 0) addr
  | BVS => f <- getV ;; branch (negb (f =? 0)) addr
  | CLC => setC false
  | SEC => setC true
  | CLI => setI false
  | SEI => setI true
  | CLV => setV false
  | CLD => setD false
  | SED => setD true
  end.

(** [step] *)
Definition step : M jsval :=
  st <- get stall ;;
  if 0 <? st then
    upd (fun r => set_stall (stall r - 1) r) ;;;
    upd (fun r => set_cycles (js_add (cycles r) #1) r) ;;;
    ret #1
  else
    a0 <- pc_postinc ;;
    op <- read a0 ;;
    match lookupOp op with
    | None => ret #1
    | Some entry =>
        upd (set_addrMode (Some (mode entry))) ;;;
        upd (set_pageCross 0) ;;;
        am <- get addrMode ;;
        addr <- fetchAddr am ;;
        cyclesBefore <- get cycles ;;
        execute (ins entry) addr ;;;
        pcross <- get pageCross ;;
        let c := js_add (cy entry) #pcross in
        upd (fun r => set_cycles (js_add (cycles r) c) r) ;;;
        now <- get cycles ;;
        ret (js_sub now cyclesBefore)
    end.

(** [reset] *)
Definition reset : M unit :=
  upd (set_a #0) ;;; upd (set_x #0) ;;; upd (set_y #0) ;;;
  upd (set_sp #0xFD) ;;; upd (set_p 0x24) ;;;
  lo <- read #0xFFFC ;; hi <- read #0xFFFD ;;
  upd (set_pc (word lo hi)) ;;;
  upd (set_cycles #7) ;;;
  upd (set_stall 0).

(** [nmi] *)
Definition nmi : M unit :=
  pc0 <- get pc ;; push #((to_int32 pc0 >> 8) .& 0xFF) ;;;
  pc1 <- get pc ;; push #(to_int32 pc1 .& 0xFF) ;;;
  setB false ;;; setU true ;;; setI true ;;;
  flags <- get p ;; push #flags ;;;
  lo <- read #0xFFFA ;; hi <- read #0xFFFB ;;
  upd (set_pc (word lo hi)) ;;;
  upd (fun r => set_cycles (js_add (cycles r) #7) r).

(** [irq] *)
Definition irq : M unit :=
  i <- getI ;;
  if negb (i =? 0) then ret tt
  else
    pc0 <- get pc ;; push #((to_int32 pc0 >> 8) .& 0xFF) ;;;
    pc1 <- get pc ;; push #(to_int32 pc1 .& 0xFF) ;;;
    setB false ;;; setU true ;;; setI true ;;;
    flags <- get p ;; push #flags ;;;
    lo <- read #0xFFFE ;; hi <- read #0xFFFF ;;
    upd (set_pc (word lo hi)) ;;;
    upd (fun r => set_cycles (js_add (cycles r) #7) r).

End CPU.
End CPU6502.

(** A machine without controllers or APU behind the bus: reads return 0
    and writes are dropped. *)
#[export] Instance no_peripherals : Peripherals unit unit := {
  pad_read := fun u => (#0, u);
  pad_write := fun _ u => u;
  apu_read := fun _ u => (#0, u);
  apu_write := fun _ _ u => u
}.

(* ===================================================================== *)
(** ** nes.js: the run loop *)
(* ===================================================================== *)

Module NES.
Section NES.
Context {Pad Apu : Type} `{Peripherals Pad Apu}.

(** [apu.step(cyc)], of the absent apu.js. *)
Variable apu_step : jsval -> Apu -> Apu.

(** The body of the inner loop: one PPU step, then the NMI hand-over. *)
Definition ppuDot (n : @Bus.nes Pad Apu) : @Bus.nes Pad Apu :=
  let n1 := Bus.set_ppu (PPU.step (Bus.cart n) (Bus.ppu n)) n in
  if PPU.nmi (Bus.ppu n1) then
    let n2 := snd (CPU6502.nmi n1) in
    Bus.set_ppu (PPU.set_nmi false (Bus.ppu n2)) n2
  else n1.

(** The body of the [while] loop of [runLoop]. The bound [cyc*3] of the
    inner loop is NaN when [cyc] is, and the loop then does not run. *)
Definition tick (n : @Bus.nes Pad Apu) : @Bus.nes Pad Apu :=
  let (cyc, n1) := CPU6502.step n in
  let n2 := match to_number (js_mul cyc #3) with
            | Some k => PPU.for_ k (fun _ => ppuDot) n1
            | None => n1
            end in
  Bus.set_apu (apu_step cyc (Bus.apu n2)) n2.

(** [while (nes.ppu.frame === startFrame && iter < 200000)], with the
    iterations left as the recursion argument. *)
Fixpoint whileFrame (left : nat) (startFrame : Z) (n : @Bus.nes Pad Apu)
  : @Bus.nes Pad Apu :=
  match left with
  | O => n
  | S k =>
      if PPU.frame (Bus.ppu n) =? startFrame
      then whileFrame k startFrame (tick n)
      else n
  end.

(** [runLoop], up to the call of [requestAnimationFrame]. *)
Definition runLoop (n : @Bus.nes Pad Apu) : @Bus.nes Pad Apu :=
  whileFrame (Z.to_nat 200000) (PPU.frame (Bus.ppu n)) n.

End NES.
End NES.

(* ===================================================================== *)
(** ** Notions used by the statements, and test machines *)
(* ===================================================================== *)

(** A buffer of bytes, as a Uint8Array holds them. *)
Definition bytes (l : list Z) : Prop := Forall (fun b => 0 <= b < 256) l.

(** The state of the copy after [k] iterations. *)
Definition dma_progress (buf : list Z) (s : PPU.state) (k : Z) (s' : PPU.state)
  : Prop :=
  PPU.oamaddr s' = PPU.oamaddr s
  /\ length (PPU.oam s') = length (PPU.oam s)
  /\ forall i, 0 <= i < k ->
       ta_get (PPU.oam s') ((PPU.oamaddr s + i) .& 0xFF)
       = #(to_uint8 (ta_get buf i)).

(** A cartridge like the built-in test ROM of nes.js: mapper 0, one 16 KiB
    PRG bank that starts with [code], one 8 KiB CHR bank. *)
Definition test_cart (code : list Z) : Cart.Cartridge :=
  Cart.mkCartridge (code ++ replicate (Z.to_nat 0x4000 - length code) 0)
    (replicate (Z.to_nat 0x2000) 0) false (replicate (Z.to_nat 0x2000) 0)
    Cart.horizontal Cart.M0.

(** The machine [createNESFromROMBytes] builds around it, with [image] as
    the first bytes of the internal RAM. *)
Definition test_nes (code image : list Z) : @Bus.nes unit unit :=
  Bus.mkNES CPUState.new (PPU.new Cart.horizontal) tt tt tt (test_cart code)
    (image ++ replicate (Z.to_nat 0x800 - length image) 0).

(** The slot of palette RAM behind an address of $3F00-$3FFF, in the
    spec's words: 32 bytes mirrored, with $3F10/$3F14/$3F18/$3F1C aliasing
    $3F00/$3F04/$3F08/$3F0C. *)
Definition palette_slot (addr : Z) : Z :=
  let i := (addr - 0x3F00) mod 32 in
  if (i =? 0x10) || (i =? 0x14) || (i =? 0x18) || (i =? 0x1C)
  then i - 0x10 else i.

(** What a part of [step] leaves alone when it neither moves the beam nor
    touches the VBlank flag, the NMI line or the two control registers. *)
Definition keeps_timing (s s' : PPU.state) : Prop :=
  PPU.scanline s' = PPU.scanline s
  /\ PPU.cycle s' = PPU.cycle s
  /\ PPU.ctrl s' = PPU.ctrl s
  /\ PPU.mask s' = PPU.mask s
  /\ PPU.nmi s' = PPU.nmi s
  /\ Z.testbit (PPU.status s') 7 = Z.testbit (PPU.status s) 7.

(** Concrete PPU states at the three kinds of dot the VBlank logic tells
    apart. *)
Definition ppu_at (line dot : Z) (s : PPU.state) : PPU.state :=
  PPU.set_cycle dot (PPU.set_scanline line s).

Definition ppu_vblank_dot : PPU.state :=
  PPU.set_ctrl 0x80 (ppu_at 241 1 (PPU.new Cart.horizontal)).
Definition ppu_prerender_dot : PPU.state :=
  PPU.set_status 0xE0 (ppu_at 261 1 (PPU.new Cart.horizontal)).
Definition ppu_visible_dot : PPU.state :=
  PPU.set_mask 0x18 (ppu_at 10 5 (PPU.new Cart.horizontal)).

(** The pixels of the sprite-0 test, in the spec's words. The background
    pixel is bit [15 - x] of the two pattern shift registers, and 0 while
    the background is disabled. *)
Definition bg_enabled (s : PPU.state) : bool := Z.testbit (PPU.mask s) 3.
Definition sprites_enabled (s : PPU.state) : bool := Z.testbit (PPU.mask s) 4.

Definition bg_pixel (s : PPU.state) : Z :=
  if bg_enabled s then
    2 * Z.b2z (Z.testbit (PPU.bgShiftHi s) (15 - PPU.x s))
    + Z.b2z (Z.testbit (PPU.bgShiftLo s) (15 - PPU.x s))
  else 0.

(** The pixel a sprite slot shows: the top bits of its two shift registers. *)
Definition slot_pixel (s : PPU.state) (i : Z) : Z :=
  2 * Z.b2z (Z.testbit (to_int32 (ta_get (PPU.spriteShiftsHi s) i)) 7)
  + Z.b2z (Z.testbit (to_int32 (ta_get (PPU.spriteShiftsLo s) i)) 7).

(** A slot contributes when it is in use, its X counter has run down and
    its pixel is not transparent. *)
Definition slot_opaque (s : PPU.state) (i : Z) : bool :=
  negb (js_is (ta_get (PPU.spriteY s) i) 0xFF)
  && js_is (ta_get (PPU.spriteX s) i) 0
  && negb (slot_pixel s i =? 0).

(** The contributing sprite: the first such slot, in slot order. *)
Definition contributing (s : PPU.state) : option Z :=
  if sprites_enabled s then List.find (slot_opaque s) (seqZ 0 8) else None.

Definition sprite_pixel (s : PPU.state) : Z :=
  match contributing s with Some i => slot_pixel s i | None => 0 end.

Definition is_slot0 (o : option Z) : bool :=
  match o with Some i => i =? 0 | None => false end.

(** The sprite-0 hit condition as the code has it ... *)
Definition sprite0_overlap (s : PPU.state) : bool :=
  negb (bg_pixel s =? 0) && negb (sprite_pixel s =? 0)
  && is_slot0 (contributing s) && PPU.spriteZeroInLine s
  && bg_enabled s && sprites_enabled s.

(** ... and as the claim states it, with the left-8-pixel gate of mask
    bits 1 and 2. *)
Definition left8_shown (s : PPU.state) (xpos : Z) : bool :=
  (8 <=? xpos) || (Z.testbit (PPU.mask s) 1 && Z.testbit (PPU.mask s) 2).

Definition sprite0_hit_claimed (s : PPU.state) (xpos : Z) : bool :=
  sprite0_overlap s && left8_shown s xpos.

(** Sprite 0 over an opaque background pixel at the left edge, with the
    leftmost eight pixels masked off ([mask] = $18). *)
Definition ppu_left_edge : PPU.state :=
  PPU.set_mask 0x18
    (PPU.set_bgShiftLo 0x8000
       (PPU.set_spriteShiftsLo [0x80; 0; 0; 0; 0; 0; 0; 0]
          (PPU.set_spriteY [19; 0xFF; 0xFF; 0xFF; 0xFF; 0xFF; 0xFF; 0xFF]
             (PPU.set_spriteX [0; 0xFF; 0xFF; 0xFF; 0xFF; 0xFF; 0xFF; 0xFF]
                (PPU.set_spriteZeroInLine true
                   (ppu_at 20 1 (PPU.new Cart.horizontal))))))).

(** The values a run of [cpuRead]s returns, in order, and the machine they
    leave behind (a read of a PPU register or controller changes it). *)
Fixpoint reads {Pad Apu : Type} `{Peripherals Pad Apu}
    (addrs : list Z) (n : @Bus.nes Pad Apu) : list jsval * @Bus.nes Pad Apu :=
  match addrs with
  | [] => ([], n)
  | a :: rest =>
      let (r, n1) := Bus.cpuRead a n in
      let (rs, n2) := reads rest n1 in
      (r :: rs, n2)
  end.

(** The addresses of a 256-byte page. *)
Definition page_addrs (page : Z) : list Z := map (fun i => page + i) (seqZ 0 256).

(** What a bus write charges the CPU: [step] burns one cycle per unit of
    [stall], and nothing else of the CPU could carry a DMA cost. *)
Definition dma_stall_charged {Pad Apu : Type} `{Peripherals Pad Apu}
    (page : Z) (n : @Bus.nes Pad Apu) : Z :=
  CPUState.stall (Bus.cpu (Bus.cpuWrite 0x4014 page n))
  - CPUState.stall (Bus.cpu n).

(** The machine of the JMP-indirect scenario: [6C FF 10] at $8000, and
    $34, $12, $56 at $10FF, $1000, $1100, which the RAM mirrors map to
    $00FF, $0000, $0100. *)
Definition jmp_image : list Z :=
  [0x12] ++ replicate 254 0 ++ [0x34; 0x56].

Definition jmp_nes : @Bus.nes unit unit :=
  Bus.set_cpu (CPUState.set_pc #0x8000 CPUState.new)
    (test_nes [0x6C; 0xFF; 0x10] jmp_image).

(** A machine about to fetch $02, a byte without an entry in the table. *)
Definition unknown_op_nes : @Bus.nes unit unit := test_nes [] [0x02].

(** What a bus read leaves alone: the CPU, the RAM, the cartridge and the
    sprite table. *)
Definition read_frame {Pad Apu : Type} (n n' : @Bus.nes Pad Apu) : Prop :=
  Bus.cpu n' = Bus.cpu n
  /\ Bus.ram n' = Bus.ram n
  /\ Bus.cart n' = Bus.cart n
  /\ PPU.oam (Bus.ppu n') = PPU.oam (Bus.ppu n)
  /\ PPU.oamaddr (Bus.ppu n') = PPU.oamaddr (Bus.ppu n).

(** The read loop of the DMA after [k] iterations: [buf] holds the bytes
    of the first [k] reads. *)
Definition fetch_progress {Pad Apu : Type} `{Peripherals Pad Apu}
    (page : Z) (n : @Bus.nes Pad Apu) (k : Z)
    (bn : list Z * @Bus.nes Pad Apu) : Prop :=
  length (fst bn) = 256%nat
  /\ snd bn = snd (reads (map (fun i => page + i) (seqZ 0 k)) n)
  /\ forall i, 0 <= i < k ->
       ta_get (fst bn) i
       = #(to_uint8 (nth (Z.to_nat i)
                       (fst (reads (map (fun i => page + i) (seqZ 0 k)) n))
                       JUndef)).

(** [bytes], decided. *)
Definition bytesb (l : list Z) : bool :=
  forallb (fun b => (0 <=? b) && (b <? 256)) l.

(** A machine with three bytes at $0200, for a DMA from page 2. *)
Definition dma_nes : @Bus.nes unit unit :=
  test_nes [] (replicate (Z.to_nat 0x200) 0 ++ [7; 8; 9]).

(** The fetch of [step], [this.read(this.pc++)]: the byte read and the
    machine after it. *)
Definition opcode_fetch {Pad Apu : Type} `{Peripherals Pad Apu}
    (n : @Bus.nes Pad Apu) : jsval * @Bus.nes Pad Apu :=
  Bus.cpuRead (to_int32 (CPUState.pc (Bus.cpu n)) .& 0xFFFF)
    (Bus.set_cpu
       (CPUState.set_pc (js_add (CPUState.pc (Bus.cpu n)) #1) (Bus.cpu n)) n).

(** Addresses whose read is a plain memory access, without an effect on
    the machine: all of the address space but the PPU registers
    ($2000-$3FFF) and the ports $4015, $4016 and $4017. *)
Definition memory_addr (addr : Z) : Prop :=
  0 <= addr <= 0xFFFF
  /\ ~ (0x2000 <= addr < 0x4000)
  /\ addr <> 0x4015 /\ addr <> 0x4016 /\ addr <> 0x4017.

(** The address [ind] takes the high byte of the target from. *)
Definition ind_high_addr (ptr : Z) : Z :=
  (ptr .& 0xFF00) .| ((ptr + 1) .& 0xFF).


(** The address idiom of the PPU: the high byte, then the low byte, to
    $2006. *)
Definition point_to (hi lo : Z) (cs : Cart.Cartridge * PPU.state)
  : Cart.Cartridge * PPU.state :=
  PPU.write 0x2006 lo (PPU.write 0x2006 hi cs).

(** The OAM idiom: the index to $2003, then the byte to $2004. *)
Definition oam_store (idx val : Z) (cs : Cart.Cartridge * PPU.state)
  : Cart.Cartridge * PPU.state :=
  PPU.write 0x2004 val (PPU.write 0x2003 idx cs).

(** What rendering leaves alone: the CPU-visible latches and registers
    other than [status], the three memories, and the beam. *)
Definition keeps_memory (s s' : PPU.state) : Prop :=
  PPU.t s' = PPU.t s /\ PPU.x s' = PPU.x s /\ PPU.w s' = PPU.w s
  /\ PPU.ctrl s' = PPU.ctrl s /\ PPU.mask s' = PPU.mask s
  /\ PPU.oam s' = PPU.oam s /\ PPU.oamaddr s' = PPU.oamaddr s
  /\ PPU.vram s' = PPU.vram s /\ PPU.palette s' = PPU.palette s
  /\ PPU.mirror s' = PPU.mirror s /\ PPU.buffered s' = PPU.buffered s
  /\ PPU.cycle s' = PPU.cycle s /\ PPU.scanline s' = PPU.scanline s
  /\ PPU.frame s' = PPU.frame s.

(** The position of the beam, counted in dots from the top left: a frame
    has 262 lines of 341 dots. *)
Definition dot_index (s : PPU.state) : Z := 341 * PPU.scanline s + PPU.cycle s.

Definition dots_per_frame : Z := 341 * 262.


(** What no operation of the CPU changes: where the beam is, and the PRG
    image, the mapper's registers and the mirroring of the cartridge. *)
Definition cpu_frame {Pad Apu : Type} (n n' : @Bus.nes Pad Apu) : Prop :=
  PPU.cycle (Bus.ppu n') = PPU.cycle (Bus.ppu n)
  /\ PPU.scanline (Bus.ppu n') = PPU.scanline (Bus.ppu n)
  /\ PPU.frame (Bus.ppu n') = PPU.frame (Bus.ppu n)
  /\ Cart.prg (Bus.cart n') = Cart.prg (Bus.cart n)
  /\ Cart.mapperInstance (Bus.cart n') = Cart.mapperInstance (Bus.cart n)
  /\ Cart.mirror (Bus.cart n') = Cart.mirror (Bus.cart n).

(** A CPU method that keeps them, whatever machine it runs on. *)
Definition preserves {Pad Apu A : Type}
    (m : @Bus.nes Pad Apu -> A * @Bus.nes Pad Apu) : Prop :=
  forall n, cpu_frame n (snd (m n)).

(** The machine [createNESFromROMBytes] builds from the built-in test ROM
    of nes.js, as the Run button finds it: nothing has called [reset], so
    the CPU is as its constructor left it. *)
Definition builtin_code : list Z :=
  [0xA9; 0x80; 0x8D; 0x00; 0x20;
   0xA9; 0x08; 0x8D; 0x01; 0x20;
   0xA9; 0x3F; 0x8D; 0x00; 0x20;
   0xA9; 0x00; 0x8D; 0x07; 0x20;
   0x4C; 0x00; 0x80].

Definition builtin_nes : @Bus.nes unit unit := test_nes builtin_code [].

(** A byte read as a two's-complement number. *)
Definition signed8 (b : Z) : Z := if b <? 128 then b else b - 256.

(** Signed overflow of an addition with carry: the sum of the operands as
    signed bytes does not fit a signed byte. *)
Definition adc_overflows (a v c : Z) : bool :=
  let sum := signed8 a + signed8 v + c in (sum <? -128) || (127 <? sum).

(** The reset vector as [reset] finds it: the bytes at offsets $7FFC and
    $7FFD of the PRG image, a byte beyond the end of the image counting
    as 0. *)
Definition reset_vector (image : list Z) : Z :=
  nth (Z.to_nat 0x7FFC) image 0 + 256 * nth (Z.to_nat 0x7FFD) image 0.

(** A 16-byte iNES header, as [buildBuiltInTestROM] lays it out: the
    magic, the numbers of PRG and CHR banks, and the two flag bytes. *)
Definition ines_header (k j flag6 flag7 : Z) : list Z :=
  [0x4E; 0x45; 0x53; 0x1A; k; j; flag6; flag7; 0; 0; 0; 0; 0; 0; 0; 0].

(** The mapper number a header names: the high nibble of flag byte 7 over
    the high nibble of flag byte 6. *)
Definition ines_mapper (flag6 flag7 : Z) : Z := 16 * (flag7 / 16) + flag6 / 16.

(** The value the five writes of an MMC1 register load shift in, first
    write in bit 0. *)
Definition mmc1_data (v0 v1 v2 v3 v4 : Z) : Z :=
  v0 mod 2 + 2 * (v1 mod 2) + 4 * (v2 mod 2) + 8 * (v3 mod 2)
  + 16 * (v4 mod 2).

(** The layout of the scroll registers [v] and [t]: fine Y in bits 12-14,
    the nametable in bits 10-11, coarse Y in bits 5-9 and coarse X in
    bits 0-4. *)
Definition vram_addr (fineY nt coarseY coarseX : Z) : Z :=
  4096 * fineY + 1024 * nt + 32 * coarseY + coarseX.

(** Sprite [i] of OAM covers the scanline: the line is one of the [h]
    lines that start at the sprite's Y, with [h] 16 when bit 5 of [ctrl]
    is set and 8 otherwise. *)
Definition sprite_in_range (s : PPU.state) (i : Z) : bool :=
  match ta_get (PPU.oam s) (i * 4) with
  | JNum y =>
      (y <=? PPU.scanline s)
      && (PPU.scanline s <? y + (if Z.testbit (PPU.ctrl s) 5 then 16 else 8))
  | _ => false
  end.

(** The sprites among the first [k] of OAM that cover the scanline, in
    OAM order. *)
Definition sprites_on_line (s : PPU.state) (k : Z) : list Z :=
  List.filter (sprite_in_range s) (seqZ 0 k).

(** The OAM scan of [evaluateSprites] after [k] sprites: [broken] tells
    whether the loop has been left. *)
Definition scan_progress (s : PPU.state) (k : Z) (broken : bool)
    (st : PPU.state) : Prop :=
  let found := sprites_on_line s k in
  PPU.oam st = PPU.oam s
  /\ PPU.ctrl st = PPU.ctrl s
  /\ PPU.scanline st = PPU.scanline s
  /\ length (PPU.secOAM st) = 32%nat
  /\ PPU.spriteZeroInLine st = ((0 <? k) && sprite_in_range s 0)
  /\ (if broken
      then PPU.spriteCount st = 9 /\ 9 <= len found
           /\ PPU.status st = PPU.status s .| 0x20
      else PPU.spriteCount st = len found /\ len found <= 8
           /\ PPU.status st = PPU.status s)
  /\ (forall m j, 0 <= m < Z.min 8 (len found) -> 0 <= j < 4 ->
        ta_get (PPU.secOAM st) (m * 4 + j)
        = #(to_uint8 (ta_get (PPU.oam s) (nth (Z.to_nat m) found 0 * 4 + j))))
  /\ (forall idx, Z.min 8 (len found) * 4 <= idx < 32 ->
        ta_get (PPU.secOAM st) idx = #0xFF).
(* ===================================================================== *)
(** ** Properties *)
(* ===================================================================== *)

(** *** JavaScript operators on small numbers *)

Lemma wrap32_small z : - 2 ^ 31 <= z < 2 ^ 31 -> wrap32 z = z.
Proof. intros Hz. unfold wrap32. rewrite Z.mod_small; lia. Qed.

Lemma to_uint8_byte b : 0 <= b < 256 -> to_uint8 #b = b.
Proof.
  intros Hb. unfold to_uint8, to_int32; simpl.
  rewrite wrap32_small by lia. apply Z.mod_small; lia.
Qed.

Lemma to_uint8_range j : 0 <= to_uint8 j < 256.
Proof. unfold to_uint8. apply Z.mod_pos_bound; lia. Qed.

Lemma land_mask_range a k : 0 <= k -> 0 <= a .& (2 ^ k - 1) < 2 ^ k.
Proof.
  intros Hk. replace (2 ^ k - 1) with (Z.ones k) by (rewrite Z.ones_equiv; lia).
  rewrite Z.land_ones by lia.
  apply Z.mod_pos_bound. apply Z.pow_pos_nonneg; lia.
Qed.

Lemma land_0xFF a : a .& 0xFF = a mod 256.
Proof. change 0xFF with (Z.ones 8). rewrite Z.land_ones by lia. reflexivity. Qed.

Lemma land_0x7FF a : a .& 0x7FF = a mod 2048.
Proof. change 0x7FF with (Z.ones 11). rewrite Z.land_ones by lia. reflexivity. Qed.

Lemma land_0xFFFF a : a .& 0xFFFF = a mod 65536.
Proof. change 0xFFFF with (Z.ones 16). rewrite Z.land_ones by lia. reflexivity. Qed.

(** A JavaScript truth test of [a & 2^k] is a test of bit [k]. *)
Lemma land_pow2_testbit a k :
  0 <= k -> negb (a .& 2 ^ k =? 0) = Z.testbit a k.
Proof.
  intros Hk. destruct (Z.testbit a k) eqn:Hb.
  - apply negb_true_iff, Z.eqb_neq. intros H0.
    assert (Z.testbit (a .& 2 ^ k) k = true) as Ht.
    { rewrite Z.land_spec, Hb, Z.pow2_bits_true by lia. reflexivity. }
    rewrite H0, Z.bits_0 in Ht. discriminate.
  - apply negb_false_iff, Z.eqb_eq. apply Z.bits_inj'. intros i Hi.
    rewrite Z.land_spec, Z.bits_0.
    destruct (Z.eq_dec i k) as [->|Hne].
    + rewrite Hb. reflexivity.
    + rewrite Z.pow2_bits_false by lia. apply andb_false_r.
Qed.

(** *** Typed arrays *)

Lemma ta_get_lookup (arr : list Z) i b :
  0 <= i -> arr !! Z.to_nat i = Some b -> ta_get arr i = #b.
Proof.
  intros Hi Hb. unfold ta_get. destruct (Z.ltb_spec i 0); [lia|].
  rewrite Hb. reflexivity.
Qed.

Lemma ta_set8_length arr i j : length (ta_set8 arr i j) = length arr.
Proof. unfold ta_set8. destruct (i <? 0); [reflexivity|]. apply length_insert. Qed.

Lemma ta_get_set8_eq arr i j :
  0 <= i < len arr -> ta_get (ta_set8 arr i j) i = #(to_uint8 j).
Proof.
  unfold len. intros Hi. unfold ta_get, ta_set8.
  destruct (Z.ltb_spec i 0); [lia|].
  rewrite list_lookup_insert_eq by lia. reflexivity.
Qed.

Lemma ta_get_set8_ne arr i i' j :
  i <> i' -> 0 <= i' -> ta_get (ta_set8 arr i j) i' = ta_get arr i'.
Proof.
  intros Hne Hi'. unfold ta_get, ta_set8.
  destruct (Z.ltb_spec i' 0); [lia|].
  destruct (Z.ltb_spec i 0); [reflexivity|].
  rewrite list_lookup_insert_ne by lia. reflexivity.
Qed.

(** *** Loops *)

Lemma for_succ {St : Type} (k : nat) (body : Z -> St -> St) (s : St) :
  PPU.for_ (Z.of_nat (S k)) body s
  = body (Z.of_nat k) (PPU.for_ (Z.of_nat k) body s).
Proof. unfold PPU.for_. rewrite seqZ_S, foldl_snoc. reflexivity. Qed.

(** Loop invariants: a property kept by every iteration holds at the end. *)
Lemma for_invariant {St : Type} (P : Z -> St -> Prop) (n : nat)
    (body : Z -> St -> St) (s : St) :
  P 0 s ->
  (forall i s', 0 <= i < Z.of_nat n -> P i s' -> P (i + 1) (body i s')) ->
  P (Z.of_nat n) (PPU.for_ (Z.of_nat n) body s).
Proof.
  intros H0 Hstep. induction n as [|k IH].
  - exact H0.
  - rewrite for_succ. replace (Z.of_nat (S k)) with (Z.of_nat k + 1) by lia.
    apply Hstep; [lia|]. apply IH. intros i s' Hi. apply Hstep. lia.
Qed.

Lemma for_break_invariant {St : Type} (P : St -> Prop) (n : Z)
    (body : Z -> St -> bool * St) (s : St) :
  P s ->
  (forall i s', P s' -> P (snd (body i s'))) ->
  P (PPU.for_break n body s).
Proof.
  intros H0 Hstep. unfold PPU.for_break.
  assert (forall l acc, P (snd acc) ->
            P (snd (foldl (fun (acc : bool * St) i =>
                             if fst acc then acc else body i (snd acc)) acc l)))
    as Hfold.
  { induction l as [|i l IH]; intros acc Hacc; simpl; [exact Hacc|].
    apply IH. destruct (fst acc); [exact Hacc|]. apply Hstep, Hacc. }
  apply Hfold. exact H0.
Qed.

(** *** Mapper 1 *)

(** C9: whatever the shift register of an MMC1 holds and whatever the
    address, a write whose value has bit 7 set leaves the shift register at
    0x10 and the control register ORed with 0x0C; the bank registers and
    the cartridge's mirroring are untouched. *)
Theorem C9_mmc1_reset (m : Cart.Mapper1) (mir : Cart.Mirror) (addr val : Z) :
  Z.testbit val 7 = true ->
  Cart.Mapper1_prgWrite addr val (m, mir)
  = (Cart.mkMapper1 0x10 (Cart.ctrl m .| 0x0C) (Cart.prgBank m)
       (Cart.chrBank0 m) (Cart.chrBank1 m), mir).
Proof.
  intros Hbit. unfold Cart.Mapper1_prgWrite, Cart.writeReg.
  change 0x80 with (2 ^ 7). rewrite land_pow2_testbit, Hbit by lia.
  reflexivity.
Qed.

Lemma C9_mmc1_reset_witness :
  Z.testbit 0x80 7 = true
  /\ Cart.Mapper1_prgWrite 0x8000 0x80 (Cart.mkMapper1 0x05 0x10 3 1 2, Cart.vertical)
     = (Cart.mkMapper1 0x10 0x1C 3 1 2, Cart.vertical).
Proof.
  split; [reflexivity|].
  apply (C9_mmc1_reset (Cart.mkMapper1 0x05 0x10 3 1 2) Cart.vertical 0x8000 0x80).
  reflexivity.
Defined.

(** *** OAM DMA *)

(** The target indices of the 256 stores of [doDMA] are pairwise distinct. *)
Lemma dma_index_inj base i j :
  0 <= i < 256 -> 0 <= j < 256 ->
  (base + i) .& 0xFF = (base + j) .& 0xFF -> i = j.
Proof.
  intros Hi Hj. rewrite !land_0xFF. intros Heq.
  assert ((i - j) mod 256 = 0) as Hd.
  { replace (i - j) with ((base + i) - (base + j)) by lia.
    rewrite Zminus_mod, Heq, Z.sub_diag. reflexivity. }
  apply Z.mod_divide in Hd; [|lia]. destruct Hd as [q Hq]. lia.
Qed.

Lemma doDMA_progress (buf : list Z) (s : PPU.state) :
  length (PPU.oam s) = 256%nat ->
  dma_progress buf s 256 (PPU.doDMA buf s).
Proof.
  intros Hlen. unfold PPU.doDMA.
  apply (for_invariant (dma_progress buf s) 256).
  - repeat split. intros i Hi. lia.
  - intros i s' Hi (Haddr & Hl & Hdone). repeat split; simpl.
    + exact Haddr.
    + rewrite ta_set8_length. exact Hl.
    + intros j Hj. rewrite Haddr.
      pose proof (land_mask_range (PPU.oamaddr s + i) 8 ltac:(lia)) as Hri.
      pose proof (land_mask_range (PPU.oamaddr s + j) 8 ltac:(lia)) as Hrj.
      change (2 ^ 8 - 1) with 0xFF in Hri, Hrj.
      destruct (Z.eq_dec j i) as [->|Hne].
      * apply ta_get_set8_eq. unfold len. lia.
      * rewrite ta_get_set8_ne.
        -- apply Hdone. lia.
        -- intros Heq. apply Hne. symmetry.
           apply (dma_index_inj (PPU.oamaddr s)); [lia|lia|exact Heq].
        -- lia.
Qed.

Lemma ta_get_bytes (buf : list Z) i :
  bytes buf -> 0 <= i < len buf -> #(to_uint8 (ta_get buf i)) = ta_get buf i.
Proof.
  unfold len. intros Hb Hi.
  destruct (lookup_lt_is_Some_2 buf (Z.to_nat i) ltac:(lia)) as [b Hb'].
  rewrite (ta_get_lookup buf i b) by (lia || exact Hb').
  rewrite to_uint8_byte; [reflexivity|].
  unfold bytes in Hb. rewrite Forall_lookup in Hb. exact (Hb _ _ Hb').
Qed.

(** C10: for every [oamaddr] and every 256-byte buffer, [doDMA] leaves
    [buf[i]] in [oam[(oamaddr + i) mod 256]] for i = 0..255; every index it
    touches lies in [0, 255], OAM keeps its 256 bytes, and [oamaddr] is
    unchanged. *)
Theorem C10_doDMA_wraps (buf : list Z) (s : PPU.state) :
  length (PPU.oam s) = 256%nat ->
  length buf = 256%nat ->
  bytes buf ->
  (forall i, 0 <= i < 256 ->
     (PPU.oamaddr s + i) .& 0xFF = (PPU.oamaddr s + i) mod 256
     /\ 0 <= (PPU.oamaddr s + i) mod 256 <= 255
     /\ ta_get (PPU.oam (PPU.doDMA buf s)) ((PPU.oamaddr s + i) mod 256)
        = ta_get buf i)
  /\ length (PPU.oam (PPU.doDMA buf s)) = 256%nat
  /\ PPU.oamaddr (PPU.doDMA buf s) = PPU.oamaddr s.
Proof.
  intros Hoam Hbuf Hbytes.
  destruct (doDMA_progress buf s Hoam) as (Haddr & Hlen & Hcopy).
  split; [|split].
  - intros i Hi.
    pose proof (Z.mod_pos_bound (PPU.oamaddr s + i) 256 ltac:(lia)) as Hr.
    split; [apply land_0xFF|]. split; [lia|].
    rewrite <- land_0xFF, Hcopy by lia.
    apply ta_get_bytes; [exact Hbytes|unfold len; lia].
  - rewrite Hlen. exact Hoam.
  - exact Haddr.
Qed.

Lemma C10_doDMA_wraps_witness :
  ta_get (PPU.oam (PPU.doDMA (seqZ 0 256)
                     (PPU.set_oamaddr 0xF0 (PPU.new Cart.horizontal))))
         ((0xF0 + 0x20) mod 256)
  = ta_get (seqZ 0 256) 0x20.
Proof.
  assert (bytes (seqZ 0 256)) as Hb by (apply Forall_seqZ; lia).
  destruct (C10_doDMA_wraps (seqZ 0 256)
              (PPU.set_oamaddr 0xF0 (PPU.new Cart.horizontal))
              eq_refl eq_refl Hb) as (Hcopy & _ & _).
  apply (Hcopy 0x20). lia.
Defined.

(** *** Palette RAM *)

(** The slot the code computes is the slot the spec names. *)
Lemma paletteIndex_slot addr :
  0x3F00 <= addr <= 0x3FFF -> PPU.paletteIndex addr = palette_slot addr.
Proof.
  intros Ha. unfold PPU.paletteIndex, palette_slot.
  assert (addr .& 0x1F = (addr - 0x3F00) mod 32) as ->.
  { change 0x1F with (Z.ones 5). rewrite Z.land_ones by lia.
    change (2 ^ 5) with 32. replace addr with ((addr - 0x3F00) + 504 * 32) at 1 by lia.
    apply Z.mod_add. lia. }
  pose proof (Z.mod_pos_bound (addr - 0x3F00) 32 ltac:(lia)) as Hr.
  set (i := (addr - 0x3F00) mod 32) in *.
  assert (i = 0 \/ i = 1 \/ i = 2 \/ i = 3 \/ i = 4 \/ i = 5 \/ i = 6 \/ i = 7
          \/ i = 8 \/ i = 9 \/ i = 10 \/ i = 11 \/ i = 12 \/ i = 13 \/ i = 14
          \/ i = 15 \/ i = 16 \/ i = 17 \/ i = 18 \/ i = 19 \/ i = 20 \/ i = 21
          \/ i = 22 \/ i = 23 \/ i = 24 \/ i = 25 \/ i = 26 \/ i = 27 \/ i = 28
          \/ i = 29 \/ i = 30 \/ i = 31) as Hcases by lia.
  clearbody i. repeat (destruct Hcases as [-> | Hcases]; [reflexivity|]).
  subst i. reflexivity.
Qed.

Lemma palette_slot_range addr : 0 <= palette_slot addr < 32.
Proof.
  unfold palette_slot.
  pose proof (Z.mod_pos_bound (addr - 0x3F00) 32 ltac:(lia)) as Hr.
  destruct ((_ =? 0x10) || _ || _ || _) eqn:Hc; [|lia].
  repeat (apply orb_true_iff in Hc; destruct Hc as [Hc|Hc]);
    apply Z.eqb_eq in Hc; lia.
Qed.

Lemma ppuRead_palette c s addr :
  0x3F00 <= addr <= 0x3FFF ->
  PPU.ppuRead c s addr
  = #(to_int32 (ta_get (PPU.palette s) (palette_slot addr)) .& 0x3F).
Proof.
  intros Ha. unfold PPU.ppuRead.
  assert (addr .& 0x3FFF = addr) as ->.
  { change 0x3FFF with (Z.ones 14). rewrite Z.land_ones by lia.
    apply Z.mod_small. lia. }
  destruct (Z.ltb_spec addr 0x2000); [lia|].
  destruct (Z.ltb_spec addr 0x3F00); [lia|].
  rewrite paletteIndex_slot by lia. reflexivity.
Qed.

Lemma ppuWrite_palette c s addr val :
  0x3F00 <= addr <= 0x3FFF ->
  PPU.ppuWrite addr val (c, s)
  = (c, PPU.set_palette
          (ta_set8 (PPU.palette s) (palette_slot addr) #((val .& 0xFF) .& 0x3F)) s).
Proof.
  intros Ha. unfold PPU.ppuWrite.
  assert (addr .& 0x3FFF = addr) as ->.
  { change 0x3FFF with (Z.ones 14). rewrite Z.land_ones by lia.
    apply Z.mod_small. lia. }
  destruct (Z.ltb_spec addr 0x2000); [lia|].
  destruct (Z.ltb_spec addr 0x3F00); [lia|].
  rewrite paletteIndex_slot by lia. reflexivity.
Qed.

Lemma land_0x3F a : a .& 0x3F = a mod 64.
Proof. change 0x3F with (Z.ones 6). rewrite Z.land_ones by lia. reflexivity. Qed.

(** C5: palette RAM is 32 bytes mirrored every 32 bytes, and
    $3F10/$3F14/$3F18/$3F1C alias $3F00/$3F04/$3F08/$3F0C: after a write of
    [val] at [a], a read at any [a'] on the same slot returns the low six
    bits of [val], and a read at any [a'] on another slot returns what it
    returned before the write: the slots are distinct bytes. In particular
    a write of $0A at $3F10 is read back at $3F00, and a write of $17 at
    $3F04 is read back at $3F14. *)
Theorem C5_palette_mirror (c : Cart.Cartridge) (s : PPU.state) :
  length (PPU.palette s) = 32%nat ->
  (forall a a' val,
     0x3F00 <= a <= 0x3FFF -> 0x3F00 <= a' <= 0x3FFF ->
     palette_slot a = palette_slot a' ->
     let (c', s') := PPU.ppuWrite a val (c, s) in
     PPU.ppuRead c' s' a' = #(val mod 64))
  /\ (forall a a' val,
        0x3F00 <= a <= 0x3FFF -> 0x3F00 <= a' <= 0x3FFF ->
        palette_slot a <> palette_slot a' ->
        let (c', s') := PPU.ppuWrite a val (c, s) in
        PPU.ppuRead c' s' a' = PPU.ppuRead c s a')
  /\ (let (c', s') := PPU.ppuWrite 0x3F10 0x0A (c, s) in
      PPU.ppuRead c' s' 0x3F00 = #0x0A)
  /\ (let (c', s') := PPU.ppuWrite 0x3F04 0x17 (c, s) in
      PPU.ppuRead c' s' 0x3F14 = #0x17).
Proof.
  intros Hlen.
  assert (forall a a' val,
     0x3F00 <= a <= 0x3FFF -> 0x3F00 <= a' <= 0x3FFF ->
     palette_slot a = palette_slot a' ->
     let (c', s') := PPU.ppuWrite a val (c, s) in
     PPU.ppuRead c' s' a' = #(val mod 64)) as Hgen.
  { intros a a' val Ha Ha' Hslot.
    rewrite ppuWrite_palette by lia.
    rewrite ppuRead_palette by lia. cbn [PPU.palette PPU.set_palette].
    rewrite <- Hslot.
    rewrite ta_get_set8_eq
      by (pose proof (palette_slot_range a); unfold len; lia).
    f_equal.
    assert (0 <= (val .& 0xFF) .& 0x3F < 64) as Hr
      by (pose proof (land_mask_range (val .& 0xFF) 6 ltac:(lia)) as Hr;
          exact Hr).
    rewrite to_uint8_byte by lia.
    unfold to_int32; simpl. rewrite wrap32_small by lia.
    rewrite !land_0x3F, land_0xFF.
    rewrite Z.mod_mod by lia.
    apply Z.mod_mod_divide. exists 4. lia. }
  split; [exact Hgen|]. split; [|split].
  - intros a a' val Ha Ha' Hslot.
    rewrite ppuWrite_palette by lia.
    rewrite !ppuRead_palette by lia. cbn [PPU.palette PPU.set_palette].
    rewrite ta_get_set8_ne
      by (pose proof (palette_slot_range a'); lia).
    reflexivity.
  - exact (Hgen 0x3F10 0x3F00 0x0A ltac:(lia) ltac:(lia) eq_refl).
  - exact (Hgen 0x3F04 0x3F14 0x17 ltac:(lia) ltac:(lia) eq_refl).
Qed.

Lemma C5_palette_mirror_witness :
  (let (c', s') :=
     PPU.ppuWrite 0x3F10 0x0A (test_cart [], PPU.new Cart.horizontal) in
   PPU.ppuRead c' s' 0x3F00 = #0x0A)
  /\ (let (c', s') :=
        PPU.ppuWrite 0x3F04 0x17 (test_cart [], PPU.new Cart.horizontal) in
      PPU.ppuRead c' s' 0x3F14 = #0x17).
Proof.
  exact (proj2 (proj2 (C5_palette_mirror (test_cart [])
                         (PPU.new Cart.horizontal) eq_refl))).
Defined.

(** *** Internal RAM *)

Section BusProperties.
Context {Pad Apu : Type} `{Peripherals Pad Apu}.
Abbreviation nes := (@Bus.nes Pad Apu).

Lemma cpuRead_ram (n : nes) addr :
  0 <= addr < 0x2000 ->
  Bus.cpuRead addr n = (ta_get (Bus.ram n) (addr mod 2048), n).
Proof.
  intros Ha. unfold Bus.cpuRead.
  rewrite land_0xFFFF, Z.mod_small by lia.
  destruct (Z.ltb_spec addr 0x2000); [|lia].
  rewrite land_0x7FF. reflexivity.
Qed.

Lemma cpuWrite_ram (n : nes) addr val :
  0 <= addr < 0x2000 ->
  Bus.cpuWrite addr val n
  = Bus.set_ram (ta_set8 (Bus.ram n) (addr mod 2048) #(val mod 256)) n.
Proof.
  intros Ha. unfold Bus.cpuWrite.
  rewrite land_0xFFFF, Z.mod_small by lia.
  destruct (Z.ltb_spec addr 0x2000); [|lia].
  rewrite land_0x7FF, land_0xFF. reflexivity.
Qed.

(** C6: for an address [a] of $0000-$1FFF and a byte [val], after
    [cpuWrite(a, val)] a [cpuRead] at each of the four mirrors
    [a & 0x7FF], [+0x800], [+0x1000], [+0x1800] returns [val]. *)
Theorem C6_ram_mirror (n : nes) (a val : Z) :
  length (Bus.ram n) = 2048%nat ->
  0 <= a <= 0x1FFF ->
  0 <= val <= 255 ->
  forall a',
    In a' [a .& 0x7FF; (a .& 0x7FF) + 0x800; (a .& 0x7FF) + 0x1000;
           (a .& 0x7FF) + 0x1800] ->
    fst (Bus.cpuRead a' (Bus.cpuWrite a val n)) = #val.
Proof.
  intros Hlen Ha Hval a' Hin.
  pose proof (Z.mod_pos_bound a 2048 ltac:(lia)) as Hr.
  rewrite land_0x7FF in Hin.
  assert (0 <= a' < 0x2000 /\ a' mod 2048 = a mod 2048) as [Ha' Hmod].
  { simpl in Hin.
    destruct Hin as [<-|[<-|[<-|[<-|[]]]]]; (split; [lia|]).
    - apply Z.mod_mod. lia.
    - replace (a mod 2048 + 0x800) with (a mod 2048 + 1 * 2048) by lia.
      rewrite Z.mod_add, Z.mod_mod by lia. reflexivity.
    - replace (a mod 2048 + 0x1000) with (a mod 2048 + 2 * 2048) by lia.
      rewrite Z.mod_add, Z.mod_mod by lia. reflexivity.
    - replace (a mod 2048 + 0x1800) with (a mod 2048 + 3 * 2048) by lia.
      rewrite Z.mod_add, Z.mod_mod by lia. reflexivity. }
  rewrite cpuWrite_ram, cpuRead_ram by lia. cbn [fst Bus.ram Bus.set_ram].
  rewrite Hmod, ta_get_set8_eq by (unfold len; lia).
  rewrite Z.mod_small by lia. rewrite to_uint8_byte by lia. reflexivity.
Qed.

End BusProperties.

Lemma C6_ram_mirror_witness :
  fst (Bus.cpuRead (0x07FF + 0x1000) (Bus.cpuWrite 0x0FFF 0x42 (test_nes [] [])))
  = #0x42.
Proof.
  apply (C6_ram_mirror (test_nes [] []) 0x0FFF 0x42 eq_refl);
    [lia|lia|].
  right. right. left. reflexivity.
Defined.

(** *** The PPU data port *)

Lemma vramInc_bit s :
  PPU.vramInc s = if Z.testbit (PPU.ctrl s) 2 then 32 else 1.
Proof.
  unfold PPU.vramInc. change 0x04 with (2 ^ 2).
  rewrite land_pow2_testbit by lia. reflexivity.
Qed.

Lemma ppuRead_nametable c s addr :
  0x2000 <= addr < 0x3F00 ->
  PPU.ppuRead c s addr = ta_get (PPU.vram s) (PPU.ntIndex s addr .& 0x7FF).
Proof.
  intros Ha. unfold PPU.ppuRead.
  assert (addr .& 0x3FFF = addr) as ->.
  { change 0x3FFF with (Z.ones 14). rewrite Z.land_ones by lia.
    apply Z.mod_small. lia. }
  destruct (Z.ltb_spec addr 0x2000); [lia|].
  destruct (Z.ltb_spec addr 0x3F00); [|lia]. reflexivity.
Qed.

(** C4: a read of $2007 (or of one of its mirrors) with [v], masked to 14
    bits, below $3F00 returns the buffered byte and refills the buffer from
    [ppuRead(v)]; at a palette address it returns the palette byte itself
    and refills the buffer from the nametable byte at [v - $1000]. Either
    way [v] then advances by 32 if bit 2 of [ctrl] is set and by 1
    otherwise, within its 15 bits. *)
Theorem C4_ppudata_read (c : Cart.Cartridge) (s : PPU.state) (addr : Z) :
  addr .& 7 = 7 ->
  let a14 := PPU.v s .& 0x3FFF in
  let inc := if Z.testbit (PPU.ctrl s) 2 then 32 else 1 in
  let (r, s') := PPU.read c addr s in
  (if a14 <? 0x3F00
   then r = PPU.buffered s /\ PPU.buffered s' = PPU.ppuRead c s a14
   else r = #(to_int32 (ta_get (PPU.palette s) (palette_slot a14)) .& 0x3F)
        /\ PPU.buffered s' = PPU.ppuRead c s (a14 - 0x1000)
        /\ 0x2F00 <= a14 - 0x1000 <= 0x2FFF
        /\ PPU.buffered s'
           = ta_get (PPU.vram s) (PPU.ntIndex s (a14 - 0x1000) .& 0x7FF))
  /\ PPU.v s' = (PPU.v s + inc) mod 2 ^ 15.
Proof.
  intros Hreg a14 inc. unfold PPU.read. rewrite Hreg. cbn [Z.eqb Pos.eqb].
  fold a14.
  assert (0 <= a14 < 0x4000) as Hr.
  { unfold a14. exact (land_mask_range (PPU.v s) 14 ltac:(lia)). }
  assert (forall z, z .& 0x7FFF = z mod 2 ^ 15) as Hmask.
  { intros z. change 0x7FFF with (Z.ones 15). apply Z.land_ones. lia. }
  destruct (Z.leb_spec 0x3F00 a14) as [Hpal|Hlow].
  - destruct (Z.ltb_spec a14 0x3F00); [lia|].
    cbn [PPU.buffered PPU.set_buffered PPU.set_v PPU.v].
    rewrite vramInc_bit. cbn [PPU.ctrl PPU.set_buffered].
    split; [|apply Hmask].
    split; [apply ppuRead_palette; lia|].
    split; [reflexivity|]. split; [lia|].
    apply ppuRead_nametable. lia.
  - destruct (Z.ltb_spec a14 0x3F00); [|lia].
    cbn [PPU.buffered PPU.set_buffered PPU.set_v PPU.v].
    rewrite vramInc_bit. cbn [PPU.ctrl PPU.set_buffered].
    split; [|apply Hmask]. split; reflexivity.
Qed.

Lemma C4_ppudata_read_witness :
  fst (PPU.read (test_cart []) 0x2007
         (PPU.set_buffered #0x55 (PPU.set_v 0x2400 (PPU.new Cart.horizontal))))
  = #0x55.
Proof.
  pose proof (C4_ppudata_read (test_cart [])
                (PPU.set_buffered #0x55 (PPU.set_v 0x2400 (PPU.new Cart.horizontal)))
                0x2007 eq_refl) as Hread.
  cbv zeta in Hread.
  destruct (PPU.read _ _ _) as [r s']. simpl.
  change (PPU.v
            (PPU.set_buffered #0x55 (PPU.set_v 0x2400 (PPU.new Cart.horizontal)))
          .& 0x3FFF <? 0x3F00) with true in Hread.
  exact (proj1 (proj1 Hread)).
Defined.

(** *** The PPU step: what each part of the pipeline leaves alone *)

Lemma keeps_timing_refl s : keeps_timing s s.
Proof. repeat split. Qed.

Lemma keeps_timing_trans s1 s2 s3 :
  keeps_timing s1 s2 -> keeps_timing s2 s3 -> keeps_timing s1 s3.
Proof.
  intros (A1 & A2 & A3 & A4 & A5 & A6) (B1 & B2 & B3 & B4 & B5 & B6).
  repeat split; congruence.
Qed.

Lemma for_keeps n (body : Z -> PPU.state -> PPU.state) s :
  (forall i s', keeps_timing s' (body i s')) ->
  keeps_timing s (PPU.for_ n body s).
Proof.
  intros Hbody. unfold PPU.for_.
  assert (forall l acc, keeps_timing s acc ->
            keeps_timing s (foldl (fun acc i => body i acc) acc l)) as Hfold.
  { induction l as [|i l IH]; intros acc Hacc; simpl; [exact Hacc|].
    apply IH. eapply keeps_timing_trans; [exact Hacc|apply Hbody]. }
  apply Hfold, keeps_timing_refl.
Qed.

Lemma for_break_keeps n (body : Z -> PPU.state -> bool * PPU.state) s :
  (forall i s', keeps_timing s' (snd (body i s'))) ->
  keeps_timing s (PPU.for_break n body s).
Proof.
  intros Hbody. apply (for_break_invariant (keeps_timing s)).
  - apply keeps_timing_refl.
  - intros i s' Hs'. eapply keeps_timing_trans; [exact Hs'|apply Hbody].
Qed.

(** ORing in a flag below bit 7 leaves bit 7 as it is. *)
Lemma lor_keeps_bit7 a k :
  Z.testbit k 7 = false -> Z.testbit (a .| k) 7 = Z.testbit a 7.
Proof. intros Hk. rewrite Z.lor_spec, Hk. apply orb_false_r. Qed.

(** The field updates of a straight-line function are read off by
    computation; the conditionals are split first. *)
Ltac split_ifs :=
  repeat match goal with
         | |- context [if ?b then _ else _] => destruct b
         | |- context [let (_, _) := ?p in _] => destruct p
         end.

Ltac frame :=
  split_ifs; cbn; unfold keeps_timing; cbn; repeat split;
  try (apply lor_keeps_bit7; reflexivity).

Lemma fetchName_keeps c s : keeps_timing s (PPU.fetchName c s).
Proof. unfold PPU.fetchName. frame. Qed.

Lemma fetchAttr_keeps c s : keeps_timing s (PPU.fetchAttr c s).
Proof. unfold PPU.fetchAttr. frame. Qed.

Lemma fetchPatternLow_keeps c s : keeps_timing s (PPU.fetchPatternLow c s).
Proof. unfold PPU.fetchPatternLow. frame. Qed.

Lemma fetchPatternHigh_keeps c s : keeps_timing s (PPU.fetchPatternHigh c s).
Proof. unfold PPU.fetchPatternHigh. frame. Qed.

Lemma loadBGShiftRegisters_keeps s :
  keeps_timing s (PPU.loadBGShiftRegisters s).
Proof. unfold PPU.loadBGShiftRegisters. frame. Qed.

Lemma plot_keeps xpos ypos i s : keeps_timing s (PPU.plot xpos ypos i s).
Proof. unfold PPU.plot. frame. Qed.

Lemma renderPixel_keeps xpos ypos s :
  keeps_timing s (PPU.renderPixel xpos ypos s).
Proof.
  unfold PPU.renderPixel.
  destruct (PPU.bgSample s) as [bgPixel bgPalette].
  destruct (PPU.spriteSample s) as [[[spritePixel spritePal] spritePriority] zero].
  eapply keeps_timing_trans; [|apply plot_keeps].
  destruct (_ && _ && _ && _); [|apply keeps_timing_refl].
  unfold keeps_timing; cbn. repeat split. apply lor_keeps_bit7. reflexivity.
Qed.

Lemma shiftSlot_keeps i s : keeps_timing s (PPU.shiftSlot i s).
Proof. unfold PPU.shiftSlot. frame. Qed.

Lemma stepShifters_keeps s : keeps_timing s (PPU.stepShifters s).
Proof.
  unfold PPU.stepShifters.
  match goal with
  | |- keeps_timing s (if _ then _ else ?s1) =>
      assert (keeps_timing s s1) as H1 by frame; generalize dependent s1
  end.
  intros s1 H1. destruct (negb _); [|exact H1].
  eapply keeps_timing_trans; [exact H1|]. apply for_keeps, shiftSlot_keeps.
Qed.

Lemma incCoarseX_keeps s : keeps_timing s (PPU.incCoarseX s).
Proof. unfold PPU.incCoarseX. frame. Qed.

Lemma incY_keeps s : keeps_timing s (PPU.incY s).
Proof. unfold PPU.incY. frame. Qed.

Lemma copyX_keeps s : keeps_timing s (PPU.copyX s).
Proof. unfold PPU.copyX. frame. Qed.

Lemma copyY_keeps s : keeps_timing s (PPU.copyY s).
Proof. unfold PPU.copyY. frame. Qed.

Lemma scanOAM_keeps i s : keeps_timing s (snd (PPU.scanOAM i s)).
Proof. unfold PPU.scanOAM. frame. Qed.

Lemma loadSlot_keeps i s : keeps_timing s (PPU.loadSlot i s).
Proof. unfold PPU.loadSlot. frame. Qed.

Lemma evaluateSprites_keeps s : keeps_timing s (PPU.evaluateSprites s).
Proof.
  unfold PPU.evaluateSprites.
  eapply keeps_timing_trans; [|apply for_keeps, loadSlot_keeps].
  eapply keeps_timing_trans; [|apply for_break_keeps, scanOAM_keeps].
  eapply keeps_timing_trans; [|apply for_keeps; intros i s'; frame].
  frame.
Qed.

Lemma fetchSlot_keeps c i s : keeps_timing s (PPU.fetchSlot c i s).
Proof.
  unfold PPU.fetchSlot.
  destruct (js_is _ _); [frame|].
  destruct (if _ =? 16 then _ else _) as [[table tile] fineY].
  destruct (if negb _ then _ else _) as [lo hi].
  frame.
Qed.

Lemma fetchSpritePatterns_keeps c s :
  keeps_timing s (PPU.fetchSpritePatterns c s).
Proof. apply for_keeps, fetchSlot_keeps. Qed.

Lemma visibleDot_keeps c re s : keeps_timing s (PPU.visibleDot c re s).
Proof.
  unfold PPU.visibleDot.
  set (s1 := if PPU.cycle s .& 7 =? 1 then _ else _).
  assert (keeps_timing s s1) as H1.
  { subst s1.
    repeat match goal with
           | |- context [if ?b then _ else _] => destruct b
           end;
      auto using fetchName_keeps, fetchAttr_keeps, fetchPatternLow_keeps,
        fetchPatternHigh_keeps, loadBGShiftRegisters_keeps, keeps_timing_refl. }
  clearbody s1.
  set (s2 := if re then _ else _).
  assert (keeps_timing s1 s2) as H2.
  { subst s2. destruct re; [apply renderPixel_keeps|apply plot_keeps]. }
  clearbody s2.
  assert (keeps_timing s2 (PPU.stepShifters s2)) as H3
    by apply stepShifters_keeps.
  destruct (_ =? 0).
  - eauto using keeps_timing_trans, incCoarseX_keeps.
  - eauto using keeps_timing_trans.
Qed.

Lemma spriteDot_keeps c re s : keeps_timing s (PPU.spriteDot c re s).
Proof.
  unfold PPU.spriteDot. destruct re; [|apply keeps_timing_refl].
  eapply keeps_timing_trans; [apply copyX_keeps|].
  eapply keeps_timing_trans; [apply evaluateSprites_keeps|].
  eapply keeps_timing_trans; [apply fetchSpritePatterns_keeps|].
  apply for_keeps. intros i s'. frame.
Qed.

Lemma visibleLine_keeps c re s : keeps_timing s (PPU.visibleLine c re s).
Proof.
  unfold PPU.visibleLine.
  destruct (_ && _); [|apply keeps_timing_refl].
  set (s1 := if (1 <=? PPU.cycle s) && _ then _ else _).
  assert (keeps_timing s s1) as H1.
  { subst s1. destruct (_ && _);
      [apply visibleDot_keeps|apply keeps_timing_refl]. }
  clearbody s1.
  set (s2 := if PPU.cycle s1 =? 257 then _ else _).
  assert (keeps_timing s1 s2) as H2.
  { subst s2. destruct (_ =? 257);
      [apply spriteDot_keeps|apply keeps_timing_refl]. }
  clearbody s2.
  destruct (_ =? 256); [|eauto using keeps_timing_trans].
  destruct re; eauto using keeps_timing_trans, incY_keeps.
Qed.

Lemma preRenderCopy_keeps re s : keeps_timing s (PPU.preRenderCopy re s).
Proof.
  unfold PPU.preRenderCopy. destruct (_ =? 261); [|apply keeps_timing_refl].
  destruct (_ && _ && _); [apply copyY_keeps|apply keeps_timing_refl].
Qed.

(** *** VBlank and NMI *)

Lemma advance_status s : PPU.status (PPU.advance s) = PPU.status s.
Proof. unfold PPU.advance. split_ifs; reflexivity. Qed.

Lemma advance_nmi s : PPU.nmi (PPU.advance s) = PPU.nmi s.
Proof. unfold PPU.advance. split_ifs; reflexivity. Qed.

Lemma enterVBlank_elsewhere s :
  ~ (PPU.scanline s = 241 /\ PPU.cycle s = 1) -> PPU.enterVBlank s = s.
Proof.
  intros Hnot. unfold PPU.enterVBlank.
  destruct (Z.eqb_spec (PPU.scanline s) 241), (Z.eqb_spec (PPU.cycle s) 1);
    simpl; tauto.
Qed.

(** The clearing block moves nothing and can only lower the VBlank flag. *)
Lemma preRenderClear_frame s :
  PPU.scanline (PPU.preRenderClear s) = PPU.scanline s
  /\ PPU.cycle (PPU.preRenderClear s) = PPU.cycle s
  /\ PPU.nmi (PPU.preRenderClear s) = PPU.nmi s
  /\ (Z.testbit (PPU.status (PPU.preRenderClear s)) 7 = true ->
      Z.testbit (PPU.status s) 7 = true).
Proof.
  unfold PPU.preRenderClear.
  destruct (_ && _);
    cbn [PPU.scanline PPU.cycle PPU.nmi PPU.status PPU.set_status
         PPU.set_spriteZeroInLine];
    repeat split; try tauto.
  rewrite Z.land_spec. intros Hb. apply andb_true_iff in Hb.
  destruct Hb as [_ Hb]. discriminate Hb.
Qed.

(** C7: the step at scanline 241, dot 1 sets the VBlank flag and raises the
    NMI line exactly when bit 7 of [ctrl] is set; the step at scanline 261,
    dot 1 clears VBlank, sprite-0 hit and sprite overflow; a step at any
    other dot neither sets VBlank nor touches the NMI line. This holds in
    every PPU state, reachable or not. *)
Theorem C7_vblank_nmi (c : Cart.Cartridge) (s : PPU.state) :
  (PPU.scanline s = 241 -> PPU.cycle s = 1 ->
     PPU.status (PPU.step c s) = PPU.status s .| 0x80
     /\ Z.testbit (PPU.status (PPU.step c s)) 7 = true
     /\ PPU.nmi (PPU.step c s) = PPU.nmi s || Z.testbit (PPU.ctrl s) 7)
  /\ (PPU.scanline s = 261 -> PPU.cycle s = 1 ->
        PPU.status (PPU.step c s) = PPU.status s .& ~~0xE0
        /\ Z.testbit (PPU.status (PPU.step c s)) 7 = false
        /\ Z.testbit (PPU.status (PPU.step c s)) 6 = false
        /\ Z.testbit (PPU.status (PPU.step c s)) 5 = false)
  /\ (~ (PPU.scanline s = 241 /\ PPU.cycle s = 1) ->
        (Z.testbit (PPU.status (PPU.step c s)) 7 = true ->
         Z.testbit (PPU.status s) 7 = true)
        /\ PPU.nmi (PPU.step c s) = PPU.nmi s).
Proof.
  split; [|split].
  - intros Hline Hdot.
    assert (PPU.step c s
            = PPU.advance
                (let s1 := PPU.set_status (PPU.status s .| 0x80) s in
                 if negb (PPU.ctrl s1 .& 0x80 =? 0)
                 then PPU.set_nmi true s1 else s1)) as ->.
    { unfold PPU.step, PPU.preRenderClear. rewrite Hline, Hdot. cbn [Z.eqb Pos.eqb andb].
      unfold PPU.visibleLine. rewrite Hline. cbn [Z.leb Z.compare Pos.compare Pos.compare_cont andb].
      unfold PPU.preRenderCopy. rewrite Hline. cbn [Z.eqb Pos.eqb].
      unfold PPU.enterVBlank. rewrite Hline, Hdot. reflexivity. }
    rewrite advance_status, advance_nmi. cbv zeta.
    cbn [PPU.ctrl PPU.set_status].
    replace (negb (PPU.ctrl s .& 0x80 =? 0)) with (Z.testbit (PPU.ctrl s) 7)
      by (symmetry; exact (land_pow2_testbit (PPU.ctrl s) 7 ltac:(lia))).
    destruct (Z.testbit (PPU.ctrl s) 7); cbn [PPU.status PPU.set_status PPU.set_nmi PPU.nmi].
    + repeat split.
      * rewrite Z.lor_spec. apply orb_true_r.
      * symmetry. apply orb_true_r.
    + repeat split.
      * rewrite Z.lor_spec. apply orb_true_r.
      * symmetry. apply orb_false_r.
  - intros Hline Hdot.
    assert (PPU.step c s
            = PPU.advance
                (PPU.set_spriteZeroInLine false
                   (PPU.set_status (PPU.status s .& ~~(0x80 .| 0x40 .| 0x20)) s)))
      as ->.
    { unfold PPU.step, PPU.preRenderClear. rewrite Hline, Hdot.
      cbn [Z.eqb Pos.eqb andb]. cbv zeta.
      unfold PPU.visibleLine. cbn [PPU.scanline PPU.set_spriteZeroInLine PPU.set_status].
      rewrite Hline. cbn [Z.leb Z.compare Pos.compare Pos.compare_cont andb].
      unfold PPU.preRenderCopy. cbn [PPU.scanline PPU.cycle PPU.set_spriteZeroInLine PPU.set_status].
      rewrite Hline, Hdot. cbn [Z.eqb Pos.eqb Z.leb Z.compare Pos.compare Pos.compare_cont andb].
      unfold PPU.enterVBlank. cbn [PPU.scanline PPU.cycle PPU.set_spriteZeroInLine PPU.set_status].
      rewrite Hline. reflexivity. }
    rewrite advance_status. cbn [PPU.status PPU.set_spriteZeroInLine PPU.set_status].
    change (0x80 .| 0x40 .| 0x20) with 0xE0.
    repeat split; rewrite Z.land_spec; apply andb_false_r.
  - intros Hnot. unfold PPU.step. cbv zeta.
    rewrite advance_status, advance_nmi.
    destruct (preRenderClear_frame s) as (Hl1 & Hd1 & Hn1 & Hv1).
    set (s1 := PPU.preRenderClear s) in *.
    set (re := negb (PPU.mask s1 .& 0x18 =? 0)).
    pose proof (visibleLine_keeps c re s1) as H2.
    set (s2 := PPU.visibleLine c re s1) in *.
    pose proof (preRenderCopy_keeps re s2) as H3.
    set (s3 := PPU.preRenderCopy re s2) in *.
    destruct (keeps_timing_trans _ _ _ H2 H3) as (Hl & Hd & _ & _ & Hn & Hv).
    rewrite enterVBlank_elsewhere by (rewrite Hl, Hd, Hl1, Hd1; exact Hnot).
    split.
    + rewrite Hv. exact Hv1.
    + rewrite Hn. exact Hn1.
Qed.

Lemma C7_vblank_nmi_witness :
  (Z.testbit (PPU.status (PPU.step (test_cart []) ppu_vblank_dot)) 7 = true
   /\ PPU.nmi (PPU.step (test_cart []) ppu_vblank_dot) = true)
  /\ PPU.status (PPU.step (test_cart []) ppu_prerender_dot) = 0
  /\ PPU.nmi (PPU.step (test_cart []) ppu_visible_dot) = false.
Proof.
  split; [|split].
  - destruct (proj1 (C7_vblank_nmi (test_cart []) ppu_vblank_dot)
                eq_refl eq_refl) as (_ & Hv & Hn).
    split; [exact Hv|exact Hn].
  - destruct (proj1 (proj2 (C7_vblank_nmi (test_cart []) ppu_prerender_dot))
                eq_refl eq_refl) as (Hs & _).
    exact Hs.
  - assert (~ (PPU.scanline ppu_visible_dot = 241
               /\ PPU.cycle ppu_visible_dot = 1)) as Hnot.
    { intros [Hline _]. discriminate Hline. }
    exact (proj2 (proj2 (proj2 (C7_vblank_nmi (test_cart []) ppu_visible_dot))
                    Hnot)).
Defined.

(** *** Sprite-0 hit *)

Lemma shr_bit a n : 0 <= n <= 31 -> (a >> n) .& 1 = Z.b2z (Z.testbit a n).
Proof.
  intros Hn. unfold shr.
  assert (n .& 31 = n) as ->.
  { change 31 with (Z.ones 5). rewrite Z.land_ones by lia.
    apply Z.mod_small. change (2 ^ 5) with 32. lia. }
  change 1 with (Z.ones 1). rewrite Z.land_ones by lia.
  change (2 ^ 1) with 2. rewrite <- Z.bit0_mod.
  rewrite Z.shiftr_spec by lia. reflexivity.
Qed.

Lemma pack_bits (h l : bool) :
  (Z.b2z h << 1) .| Z.b2z l = 2 * Z.b2z h + Z.b2z l.
Proof. destruct h, l; reflexivity. Qed.

Lemma bgSample_pixel s :
  0 <= PPU.x s <= 7 -> fst (PPU.bgSample s) = bg_pixel s.
Proof.
  intros Hx. unfold PPU.bgSample, bg_pixel, bg_enabled.
  replace (negb (PPU.mask s .& 0x08 =? 0)) with (Z.testbit (PPU.mask s) 3)
    by (symmetry; exact (land_pow2_testbit (PPU.mask s) 3 ltac:(lia))).
  destruct (Z.testbit (PPU.mask s) 3); [|reflexivity].
  cbn [fst]. rewrite !shr_bit by lia. apply pack_bits.
Qed.

Lemma slot_pixel_code s i :
  (((to_int32 (ta_get (PPU.spriteShiftsHi s) i) >> 7) .& 1) << 1)
  .| ((to_int32 (ta_get (PPU.spriteShiftsLo s) i) >> 7) .& 1)
  = slot_pixel s i.
Proof. rewrite !shr_bit by lia. apply pack_bits. Qed.

(** The sprite loop returns the first contributing slot of its range. *)
Lemma spriteScan_find s l :
  let '(px, _, _, zero) := PPU.spriteScan s l in
  match List.find (slot_opaque s) l with
  | Some i => px = slot_pixel s i /\ px <> 0
              /\ zero = PPU.spriteZeroInLine s && (i =? 0)
  | None => px = 0 /\ zero = false
  end.
Proof.
  induction l as [|i l IH]; [simpl; split; reflexivity|].
  cbn [PPU.spriteScan List.find]. unfold slot_opaque at 1.
  destruct (js_is (ta_get (PPU.spriteY s) i) 0xFF); cbn [negb andb]; [exact IH|].
  destruct (js_is (ta_get (PPU.spriteX s) i) 0); cbn [andb]; [|exact IH].
  rewrite slot_pixel_code.
  destruct (Z.eqb_spec (slot_pixel s i) 0) as [Hz|Hnz]; cbn [negb]; [exact IH|].
  repeat split. exact Hnz.
Qed.

Lemma spriteSample_contributing s :
  let '(px, _, _, zero) := PPU.spriteSample s in
  px = sprite_pixel s
  /\ zero = PPU.spriteZeroInLine s && is_slot0 (contributing s)
  /\ (px <> 0 -> sprites_enabled s = true).
Proof.
  unfold PPU.spriteSample, sprite_pixel, contributing, sprites_enabled.
  replace (negb (PPU.mask s .& 0x10 =? 0)) with (Z.testbit (PPU.mask s) 4)
    by (symmetry; exact (land_pow2_testbit (PPU.mask s) 4 ltac:(lia))).
  destruct (Z.testbit (PPU.mask s) 4).
  - pose proof (spriteScan_find s (seqZ 0 8)) as Hscan.
    destruct (PPU.spriteScan s (seqZ 0 8)) as [[[px pal] prio] zero].
    destruct (List.find (slot_opaque s) (seqZ 0 8)) as [i|].
    + destruct Hscan as (Hpx & _ & Hzero). repeat split; assumption.
    + destruct Hscan as (Hpx & Hzero). cbn [is_slot0].
      rewrite andb_false_r. repeat split; assumption.
  - cbn [is_slot0]. rewrite andb_false_r. repeat split. intros Hne. lia.
Qed.

Lemma plot_status xpos ypos i s :
  PPU.status (PPU.plot xpos ypos i s) = PPU.status s.
Proof. reflexivity. Qed.

(** The flag after [renderPixel], in terms of the spec's notions. *)
Lemma renderPixel_status xpos ypos s :
  0 <= PPU.x s <= 7 ->
  PPU.status (PPU.renderPixel xpos ypos s)
  = if sprite0_overlap s && (xpos <? 255)
    then PPU.status s .| 0x40 else PPU.status s.
Proof.
  intros Hx. unfold PPU.renderPixel.
  pose proof (bgSample_pixel s Hx) as Hbg.
  pose proof (spriteSample_contributing s) as Hsp.
  destruct (PPU.bgSample s) as [bgPixel bgPalette].
  destruct (PPU.spriteSample s) as [[[spritePixel spritePal] spritePriority] zero].
  cbn [fst] in Hbg. destruct Hsp as (Hpx & Hzero & Hen).
  rewrite plot_status.
  assert (negb (spritePixel =? 0) && negb (bgPixel =? 0) && zero
          = sprite0_overlap s) as Hcond.
  { unfold sprite0_overlap. rewrite <- Hbg, <- Hpx, Hzero.
    destruct (Z.eqb_spec spritePixel 0) as [Hs0|Hs1]; cbn [negb andb].
    - rewrite andb_false_r. reflexivity.
    - rewrite (Hen Hs1), andb_true_r.
      destruct (Z.eqb_spec bgPixel 0) as [Hb0|Hb1]; cbn [negb andb];
        [reflexivity|].
      assert (bg_enabled s = true) as ->.
      { unfold bg_pixel in Hbg. destruct (bg_enabled s); [reflexivity|lia]. }
      rewrite andb_true_r.
      destruct (PPU.spriteZeroInLine s), (is_slot0 (contributing s));
        reflexivity. }
  rewrite Hcond. destruct (sprite0_overlap s && (xpos <? 255)); reflexivity.
Qed.

(** C1, as the code has it: at a visible dot with x < 255 and the flag still
    clear, [renderPixel] sets status bit 6 if and only if the background
    pixel and the sprite pixel are both non-zero, the contributing sprite is
    slot 0 with [spriteZeroInLine] true, and background and sprite rendering
    are both enabled in [mask]. Mask bits 1 and 2 play no part. *)
Theorem C1_sprite0_hit (xpos ypos : Z) (s : PPU.state) :
  0 <= xpos < 255 ->
  0 <= PPU.x s <= 7 ->
  Z.testbit (PPU.status s) 6 = false ->
  (Z.testbit (PPU.status (PPU.renderPixel xpos ypos s)) 6 = true
   <-> sprite0_overlap s = true).
Proof.
  intros Hxpos Hx Hclear. rewrite renderPixel_status by exact Hx.
  destruct (Z.ltb_spec xpos 255); [|lia]. rewrite andb_true_r.
  destruct (sprite0_overlap s).
  - rewrite Z.lor_spec, Hclear. split; reflexivity.
  - rewrite Hclear. split; discriminate.
Qed.

Lemma C1_sprite0_hit_witness :
  Z.testbit (PPU.status (PPU.renderPixel 0 20 ppu_left_edge)) 6 = true.
Proof.
  apply (C1_sprite0_hit 0 20 ppu_left_edge); [lia|simpl; lia|reflexivity|].
  vm_compute. reflexivity.
Defined.

(** The claim as stated fails at the left edge: with [mask] = $18 the
    leftmost eight pixels are masked off, and the flag is set all the same. *)
Lemma C1_left8_counterexample :
  0 <= 0 < 255
  /\ Z.testbit (PPU.status ppu_left_edge) 6 = false
  /\ Z.testbit (PPU.status (PPU.renderPixel 0 20 ppu_left_edge)) 6 = true
  /\ sprite0_hit_claimed ppu_left_edge 0 = false.
Proof.
  split; [lia|]. split; [reflexivity|]. split; vm_compute; reflexivity.
Qed.

(** *** OAM DMA through the bus *)

Section MachineProperties.
Context {Pad Apu : Type} `{Peripherals Pad Apu}.
Abbreviation machine := (@Bus.nes Pad Apu).

Lemma read_frame_refl (n : machine) : read_frame n n.
Proof. repeat split. Qed.

Lemma read_frame_trans (n1 n2 n3 : machine) :
  read_frame n1 n2 -> read_frame n2 n3 -> read_frame n1 n3.
Proof.
  intros (A1 & A2 & A3 & A4 & A5) (B1 & B2 & B3 & B4 & B5).
  repeat split; congruence.
Qed.

Lemma PPU_read_oam c addr s :
  PPU.oam (snd (PPU.read c addr s)) = PPU.oam s
  /\ PPU.oamaddr (snd (PPU.read c addr s)) = PPU.oamaddr s.
Proof. unfold PPU.read. split_ifs; split; reflexivity. Qed.

Lemma cpuRead_frame addr (n : machine) : read_frame n (snd (Bus.cpuRead addr n)).
Proof.
  unfold Bus.cpuRead.
  destruct (_ <? 0x2000); [apply read_frame_refl|].
  destruct (_ <? 0x4000).
  { pose proof (PPU_read_oam (Bus.cart n) (0x2000 + (addr .& 0xFFFF .& 7))
                  (Bus.ppu n)) as [Hoam Haddr].
    destruct (PPU.read _ _ _) as [r ppu']. cbn [snd] in *.
    repeat split; assumption. }
  destruct (_ =? 0x4016); [destruct (pad_read _); repeat split|].
  destruct (_ =? 0x4017); [destruct (pad_read _); repeat split|].
  destruct (_ =? 0x4015); [destruct (apu_read _ _); repeat split|].
  destruct (0x8000 <=? _); [apply read_frame_refl|].
  destruct (0x6000 <=? _); apply read_frame_refl.
Qed.

Lemma reads_snoc addrs a (n : machine) :
  reads (addrs ++ [a]) n
  = (fst (reads addrs n) ++ [fst (Bus.cpuRead a (snd (reads addrs n)))],
     snd (Bus.cpuRead a (snd (reads addrs n)))).
Proof.
  revert n. induction addrs as [|b addrs IH]; intros n; simpl.
  - destruct (Bus.cpuRead a n). reflexivity.
  - destruct (Bus.cpuRead b n) as [r n1]. rewrite IH.
    destruct (reads addrs n1) as [rs n2]. reflexivity.
Qed.

Lemma reads_length addrs (n : machine) :
  length (fst (reads addrs n)) = length addrs.
Proof.
  revert n. induction addrs as [|b addrs IH]; intros n; simpl; [reflexivity|].
  destruct (Bus.cpuRead b n) as [r n1]. specialize (IH n1).
  destruct (reads addrs n1) as [rs n2]. simpl in *. congruence.
Qed.

Lemma reads_frame addrs (n : machine) : read_frame n (snd (reads addrs n)).
Proof.
  revert n. induction addrs as [|b addrs IH]; intros n; simpl;
    [apply read_frame_refl|].
  pose proof (cpuRead_frame b n) as Hb.
  destruct (Bus.cpuRead b n) as [r n1]. specialize (IH n1).
  destruct (reads addrs n1) as [rs n2]. simpl in *.
  eapply read_frame_trans; eassumption.
Qed.

(** Reads of internal RAM return its bytes and change nothing. *)
Lemma reads_ram addrs (n : machine) :
  Forall (fun a => 0 <= a < 0x2000) addrs ->
  reads addrs n = (map (fun a => ta_get (Bus.ram n) (a mod 2048)) addrs, n).
Proof.
  induction 1 as [|a addrs Ha _ IH]; simpl; [reflexivity|].
  rewrite cpuRead_ram by exact Ha. rewrite IH. reflexivity.
Qed.

Lemma page_addrs_prefix page (k : nat) :
  map (fun i => page + i) (seqZ 0 (Z.of_nat (S k)))
  = map (fun i => page + i) (seqZ 0 (Z.of_nat k)) ++ [page + Z.of_nat k].
Proof. rewrite seqZ_S, map_app. reflexivity. Qed.

Lemma dmaFetch_progress page (n : machine) :
  fetch_progress page n 256 (Bus.dmaFetch page n).
Proof.
  unfold Bus.dmaFetch.
  apply (for_invariant (fetch_progress page n) 256).
  - split; [reflexivity|]. split; [reflexivity|]. intros i Hi. lia.
  - intros i [buf nk] Hi (Hlen & Hnk & Hbuf). cbn [fst snd] in *.
    assert (i = Z.of_nat (Z.to_nat i)) as Hnat by lia.
    set (k := Z.to_nat i) in *. clearbody k. subst i.
    replace (Z.of_nat k + 1) with (Z.of_nat (S k)) by lia.
    unfold fetch_progress.
    rewrite page_addrs_prefix, reads_snoc. rewrite <- Hnk.
    unfold Bus.dmaRead. destruct (Bus.cpuRead (page + Z.of_nat k) nk) as [r n'].
    cbn [fst snd].
    pose proof (reads_length (map (fun i => page + i) (seqZ 0 (Z.of_nat k))) n)
      as Hl.
    rewrite length_map, length_seqZ, Nat2Z.id in Hl.
    split; [rewrite ta_set8_length; exact Hlen|]. split; [reflexivity|].
    intros j Hj. destruct (Z.eq_dec j (Z.of_nat k)) as [->|Hne].
    + rewrite ta_get_set8_eq by (unfold len; lia).
      rewrite Nat2Z.id, app_nth2 by lia. rewrite Hl, Nat.sub_diag. reflexivity.
    + rewrite ta_get_set8_ne by lia. rewrite Hbuf by lia.
      rewrite app_nth1 by lia. reflexivity.
Qed.

Lemma shl8_byte p : (p .& 0xFF) << 8 = 256 * (p mod 256).
Proof.
  rewrite land_0xFF. unfold shl. change (8 .& 31) with 8.
  rewrite Z.shiftl_mul_pow2 by lia.
  pose proof (Z.mod_pos_bound p 256 ltac:(lia)).
  rewrite wrap32_small by lia. lia.
Qed.

Lemma cpuWrite_dma (n : machine) p :
  Bus.cpuWrite 0x4014 p n
  = let (buf, n') := Bus.dmaFetch ((p .& 0xFF) << 8) n in
    Bus.set_ppu (PPU.doDMA buf (Bus.ppu n')) n'.
Proof. reflexivity. Qed.

(** C3, as the code has it: a write of [p] to $4014 copies the 256 bytes
    that [cpuRead] returns for page [p << 8], in address order, into OAM
    from [oamaddr] on, wrapping at the end of OAM; for a page of internal
    RAM these are the RAM's bytes. The write leaves [oamaddr] and the whole
    CPU as they were: in particular neither [stall] nor [cycles] is
    charged. *)
Theorem C3_oam_dma (n : machine) (p : Z) :
  length (PPU.oam (Bus.ppu n)) = 256%nat ->
  let page := 256 * (p mod 256) in
  let n' := Bus.cpuWrite 0x4014 p n in
  (forall i, 0 <= i < 256 ->
     ta_get (PPU.oam (Bus.ppu n')) ((PPU.oamaddr (Bus.ppu n) + i) mod 256)
     = #(to_uint8 (nth (Z.to_nat i) (fst (reads (page_addrs page) n)) JUndef)))
  /\ (page < 0x2000 -> length (Bus.ram n) = 2048%nat -> bytes (Bus.ram n) ->
      forall i, 0 <= i < 256 ->
        ta_get (PPU.oam (Bus.ppu n')) ((PPU.oamaddr (Bus.ppu n) + i) mod 256)
        = ta_get (Bus.ram n) ((page + i) mod 2048))
  /\ PPU.oamaddr (Bus.ppu n') = PPU.oamaddr (Bus.ppu n)
  /\ Bus.cpu n' = Bus.cpu n
  /\ dma_stall_charged p n = 0.
Proof.
  intros Hoam page n'.
  assert (forall i, 0 <= i < 256 ->
     ta_get (PPU.oam (Bus.ppu n')) ((PPU.oamaddr (Bus.ppu n) + i) mod 256)
     = #(to_uint8 (nth (Z.to_nat i) (fst (reads (page_addrs page) n)) JUndef))
    ) as Hcopy.
  { intros i Hi. subst n'. rewrite cpuWrite_dma, shl8_byte. fold page.
    pose proof (dmaFetch_progress page n) as (Hlen & Hn1 & Hbuf).
    destruct (Bus.dmaFetch page n) as [buf n1]. cbn [fst snd] in *.
    pose proof (reads_frame (page_addrs page) n) as (_ & _ & _ & Ho & Ha).
    unfold page_addrs in Ho, Ha. rewrite <- Hn1 in Ho, Ha.
    cbn [Bus.ppu Bus.set_ppu].
    destruct (doDMA_progress buf (Bus.ppu n1)) as (_ & _ & Hdma);
      [congruence|].
    rewrite <- land_0xFF, <- Ha, Hdma by lia.
    rewrite Hbuf by lia. f_equal. apply to_uint8_byte, to_uint8_range. }
  assert (Bus.cpu n' = Bus.cpu n
          /\ PPU.oamaddr (Bus.ppu n') = PPU.oamaddr (Bus.ppu n)) as [Hcpu Haddr].
  { subst n'. rewrite cpuWrite_dma, shl8_byte. fold page.
    pose proof (dmaFetch_progress page n) as (_ & Hn1 & _).
    destruct (Bus.dmaFetch page n) as [buf n1]. cbn [fst snd] in *.
    pose proof (reads_frame (page_addrs page) n) as (Hc & _ & _ & Ho & Ha).
    unfold page_addrs in Hc, Ho, Ha. rewrite <- Hn1 in Hc, Ho, Ha.
    cbn [Bus.cpu Bus.ppu Bus.set_ppu]. split; [exact Hc|].
    destruct (doDMA_progress buf (Bus.ppu n1)) as (Hd & _); congruence. }
  split; [exact Hcopy|]. split; [|split; [exact Haddr|split; [exact Hcpu|]]].
  - intros Hpage Hram Hbytes i Hi. rewrite Hcopy by exact Hi.
    assert (0 <= page) as Hp0
      by (subst page; pose proof (Z.mod_pos_bound p 256 ltac:(lia)); lia).
    assert (page + 256 <= 0x2000) as Hp1.
    { subst page. pose proof (Z.mod_pos_bound p 256 ltac:(lia)). lia. }
    rewrite reads_ram.
    2:{ unfold page_addrs. rewrite Forall_map. apply Forall_seqZ.
        intros j Hj. simpl. lia. }
    cbn [fst]. unfold page_addrs. rewrite map_map.
    rewrite (nth_indep _ JUndef (ta_get (Bus.ram n) ((page + 0) mod 2048)))
      by (rewrite length_map, length_seqZ; lia).
    rewrite (map_nth (fun i => ta_get (Bus.ram n) ((page + i) mod 2048))
               (seqZ 0 256) 0 (Z.to_nat i)).
    assert (nth (Z.to_nat i) (seqZ 0 256) 0 = i) as ->.
    { apply nth_lookup_Some with (d := 0).
      rewrite lookup_seqZ_lt by lia. f_equal. lia. }
    apply ta_get_bytes; [exact Hbytes|].
    pose proof (Z.mod_pos_bound (page + i) 2048 ltac:(lia)). unfold len. lia.
  - unfold dma_stall_charged. fold n'. rewrite Hcpu. lia.
Qed.

End MachineProperties.

Lemma bytesb_spec l : bytesb l = true -> bytes l.
Proof.
  unfold bytesb, bytes. rewrite forallb_forall, Forall_forall.
  intros Hall b Hb. apply list_elem_of_In in Hb. specialize (Hall b Hb).
  apply andb_true_iff in Hall. destruct Hall as [H0 H1].
  apply Z.leb_le in H0. apply Z.ltb_lt in H1. lia.
Qed.

Lemma C3_oam_dma_witness :
  ta_get (PPU.oam (Bus.ppu (Bus.cpuWrite 0x4014 2 dma_nes)))
         ((PPU.oamaddr (Bus.ppu dma_nes) + 1) mod 256)
  = ta_get (Bus.ram dma_nes) ((256 * (2 mod 256) + 1) mod 2048)
  /\ Bus.cpu (Bus.cpuWrite 0x4014 2 dma_nes) = Bus.cpu dma_nes.
Proof.
  destruct (C3_oam_dma dma_nes 2 eq_refl) as (_ & Hram & _ & Hcpu & _).
  split; [|exact Hcpu].
  apply Hram; [reflexivity|reflexivity| |lia].
  apply bytesb_spec. vm_compute. reflexivity.
Defined.

(** The claim as stated fails on the cost: after the write the CPU's stall
    counter and cycle counter are what they were, so the DMA is charged 0
    cycles and not 513 or 514. *)
Lemma C3_dma_cost_counterexample :
  dma_stall_charged 2 dma_nes = 0
  /\ CPUState.cycles (Bus.cpu (Bus.cpuWrite 0x4014 2 dma_nes))
     = CPUState.cycles (Bus.cpu dma_nes)
  /\ ~ (dma_stall_charged 2 dma_nes = 513 \/ dma_stall_charged 2 dma_nes = 514).
Proof.
  assert (dma_stall_charged 2 dma_nes = 0) as Hz by (vm_compute; reflexivity).
  split; [exact Hz|]. split; [vm_compute; reflexivity|].
  rewrite Hz. intros [Hc|Hc]; discriminate Hc.
Qed.

(** *** The CPU step *)

Section CPUProperties.
Context {Pad Apu : Type} `{Peripherals Pad Apu}.
Abbreviation nes6502 := (@Bus.nes Pad Apu).

Lemma to_int32_of_number j : to_int32 (of_number (to_number j)) = to_int32 j.
Proof. destruct j; reflexivity. Qed.

Lemma step_fetch (n : nes6502) :
  CPUState.stall (Bus.cpu n) <= 0 ->
  CPU6502.step n
  = let (op, n1) := opcode_fetch n in
    match CPU6502.lookupOp op with
    | None => (#1, n1)
    | Some entry =>
        CPU6502.bind (CPU6502.upd (CPUState.set_addrMode (Some (CPU6502.mode entry))))
          (fun _ =>
        CPU6502.bind (CPU6502.upd (CPUState.set_pageCross 0)) (fun _ =>
        CPU6502.bind (CPU6502.get CPUState.addrMode) (fun am =>
        CPU6502.bind (CPU6502.fetchAddr am) (fun addr =>
        CPU6502.bind (CPU6502.get CPUState.cycles) (fun cyclesBefore =>
        CPU6502.bind (CPU6502.execute (CPU6502.ins entry) addr) (fun _ =>
        CPU6502.bind (CPU6502.get CPUState.pageCross) (fun pcross =>
        CPU6502.bind
          (CPU6502.upd (fun r =>
             CPUState.set_cycles
               (js_add (CPUState.cycles r) (js_add (CPU6502.cy entry) #pcross)) r))
          (fun _ =>
        CPU6502.bind (CPU6502.get CPUState.cycles) (fun now =>
        CPU6502.ret (js_sub now cyclesBefore)))))))))) n1
    end.
Proof.
  intros Hstall. unfold CPU6502.step at 1, opcode_fetch.
  unfold CPU6502.bind at 1, CPU6502.get at 1.
  destruct (Z.ltb_spec 0 (CPUState.stall (Bus.cpu n))); [lia|].
  unfold CPU6502.bind at 1, CPU6502.pc_postinc.
  unfold CPU6502.bind at 1 2, CPU6502.get at 1, CPU6502.upd at 1, CPU6502.ret at 1.
  unfold CPU6502.bind at 1, CPU6502.read at 1.
  rewrite to_int32_of_number.
  destruct (Bus.cpuRead _ _) as [op n1].
  destruct (CPU6502.lookupOp op); reflexivity.
Qed.

(** C2, as the code has it: when the byte fetched has no entry in the
    opcode table, [step] returns a cost of 1 cycle (the source's comment
    says so) and nothing but the fetch has happened: [pc] has advanced by
    one and every other register, the flags and the cycle counter are as
    before. *)
Theorem C2_unknown_opcode (n : nes6502) :
  CPUState.stall (Bus.cpu n) <= 0 ->
  CPU6502.lookupOp (fst (opcode_fetch n)) = None ->
  CPU6502.step n = (#1, snd (opcode_fetch n))
  /\ Bus.cpu (snd (CPU6502.step n))
     = CPUState.set_pc (js_add (CPUState.pc (Bus.cpu n)) #1) (Bus.cpu n).
Proof.
  intros Hstall Hnone.
  assert (CPU6502.step n = (#1, snd (opcode_fetch n))) as Hstep.
  { rewrite step_fetch by exact Hstall.
    destruct (opcode_fetch n) as [op n1]. cbn [fst snd] in *.
    rewrite Hnone. reflexivity. }
  split; [exact Hstep|]. rewrite Hstep. cbn [snd]. unfold opcode_fetch.
  destruct (cpuRead_frame
              (to_int32 (CPUState.pc (Bus.cpu n)) .& 0xFFFF)
              (Bus.set_cpu
                 (CPUState.set_pc (js_add (CPUState.pc (Bus.cpu n)) #1)
                    (Bus.cpu n)) n)) as (Hcpu & _).
  exact Hcpu.
Qed.

Lemma cpuRead_prg (n : nes6502) addr :
  0x8000 <= addr <= 0xFFFF ->
  Bus.cpuRead addr n = (Cart.read (Bus.cart n) addr, n).
Proof.
  intros Ha. unfold Bus.cpuRead.
  rewrite land_0xFFFF, Z.mod_small by lia.
  destruct (Z.ltb_spec addr 0x2000); [lia|].
  destruct (Z.ltb_spec addr 0x4000); [lia|].
  destruct (Z.eqb_spec addr 0x4016); [lia|].
  destruct (Z.eqb_spec addr 0x4017); [lia|].
  destruct (Z.eqb_spec addr 0x4015); [lia|].
  destruct (Z.leb_spec 0x8000 addr); [|lia]. reflexivity.
Qed.

Lemma set_cpu_set_cpu (n : nes6502) r r' :
  Bus.set_cpu r (Bus.set_cpu r' n) = Bus.set_cpu r n.
Proof. reflexivity. Qed.

(** A read of RAM or PRG sees through any change of the CPU registers. *)
Lemma cpuRead_memory (n : nes6502) addr r :
  memory_addr addr ->
  Bus.cpuRead addr (Bus.set_cpu r n) = (fst (Bus.cpuRead addr n), Bus.set_cpu r n).
Proof.
  intros (Ha & Hppu & H15 & H16 & H17). unfold Bus.cpuRead.
  rewrite land_0xFFFF, Z.mod_small by lia.
  destruct (Z.ltb_spec addr 0x2000); [reflexivity|].
  destruct (Z.ltb_spec addr 0x4000); [lia|].
  destruct (Z.eqb_spec addr 0x4016); [lia|].
  destruct (Z.eqb_spec addr 0x4017); [lia|].
  destruct (Z.eqb_spec addr 0x4015); [lia|].
  destruct (0x8000 <=? addr); [reflexivity|].
  destruct (0x6000 <=? addr); reflexivity.
Qed.

Lemma read_memory (n : nes6502) r addr :
  memory_addr addr ->
  CPU6502.read #addr (Bus.set_cpu r n)
  = (fst (Bus.cpuRead addr n), Bus.set_cpu r n).
Proof.
  intros Ha. unfold CPU6502.read.
  assert (to_int32 #addr .& 0xFFFF = addr) as ->.
  { unfold to_int32; simpl. destruct Ha as (Ha & _).
    rewrite wrap32_small, land_0xFFFF, Z.mod_small by lia. reflexivity. }
  apply cpuRead_memory, Ha.
Qed.

Lemma pc_postinc_num (n : nes6502) r addr :
  CPUState.pc r = #addr ->
  CPU6502.pc_postinc (Bus.set_cpu r n)
  = (#addr, Bus.set_cpu (CPUState.set_pc #(addr + 1) r) n).
Proof.
  intros Hpc. unfold CPU6502.pc_postinc, CPU6502.bind, CPU6502.get,
    CPU6502.upd, CPU6502.ret.
  cbn [Bus.cpu Bus.set_cpu]. rewrite Hpc. reflexivity.
Qed.

(** [abs] on an operand held in memory. *)
Lemma abs_memory (n : nes6502) r addr :
  CPUState.pc r = #addr ->
  memory_addr addr -> memory_addr (addr + 1) ->
  CPU6502.abs (Bus.set_cpu r n)
  = (CPU6502.word (fst (Bus.cpuRead addr n)) (fst (Bus.cpuRead (addr + 1) n)),
     Bus.set_cpu (CPUState.set_pc #(addr + 1 + 1) r) n).
Proof.
  intros Hpc Ha Ha1. unfold CPU6502.abs.
  unfold CPU6502.bind at 1. rewrite (pc_postinc_num n r addr Hpc).
  unfold CPU6502.bind at 1. rewrite read_memory by exact Ha.
  unfold CPU6502.bind at 1.
  rewrite (pc_postinc_num n (CPUState.set_pc #(addr + 1) r) (addr + 1) eq_refl).
  unfold CPU6502.bind at 1. rewrite read_memory by exact Ha1.
  reflexivity.
Qed.

(** [ind]: the low byte of the target comes from [ptr], the high byte from
    [ind_high_addr ptr]. *)
Lemma ind_memory (n : nes6502) r addr ptr :
  CPUState.pc r = #addr ->
  memory_addr addr -> memory_addr (addr + 1) ->
  CPU6502.word (fst (Bus.cpuRead addr n)) (fst (Bus.cpuRead (addr + 1) n)) = #ptr ->
  memory_addr ptr ->
  memory_addr (ind_high_addr ptr) ->
  CPU6502.ind (Bus.set_cpu r n)
  = (CPU6502.word
       (fst (Bus.cpuRead ptr n))
       (fst (Bus.cpuRead (ind_high_addr ptr) n)),
     Bus.set_cpu (CPUState.set_pc #(addr + 1 + 1) r) n).
Proof.
  intros Hpc Ha Ha1 Hptr Hp Hw. unfold CPU6502.ind.
  unfold CPU6502.bind at 1. rewrite (abs_memory n r addr Hpc Ha Ha1), Hptr.
  unfold CPU6502.bind at 1. rewrite read_memory by exact Hp.
  unfold CPU6502.bind at 1.
  assert (to_int32 #ptr = ptr) as Hi.
  { unfold to_int32; simpl. destruct Hp as (Hp & _). apply wrap32_small; lia. }
  assert (to_int32 (js_add #ptr #1) = ptr + 1) as Hi1.
  { unfold to_int32; simpl. destruct Hp as (Hp & _). apply wrap32_small; lia. }
  rewrite Hi, Hi1. rewrite read_memory by exact Hw. reflexivity.
Qed.

Lemma testbit_above a k i : 0 <= a < 2 ^ k -> 0 <= k <= i -> Z.testbit a i = false.
Proof.
  intros Ha Hk. rewrite <- (Z.mod_small a (2 ^ k)) by lia.
  apply Z.mod_pow2_bits_high. lia.
Qed.

Lemma land_page ptr : 0 <= ptr <= 0xFFFF -> ptr .& 0xFF00 = 256 * (ptr / 256).
Proof.
  intros Hptr. apply Z.bits_inj'. intros i Hi.
  rewrite Z.land_spec.
  assert (256 * (ptr / 256) = Z.shiftl (Z.shiftr ptr 8) 8) as ->.
  { rewrite Z.shiftl_mul_pow2, Z.shiftr_div_pow2 by lia.
    change (2 ^ 8) with 256. apply Z.mul_comm. }
  change 0xFF00 with (Z.shiftl (Z.ones 8) 8).
  rewrite !Z.shiftl_spec by lia.
  destruct (Z.lt_ge_cases i 8) as [Hlo|Hhi].
  - rewrite !(Z.testbit_neg_r _ (i - 8)) by lia. apply andb_false_r.
  - rewrite Z.shiftr_spec by lia. replace (i - 8 + 8) with i by lia.
    destruct (Z.lt_ge_cases i 16) as [Hin|Hout].
    + rewrite Z.ones_spec_low by lia. apply andb_true_r.
    + rewrite (testbit_above ptr 16 i) by lia. reflexivity.
Qed.

Lemma lor_page_offset q m : 0 <= m < 256 -> (256 * q) .| m = 256 * q + m.
Proof.
  intros Hm. rewrite <- Z.add_lor_land.
  assert (Z.land (256 * q) m = 0) as ->; [|lia].
  apply Z.bits_inj'. intros i Hi. rewrite Z.land_spec, Z.bits_0.
  destruct (Z.lt_ge_cases i 8) as [Hlo|Hhi].
  - replace (256 * q) with (q * 2 ^ 8) by (change (2 ^ 8) with 256; lia).
    rewrite Z.mul_pow2_bits_low by lia. reflexivity.
  - rewrite (testbit_above m 8 i) by (change (2 ^ 8) with 256; lia).
    apply andb_false_r.
Qed.

(** The high byte comes from the page of the pointer: the address wraps
    within the page instead of carrying into the next one. *)
Lemma ind_high_addr_same_page ptr :
  0 <= ptr <= 0xFFFF ->
  ind_high_addr ptr = 256 * (ptr / 256) + (ptr + 1) mod 256.
Proof.
  intros Hptr. unfold ind_high_addr. rewrite land_page by exact Hptr.
  rewrite land_0xFF. apply lor_page_offset. apply Z.mod_pos_bound. lia.
Qed.

(** [lo | (hi << 8)] on two bytes. *)
Lemma word_of_bytes lo hi :
  0 <= lo < 256 -> 0 <= hi < 256 -> CPU6502.word #lo #hi = #(256 * hi + lo).
Proof.
  intros Hl Hh. unfold CPU6502.word, to_int32. cbn [to_number].
  rewrite !wrap32_small by lia. f_equal.
  unfold shl. change (8 .& 31) with 8.
  rewrite Z.shiftl_mul_pow2 by lia. change (2 ^ 8) with 256.
  rewrite wrap32_small by lia.
  rewrite Z.lor_comm, (Z.mul_comm hi 256). apply lor_page_offset. exact Hl.
Qed.

(** C8: JMP indirect takes the high byte of its target from the page of
    the low byte. With the opcode $6C at [addr] and the pointer bytes
    [plo], [phi] after it, the low byte of the new PC is read at the
    pointer [256*phi + plo] and the high byte at [256*phi + (plo+1) mod 256],
    in the pointer's page: for [plo] = $FF that is the start of the page
    and not the first byte of the next one. With [6C FF 10] at $8000 and
    $34, $12, $56 at $10FF, $1000, $1100, one step leaves PC at $1234 and
    not at $5634. *)
Theorem C8_jmp_indirect_wrap (n : nes6502) (addr plo phi : Z) :
  CPUState.stall (Bus.cpu n) <= 0 ->
  CPUState.pc (Bus.cpu n) = #addr ->
  memory_addr addr -> memory_addr (addr + 1) -> memory_addr (addr + 2) ->
  fst (Bus.cpuRead addr n) = #0x6C ->
  fst (Bus.cpuRead (addr + 1) n) = #plo -> 0 <= plo < 256 ->
  fst (Bus.cpuRead (addr + 2) n) = #phi -> 0 <= phi < 256 ->
  memory_addr (256 * phi + plo) ->
  memory_addr (256 * phi + (plo + 1) mod 256) ->
  CPUState.pc (Bus.cpu (snd (CPU6502.step n)))
  = CPU6502.word (fst (Bus.cpuRead (256 * phi + plo) n))
      (fst (Bus.cpuRead (256 * phi + (plo + 1) mod 256) n))
  /\ (forall tlo thi,
        fst (Bus.cpuRead (256 * phi + plo) n) = #tlo -> 0 <= tlo < 256 ->
        fst (Bus.cpuRead (256 * phi + (plo + 1) mod 256) n) = #thi ->
        0 <= thi < 256 ->
        CPUState.pc (Bus.cpu (snd (CPU6502.step n))) = #(256 * thi + tlo)).
Proof.
  intros Hstall Hpc Ha Ha1 Ha2 Hop Hlo Hplo Hhi Hphi Hp Hw.
  assert (ind_high_addr (256 * phi + plo) = 256 * phi + (plo + 1) mod 256)
    as Hhigh.
  { rewrite ind_high_addr_same_page by lia. f_equal.
    - f_equal. symmetry. apply (Z.div_unique _ _ _ plo); lia.
    - replace (256 * phi + plo + 1) with (plo + 1 + phi * 256) by lia.
      apply Z.mod_add. lia. }
  assert (CPUState.pc (Bus.cpu (snd (CPU6502.step n)))
          = CPU6502.word (fst (Bus.cpuRead (256 * phi + plo) n))
              (fst (Bus.cpuRead (256 * phi + (plo + 1) mod 256) n))) as Hjmp.
  { rewrite step_fetch by exact Hstall. unfold opcode_fetch.
    rewrite Hpc.
    assert (to_int32 #addr .& 0xFFFF = addr) as ->.
    { unfold to_int32; simpl. destruct Ha as (Ha & _).
      rewrite wrap32_small, land_0xFFFF, Z.mod_small by lia. reflexivity. }
    rewrite cpuRead_memory, Hop by exact Ha.
    change (CPU6502.lookupOp #0x6C)
      with (Some (CPU6502.O CPUState.IND CPU6502.JMP 5)).
    cbn [CPU6502.mode CPU6502.ins].
    unfold CPU6502.bind at 1, CPU6502.upd at 1. cbn [Bus.cpu Bus.set_cpu].
    unfold CPU6502.bind at 1, CPU6502.upd at 1. cbn [Bus.cpu Bus.set_cpu].
    unfold CPU6502.bind at 1, CPU6502.get at 1.
    cbn [Bus.cpu Bus.set_cpu CPUState.addrMode CPUState.set_pageCross
         CPUState.set_addrMode].
    unfold CPU6502.bind at 1, CPU6502.fetchAddr.
    rewrite !set_cpu_set_cpu.
    rewrite (ind_memory n _ (addr + 1) (256 * phi + plo));
      [ | reflexivity | exact Ha1
        | replace (addr + 1 + 1) with (addr + 2) by lia; exact Ha2
        | replace (addr + 1 + 1) with (addr + 2) by lia; rewrite Hlo, Hhi;
          apply word_of_bytes; assumption
        | exact Hp | rewrite Hhigh; exact Hw ].
    rewrite Hhigh. reflexivity. }
  split; [exact Hjmp|].
  intros tlo thi Htlo Hrlo Hthi Hrhi. rewrite Hjmp, Htlo, Hthi.
  apply word_of_bytes; assumption.
Qed.

(** A write to $8000-$FFFF goes nowhere: the bus asks the [Cartridge]
    object for a [prgWrite] it does not have, so no mapper register is
    reached through [cpuWrite]. *)
Lemma cpuWrite_prg (n : nes6502) addr val :
  0x8000 <= addr <= 0xFFFF -> Bus.cpuWrite addr val n = n.
Proof.
  intros Ha. unfold Bus.cpuWrite.
  rewrite land_0xFFFF, Z.mod_small by lia.
  destruct (Z.ltb_spec addr 0x2000); [lia|].
  destruct (Z.ltb_spec addr 0x4000); [lia|].
  destruct (Z.eqb_spec addr 0x4014); [lia|].
  destruct (Z.eqb_spec addr 0x4016); [lia|].
  destruct (Z.leb_spec 0x4000 addr); [|lia].
  destruct (Z.leb_spec addr 0x4017); [lia|]. cbn [andb].
  destruct (Z.leb_spec 0x8000 addr); [|lia].
  destruct n; reflexivity.
Qed.

End CPUProperties.

Lemma C2_unknown_opcode_witness :
  CPU6502.step unknown_op_nes = (#1, snd (opcode_fetch unknown_op_nes)).
Proof.
  apply (C2_unknown_opcode unknown_op_nes).
  - vm_compute. discriminate.
  - vm_compute. reflexivity.
Defined.

(** The claim as stated fails on the cost: a fetch of $02, which has no
    entry, costs 1 cycle and not 2. *)
Lemma C2_two_cycles_counterexample :
  CPUState.stall (Bus.cpu unknown_op_nes) = 0
  /\ CPU6502.lookupOp (fst (opcode_fetch unknown_op_nes)) = None
  /\ fst (CPU6502.step unknown_op_nes) = #1
  /\ fst (CPU6502.step unknown_op_nes) <> #2.
Proof.
  assert (fst (CPU6502.step unknown_op_nes) = #1) as H1
    by (vm_compute; reflexivity).
  split; [reflexivity|]. split; [vm_compute; reflexivity|].
  split; [exact H1|]. rewrite H1. discriminate.
Qed.

(** 105 of the 256 opcode bytes have no entry. *)
Lemma unknown_opcode_count :
  length (List.filter (fun b => match CPU6502.lookupOp #b with
                           | None => true
                           | Some _ => false
                           end) (seqZ 0 256)) = 105%nat.
Proof. vm_compute. reflexivity. Qed.

Lemma C8_jmp_indirect_wrap_witness :
  CPUState.pc (Bus.cpu (snd (CPU6502.step jmp_nes))) = #0x1234
  /\ CPUState.pc (Bus.cpu (snd (CPU6502.step jmp_nes))) <> #0x5634.
Proof.
  assert (CPUState.pc (Bus.cpu (snd (CPU6502.step jmp_nes))) = #0x1234)
    as Hjmp.
  { refine (proj2 (C8_jmp_indirect_wrap jmp_nes 0x8000 0xFF 0x10
                     _ _ _ _ _ _ _ _ _ _ _ _) 0x34 0x12 _ _ _ _).
    - vm_compute. discriminate.
    - reflexivity.
    - unfold memory_addr. lia.
    - unfold memory_addr. lia.
    - unfold memory_addr. lia.
    - vm_compute. reflexivity.
    - vm_compute. reflexivity.
    - lia.
    - vm_compute. reflexivity.
    - lia.
    - unfold memory_addr. lia.
    - unfold memory_addr. change ((0xFF + 1) mod 256) with 0. lia.
    - vm_compute. reflexivity.
    - lia.
    - vm_compute. reflexivity.
    - lia. }
  split; [exact Hjmp|]. rewrite Hjmp. discriminate.
Defined.

(** The cost [step] returns for an opcode of the table: [entry.cy] is
    [undefined], so the sum with [pageCross] is NaN, and so are the cycle
    counter and the difference returned. *)
Lemma known_opcode_cost :
  fst (CPU6502.step jmp_nes) = JNaN
  /\ CPUState.cycles (Bus.cpu (snd (CPU6502.step jmp_nes))) = JNaN.
Proof. split; vm_compute; reflexivity. Qed.

(* ===================================================================== *)
(** ** Further properties of the code *)
(* ===================================================================== *)

(** *** Sprite flipping *)

(** X1: [reverseByte] mirrors the eight bits of a byte (bit [i] of the
    result is bit [7 - i] of the argument), stays within a byte, and
    undoes itself. *)
Theorem X1_reverseByte_mirror (b : Z) :
  0 <= b < 256 ->
  (forall i, 0 <= i < 8 ->
     Z.testbit (PPU.reverseByte #b) i = Z.testbit b (7 - i))
  /\ 0 <= PPU.reverseByte #b < 256
  /\ PPU.reverseByte #(PPU.reverseByte #b) = b.
Proof.
  intros Hb.
  assert (forallb (fun c =>
            forallb (fun i => Bool.eqb (Z.testbit (PPU.reverseByte #c) i)
                                       (Z.testbit c (7 - i))) (seqZ 0 8)
            && (0 <=? PPU.reverseByte #c) && (PPU.reverseByte #c <? 256)
            && (PPU.reverseByte #(PPU.reverseByte #c) =? c))
          (seqZ 0 256) = true) as Hall by (vm_compute; reflexivity).
  rewrite forallb_forall in Hall.
  specialize (Hall b ltac:(apply list_elem_of_In, elem_of_seqZ; lia)).
  apply andb_true_iff in Hall. destruct Hall as [Hall Hinv].
  apply andb_true_iff in Hall. destruct Hall as [Hall Hhi].
  apply andb_true_iff in Hall. destruct Hall as [Hbits Hlo].
  rewrite forallb_forall in Hbits.
  split; [|split].
  - intros i Hi. apply Bool.eqb_prop, Hbits.
    apply list_elem_of_In, elem_of_seqZ. lia.
  - apply Z.leb_le in Hlo. apply Z.ltb_lt in Hhi. lia.
  - apply Z.eqb_eq, Hinv.
Qed.

Lemma X1_reverseByte_mirror_witness :
  PPU.reverseByte #(PPU.reverseByte #0x1D) = 0x1D.
Proof.
  exact (proj2 (proj2 (X1_reverseByte_mirror 0x1D ltac:(lia)))).
Defined.

(** *** The CPU address space *)

Section AddressSpace.
Context {Pad Apu : Type} `{Peripherals Pad Apu}.
Abbreviation board := (@Bus.nes Pad Apu).

Lemma land_7 a : a .& 7 = a mod 8.
Proof. change 7 with (Z.ones 3). rewrite Z.land_ones by lia. reflexivity. Qed.

(** X2: the PPU registers are mirrored every 8 bytes through
    $2000-$3FFF: two addresses of the window that agree modulo 8 are read
    and written alike. *)
Theorem X2_ppu_register_mirror (n : board) (a a' val : Z) :
  0x2000 <= a <= 0x3FFF -> 0x2000 <= a' <= 0x3FFF -> a mod 8 = a' mod 8 ->
  Bus.cpuRead a n = Bus.cpuRead a' n
  /\ Bus.cpuWrite a val n = Bus.cpuWrite a' val n.
Proof.
  intros Ha Ha' Hmod. unfold Bus.cpuRead, Bus.cpuWrite.
  rewrite !land_0xFFFF, !(Z.mod_small a), !(Z.mod_small a') by lia.
  destruct (Z.ltb_spec a 0x2000); [lia|].
  destruct (Z.ltb_spec a' 0x2000); [lia|].
  destruct (Z.ltb_spec a 0x4000); [|lia].
  destruct (Z.ltb_spec a' 0x4000); [|lia].
  rewrite !land_7, Hmod. split; reflexivity.
Qed.

(** What [chrWrite] can change of a cartridge is its CHR bytes. *)
Lemma chrWrite_keeps c addr val :
  Cart.prg (Cart.chrWrite c addr val) = Cart.prg c
  /\ Cart.mapperInstance (Cart.chrWrite c addr val) = Cart.mapperInstance c
  /\ Cart.mirror (Cart.chrWrite c addr val) = Cart.mirror c
  /\ Cart.sram (Cart.chrWrite c addr val) = Cart.sram c
  /\ Cart.chrRAM (Cart.chrWrite c addr val) = Cart.chrRAM c.
Proof.
  unfold Cart.chrWrite, Cart.Mapper1_chrWrite, Cart.Mapper_chrWrite.
  destruct (Cart.mapperInstance c) eqn:Hm; destruct (Cart.chrRAM c) eqn:Hr;
    cbn; rewrite ?Hm, ?Hr; repeat split.
Qed.

Lemma PPU_write_cart addr val c s :
  Cart.prg (fst (PPU.write addr val (c, s))) = Cart.prg c
  /\ Cart.mapperInstance (fst (PPU.write addr val (c, s))) = Cart.mapperInstance c
  /\ Cart.mirror (fst (PPU.write addr val (c, s))) = Cart.mirror c
  /\ Cart.sram (fst (PPU.write addr val (c, s))) = Cart.sram c.
Proof.
  unfold PPU.write.
  destruct (_ =? 0); [repeat split|].
  destruct (_ =? 1); [repeat split|].
  destruct (_ =? 3); [repeat split|].
  destruct (_ =? 4); [repeat split|].
  destruct (_ =? 5); [destruct (_ =? 0); repeat split|].
  destruct (_ =? 6); [destruct (_ =? 0); repeat split|].
  destruct (_ =? 7); [|repeat split].
  unfold PPU.ppuWrite.
  destruct (_ <? 0x2000).
  - cbn [fst]. destruct (chrWrite_keeps c (PPU.v s .& 0x3FFF .& 0x3FFF .& 0x1FFF)
                           (val .& 0xFF .& 0xFF)) as (A & B & C & D & _).
    repeat split; assumption.
  - destruct (_ <? 0x3F00); repeat split.
Qed.

(** X3: no CPU write, to whatever address, changes the PRG bytes, the
    mapper's registers or the mirroring of the cartridge: the bus passes
    no write on to a mapper, so no bank is ever switched through it. *)
Theorem X3_bus_never_switches_banks (n : board) (addr val : Z) :
  Cart.prg (Bus.cart (Bus.cpuWrite addr val n)) = Cart.prg (Bus.cart n)
  /\ Cart.mapperInstance (Bus.cart (Bus.cpuWrite addr val n))
     = Cart.mapperInstance (Bus.cart n)
  /\ Cart.mirror (Bus.cart (Bus.cpuWrite addr val n)) = Cart.mirror (Bus.cart n).
Proof.
  unfold Bus.cpuWrite.
  destruct (_ <? 0x2000); [repeat split|].
  destruct (_ <? 0x4000).
  { destruct (PPU_write_cart (0x2000 + (addr .& 0xFFFF .& 7)) (val .& 0xFF)
                (Bus.cart n) (Bus.ppu n)) as (A & B & C & _).
    destruct (PPU.write _ _ _) as [cart' ppu']. cbn [fst] in *.
    repeat split; assumption. }
  destruct (_ =? 0x4014).
  { pose proof (dmaFetch_progress ((val .& 0xFF) << 8) n) as (_ & Hn1 & _).
    destruct (Bus.dmaFetch _ n) as [buf n1]. cbn [fst snd] in *.
    pose proof (reads_frame (map (fun i => (val .& 0xFF) << 8 + i) (seqZ 0 256)) n)
      as (_ & _ & Hc & _).
    rewrite <- Hn1 in Hc. cbn [Bus.cart Bus.set_ppu]. rewrite Hc.
    repeat split. }
  destruct (_ =? 0x4016); [repeat split|].
  destruct (_ && _); [repeat split|].
  destruct (0x8000 <=? _); [repeat split|].
  destruct (0x6000 <=? _); repeat split.
Qed.

(** X4: cartridge SRAM at $6000-$7FFF reads back what was written, and a
    write there leaves every other SRAM cell as it was. *)
Theorem X4_sram_round_trip (n : board) (a a' val : Z) :
  length (Cart.sram (Bus.cart n)) = 0x2000%nat ->
  0x6000 <= a <= 0x7FFF -> 0x6000 <= a' <= 0x7FFF -> 0 <= val <= 255 ->
  fst (Bus.cpuRead a (Bus.cpuWrite a val n)) = #val
  /\ (a' <> a ->
      fst (Bus.cpuRead a' (Bus.cpuWrite a val n)) = fst (Bus.cpuRead a' n)).
Proof.
  intros Hlen Ha Ha' Hval.
  assert (forall b m, 0x6000 <= b <= 0x7FFF ->
            fst (Bus.cpuRead b m) = ta_get (Cart.sram (Bus.cart m)) (b - 0x6000))
    as Hread.
  { intros b m Hb. unfold Bus.cpuRead.
    rewrite land_0xFFFF, Z.mod_small by lia.
    destruct (Z.ltb_spec b 0x2000); [lia|].
    destruct (Z.ltb_spec b 0x4000); [lia|].
    destruct (Z.eqb_spec b 0x4016); [lia|].
    destruct (Z.eqb_spec b 0x4017); [lia|].
    destruct (Z.eqb_spec b 0x4015); [lia|].
    destruct (Z.leb_spec 0x8000 b); [lia|].
    destruct (Z.leb_spec 0x6000 b); [|lia]. reflexivity. }
  assert (Bus.cpuWrite a val n
          = Bus.set_cart
              (Cart.set_sram (ta_set8 (Cart.sram (Bus.cart n)) (a - 0x6000) #val)
                 (Bus.cart n)) n) as ->.
  { unfold Bus.cpuWrite.
    rewrite land_0xFFFF, Z.mod_small by lia.
    rewrite land_0xFF, (Z.mod_small val) by lia.
    destruct (Z.ltb_spec a 0x2000); [lia|].
    destruct (Z.ltb_spec a 0x4000); [lia|].
    destruct (Z.eqb_spec a 0x4014); [lia|].
    destruct (Z.eqb_spec a 0x4016); [lia|].
    destruct (Z.leb_spec a 0x4017); [lia|]. rewrite andb_false_r.
    destruct (Z.leb_spec 0x8000 a); [lia|].
    destruct (Z.leb_spec 0x6000 a); [|lia]. reflexivity. }
  rewrite !Hread by lia. cbn [Bus.cart Bus.set_cart Cart.sram Cart.set_sram].
  split.
  - rewrite ta_get_set8_eq by (unfold len; lia).
    rewrite to_uint8_byte by lia. reflexivity.
  - intros Hne. apply ta_get_set8_ne; lia.
Qed.

(** X5: a read of $8000-$FFFF beyond the end of the PRG image is
    [undefined]: the bus reads [prg[addr - 0x8000]] and mirrors nothing,
    so a 16 KiB image leaves all of $C000-$FFFF undefined. *)
Theorem X5_prg_read_past_end (n : board) (addr : Z) :
  0x8000 + len (Cart.prg (Bus.cart n)) <= addr <= 0xFFFF ->
  Bus.cpuRead addr n = (JUndef, n).
Proof.
  intros Ha. assert (0 <= len (Cart.prg (Bus.cart n))) by (unfold len; lia).
  rewrite cpuRead_prg by lia. unfold Cart.read, ta_get.
  destruct (Z.leb_spec 0x8000 addr); [|lia].
  destruct (Z.ltb_spec (addr - 0x8000) 0); [lia|].
  rewrite lookup_ge_None_2 by (unfold len in *; lia). reflexivity.
Qed.

End AddressSpace.

Lemma X2_ppu_register_mirror_witness :
  Bus.cpuWrite 0x3FF9 0x1E (test_nes [] []) = Bus.cpuWrite 0x2001 0x1E (test_nes [] []).
Proof.
  exact (proj2 (X2_ppu_register_mirror (test_nes [] []) 0x3FF9 0x2001 0x1E
                  ltac:(lia) ltac:(lia) eq_refl)).
Defined.

Lemma X4_sram_round_trip_witness :
  fst (Bus.cpuRead 0x6010 (Bus.cpuWrite 0x6010 0x99 (test_nes [] []))) = #0x99.
Proof.
  exact (proj1 (X4_sram_round_trip (test_nes [] []) 0x6010 0x6011 0x99
                  eq_refl ltac:(lia) ltac:(lia) ltac:(lia))).
Defined.

Lemma X5_prg_read_past_end_witness :
  Bus.cpuRead 0xFFFC (test_nes [] []) = (JUndef, test_nes [] []).
Proof.
  apply (X5_prg_read_past_end (test_nes [] []) 0xFFFC).
  vm_compute. split; discriminate.
Defined.

(** *** Widths of bitwise results *)

Lemma width_by_bits a k :
  0 <= k -> (forall i, k <= i -> Z.testbit a i = false) -> 0 <= a < 2 ^ k.
Proof.
  intros Hk Hbits.
  assert (a mod 2 ^ k = a) as Hmod.
  { apply Z.bits_inj'. intros i Hi. rewrite Z.testbit_mod_pow2 by lia.
    destruct (Z.ltb_spec i k); [reflexivity|]. symmetry. apply Hbits. lia. }
  rewrite <- Hmod. apply Z.mod_pos_bound. apply Z.pow_pos_nonneg; lia.
Qed.

Lemma lor_width a b k :
  0 <= a < 2 ^ k -> 0 <= b < 2 ^ k -> 0 <= a .| b < 2 ^ k.
Proof.
  intros Ha Hb.
  destruct (Z.lt_ge_cases k 0) as [Hneg|Hk];
    [rewrite Z.pow_neg_r in Ha by lia; lia|].
  apply width_by_bits; [exact Hk|]. intros i Hi.
  rewrite Z.lor_spec, (testbit_above a k i), (testbit_above b k i) by lia.
  reflexivity.
Qed.

(** A mask bounds the result of [&], whatever the other operand. *)
Lemma land_width m a k : 0 <= m < 2 ^ k -> 0 <= m .& a < 2 ^ k.
Proof.
  intros Hm.
  destruct (Z.lt_ge_cases k 0) as [Hneg|Hk];
    [rewrite Z.pow_neg_r in Hm by lia; lia|].
  apply width_by_bits; [exact Hk|]. intros i Hi.
  rewrite Z.land_spec, (testbit_above m k i) by lia. reflexivity.
Qed.

Lemma lxor_width a b k :
  0 <= a < 2 ^ k -> 0 <= b < 2 ^ k -> 0 <= Z.lxor a b < 2 ^ k.
Proof.
  intros Ha Hb.
  destruct (Z.lt_ge_cases k 0) as [Hneg|Hk];
    [rewrite Z.pow_neg_r in Ha by lia; lia|].
  apply width_by_bits; [exact Hk|]. intros i Hi.
  rewrite Z.lxor_spec, (testbit_above a k i), (testbit_above b k i) by lia.
  reflexivity.
Qed.

(** *** The PPU register file *)

Lemma shl8_small h : 0 <= h < 256 -> h << 8 = 256 * h.
Proof.
  intros Hh. unfold shl. change (8 .& 31) with 8.
  rewrite Z.shiftl_mul_pow2 by lia. rewrite wrap32_small by lia. lia.
Qed.

Lemma land_0x7F00 a : 0 <= a < 0x8000 -> a .& 0x7F00 = 256 * (a / 256).
Proof.
  intros Ha. apply Z.bits_inj'. intros i Hi.
  rewrite Z.land_spec.
  assert (256 * (a / 256) = Z.shiftl (Z.shiftr a 8) 8) as ->.
  { rewrite Z.shiftl_mul_pow2, Z.shiftr_div_pow2 by lia.
    change (2 ^ 8) with 256. apply Z.mul_comm. }
  change 0x7F00 with (Z.shiftl (Z.ones 7) 8).
  rewrite !Z.shiftl_spec by lia.
  destruct (Z.lt_ge_cases i 8) as [Hlo|Hhi].
  - rewrite !(Z.testbit_neg_r _ (i - 8)) by lia. apply andb_false_r.
  - rewrite Z.shiftr_spec by lia. replace (i - 8 + 8) with i by lia.
    destruct (Z.lt_ge_cases i 15) as [Hin|Hout].
    + rewrite Z.ones_spec_low by lia. apply andb_true_r.
    + rewrite (testbit_above a 15 i) by lia. reflexivity.
Qed.

(** The latch after the two writes, whatever [t] held before. *)
Lemma addr_latch (t0 hi lo : Z) :
  (((t0 .& 0x00FF) .| (((hi .& 0xFF) .& 0x3F) << 8)) .& 0x7F00) .| (lo .& 0xFF)
  = 256 * (hi mod 64) + lo mod 256.
Proof.
  assert ((hi .& 0xFF) .& 0x3F = hi mod 64) as ->.
  { rewrite land_0x3F, land_0xFF. apply Z.mod_mod_divide. exists 4. lia. }
  rewrite !land_0xFF.
  pose proof (Z.mod_pos_bound hi 64 ltac:(lia)) as Hh.
  pose proof (Z.mod_pos_bound t0 256 ltac:(lia)) as Ht.
  pose proof (Z.mod_pos_bound lo 256 ltac:(lia)) as Hl.
  rewrite shl8_small by lia.
  rewrite (Z.lor_comm (t0 mod 256)), lor_page_offset by lia.
  rewrite land_0x7F00 by lia.
  replace ((256 * (hi mod 64) + t0 mod 256) / 256) with (hi mod 64)
    by (apply (Z.div_unique _ 256 _ (t0 mod 256)); lia).
  apply lor_page_offset. lia.
Qed.

Lemma point_to_spec c s hi lo :
  PPU.w s = 0 ->
  point_to hi lo (c, s)
  = (c, PPU.set_w 0
          (PPU.set_v (256 * (hi mod 64) + lo mod 256)
             (PPU.set_t (256 * (hi mod 64) + lo mod 256) s))).
Proof.
  intros Hw. unfold point_to, PPU.write.
  change (0x2006 .& 7) with 6. cbn [Z.eqb Pos.eqb]. rewrite Hw.
  cbn [Z.eqb PPU.w PPU.set_w PPU.set_t PPU.t PPU.set_v].
  rewrite addr_latch. reflexivity.
Qed.

(** X6: a read of $2002 returns the three status flags over the low five
    bits of the read buffer, clears the VBlank flag and the write toggle,
    and leaves sprite-0 hit and overflow in place; a second read right
    after it reports VBlank clear. *)
Theorem X6_status_read_clears_vblank (c : Cart.Cartridge) (s : PPU.state) :
  let r1 := PPU.read c 0x2002 s in
  let r2 := PPU.read c 0x2002 (snd r1) in
  fst r1 = #((PPU.status s .& 0xE0) .| (to_int32 (PPU.buffered s) .& 0x1F))
  /\ Z.testbit (to_int32 (fst r2)) 7 = false
  /\ Z.testbit (PPU.status (snd r1)) 7 = false
  /\ Z.testbit (PPU.status (snd r1)) 6 = Z.testbit (PPU.status s) 6
  /\ Z.testbit (PPU.status (snd r1)) 5 = Z.testbit (PPU.status s) 5
  /\ PPU.w (snd r1) = 0.
Proof.
  unfold PPU.read. change (0x2002 .& 7) with 2. cbn [Z.eqb Pos.eqb fst snd].
  cbn [PPU.status PPU.set_status PPU.set_w PPU.buffered PPU.w].
  split; [reflexivity|]. split.
  - unfold to_int32 at 1. cbn [to_number].
    set (res := (_ .| _)).
    assert (0 <= res < 2 ^ 8) as Hres.
    { subst res. apply lor_width.
      - rewrite Z.land_comm. apply land_width. lia.
      - rewrite Z.land_comm. apply land_width. lia. }
    rewrite wrap32_small by lia. subst res.
    rewrite Z.lor_spec, !Z.land_spec. cbn. rewrite !andb_false_r. reflexivity.
  - repeat split; rewrite Z.land_spec; cbn;
      rewrite ?andb_false_r, ?andb_true_r; reflexivity.
Qed.

(** X7: after a read of $2002, two writes to $2006 point [v] (and [t]) at
    the 14-bit address made of the low six bits of the first byte and the
    second byte, whatever [t] and the toggle held before. *)
Theorem X7_address_latch (c : Cart.Cartridge) (s : PPU.state) (hi lo : Z) :
  let cs := point_to hi lo (c, snd (PPU.read c 0x2002 s)) in
  fst cs = c
  /\ PPU.v (snd cs) = 256 * (hi mod 64) + lo mod 256
  /\ PPU.t (snd cs) = 256 * (hi mod 64) + lo mod 256
  /\ PPU.w (snd cs) = 0.
Proof.
  cbv zeta. rewrite point_to_spec.
  - repeat split.
  - unfold PPU.read. change (0x2002 .& 7) with 2. reflexivity.
Qed.

Lemma land_0x3FFF_small a : 0 <= a < 0x4000 -> a .& 0x3FFF = a.
Proof.
  intros Ha. change 0x3FFF with (Z.ones 14). rewrite Z.land_ones by lia.
  apply Z.mod_small. lia.
Qed.



Lemma ppuWrite_nametable c s addr val :
  0x2000 <= addr < 0x3F00 ->
  PPU.ppuWrite addr val (c, s)
  = (c, PPU.set_vram
          (ta_set8 (PPU.vram s) (PPU.ntIndex s addr .& 0x7FF) #(val .& 0xFF)) s).
Proof.
  intros Ha. unfold PPU.ppuWrite. rewrite land_0x3FFF_small by lia.
  destruct (Z.ltb_spec addr 0x2000); [lia|].
  destruct (Z.ltb_spec addr 0x3F00); [|lia]. reflexivity.
Qed.



Lemma land_byte_twice val : (val .& 0xFF) .& 0xFF = val mod 256.
Proof. rewrite !land_0xFF. apply Z.mod_mod. lia. Qed.



(** X9: the OAM port. A byte stored through $2003/$2004 lands in
    [oam[idx]] and moves [oamaddr] on by one, wrapping from 255 to 0;
    pointing $2003 back at the index, a read of $2004 returns the byte and
    does not move [oamaddr]. *)
Theorem X9_oam_port_round_trip (c : Cart.Cartridge) (s : PPU.state)
    (idx val : Z) :
  length (PPU.oam s) = 256%nat ->
  let cs := oam_store idx val (c, s) in
  let back := PPU.write 0x2003 idx cs in
  PPU.oamaddr (snd cs) = (idx mod 256 + 1) mod 256
  /\ ta_get (PPU.oam (snd cs)) (idx mod 256) = #(val mod 256)
  /\ PPU.read (fst back) 0x2004 (snd back) = (#(val mod 256), snd back).
Proof.
  intros Hlen. unfold oam_store, PPU.write.
  change (0x2003 .& 7) with 3. change (0x2004 .& 7) with 4.
  cbn [Z.eqb Pos.eqb fst snd PPU.oam PPU.oamaddr PPU.set_oam PPU.set_oamaddr].
  unfold PPU.read. change (0x2004 .& 7) with 4.
  cbn [Z.eqb Pos.eqb fst snd PPU.oam PPU.oamaddr PPU.set_oam PPU.set_oamaddr].
  rewrite !land_byte_twice. rewrite !land_0xFF.
  pose proof (Z.mod_pos_bound idx 256 ltac:(lia)) as Hi.
  pose proof (Z.mod_pos_bound val 256 ltac:(lia)) as Hv.
  rewrite !(Z.mod_mod idx 256) by lia.
  rewrite ta_get_set8_eq by (unfold len; lia).
  rewrite to_uint8_byte by lia.
  repeat split.
Qed.

Lemma X9_oam_port_round_trip_witness :
  PPU.oamaddr (snd (oam_store 0xFF 0x5A (test_cart [], PPU.new Cart.horizontal)))
  = (0xFF mod 256 + 1) mod 256.
Proof.
  exact (proj1 (X9_oam_port_round_trip (test_cart []) (PPU.new Cart.horizontal)
                  0xFF 0x5A eq_refl)).
Defined.

(** *** Nametable mirroring *)

Lemma land_0xFFF a : a .& 0x0FFF = a mod 4096.
Proof. change 0x0FFF with (Z.ones 12). rewrite Z.land_ones by lia. reflexivity. Qed.

Lemma land_0x3FF a : a .& 0x03FF = a mod 1024.
Proof. change 0x03FF with (Z.ones 10). rewrite Z.land_ones by lia. reflexivity. Qed.

(** The cell of VRAM behind the [k]-th logical nametable, at offset [off],
    seen through $2000 or through its mirror at $3000. *)
Lemma ntIndex_table s base k off :
  base = 0x2000 \/ base = 0x3000 ->
  0 <= k < 4 -> 0 <= off < 0x400 ->
  PPU.ntIndex s (base + 0x400 * k + off)
  = match PPU.mirror s with
    | Cart.vertical => (k mod 2) * 0x400 + off
    | Cart.horizontal => (k / 2) * 0x400 + off
    | _ => off
    end.
Proof.
  intros Hbase Hk Hoff. unfold PPU.ntIndex.
  rewrite land_0xFFF.
  assert ((base + 0x400 * k + off) mod 4096 = 0x400 * k + off) as ->.
  { destruct Hbase as [-> | ->].
    - symmetry. apply (Z.mod_unique _ _ 2); lia.
    - symmetry. apply (Z.mod_unique _ _ 3); lia. }
  rewrite land_0x3FF.
  assert ((0x400 * k + off) mod 1024 = off) as ->
    by (symmetry; apply (Z.mod_unique _ _ k); lia).
  assert ((0x400 * k + off) >> 10 = k) as ->.
  { unfold shr. change (10 .& 31) with 10. rewrite Z.shiftr_div_pow2 by lia.
    change (2 ^ 10) with 1024. symmetry. apply (Z.div_unique _ _ _ off); lia. }
  assert (k = 0 \/ k = 1 \/ k = 2 \/ k = 3) as Hcases by lia.
  destruct (PPU.mirror s);
    destruct Hcases as [-> | [-> | [-> | ->]]]; reflexivity.
Qed.

Lemma ntIndex_width s addr : 0 <= PPU.ntIndex s addr .& 0x7FF < 0x800.
Proof. exact (land_mask_range (PPU.ntIndex s addr) 11 ltac:(lia)). Qed.

(** A nametable read after a nametable write: the byte written when both
    addresses fall on one cell, the old byte otherwise. *)
Lemma nametable_read_after_write c s a a' val :
  length (PPU.vram s) = Z.to_nat 0x800 ->
  0x2000 <= a < 0x3F00 -> 0x2000 <= a' < 0x3F00 ->
  let cs := PPU.ppuWrite a val (c, s) in
  PPU.ppuRead (fst cs) (snd cs) a'
  = if PPU.ntIndex s a .& 0x7FF =? PPU.ntIndex s a' .& 0x7FF
    then #(val mod 256) else PPU.ppuRead c s a'.
Proof.
  intros Hlen Ha Ha'. cbv zeta. rewrite ppuWrite_nametable by lia.
  cbn [fst snd]. rewrite !ppuRead_nametable by lia.
  cbn [PPU.vram PPU.set_vram].
  assert (forall z, PPU.ntIndex
                      (PPU.set_vram
                         (ta_set8 (PPU.vram s) (PPU.ntIndex s a .& 0x7FF) #(val .& 0xFF))
                         s) z = PPU.ntIndex s z) as Hnt by reflexivity.
  rewrite Hnt.
  pose proof (ntIndex_width s a) as Hi. pose proof (ntIndex_width s a') as Hi'.
  destruct (Z.eqb_spec (PPU.ntIndex s a .& 0x7FF) (PPU.ntIndex s a' .& 0x7FF))
    as [Heq|Hne].
  - rewrite <- Heq, ta_get_set8_eq by (unfold len; lia).
    rewrite land_0xFF, to_uint8_byte by (apply Z.mod_pos_bound; lia).
    reflexivity.
  - apply ta_get_set8_ne; lia.
Qed.

Lemma land_0x7FF_small a : 0 <= a < 0x800 -> a .& 0x7FF = a.
Proof. intros Ha. rewrite land_0x7FF. apply Z.mod_small. lia. Qed.

(** X10: nametable mirroring, for a byte written into the first logical
    nametable ($2000-$23FF). With horizontal mirroring it shows at +$400
    and not at +$800 or +$C00; with vertical mirroring it shows at +$800
    and not at +$400 or +$C00; with any other mirroring of the cartridge
    (single0, single1) it shows in all four nametables. *)
Theorem X10_nametable_mirroring (c : Cart.Cartridge) (s : PPU.state)
    (a val : Z) :
  length (PPU.vram s) = Z.to_nat 0x800 ->
  0x2000 <= a <= 0x23FF ->
  let cs := PPU.ppuWrite a val (c, s) in
  let after x := PPU.ppuRead (fst cs) (snd cs) x in
  let before x := PPU.ppuRead c s x in
  after a = #(val mod 256)
  /\ match PPU.mirror s with
     | Cart.horizontal =>
         after (a + 0x400) = #(val mod 256)
         /\ after (a + 0x800) = before (a + 0x800)
         /\ after (a + 0xC00) = before (a + 0xC00)
     | Cart.vertical =>
         after (a + 0x400) = before (a + 0x400)
         /\ after (a + 0x800) = #(val mod 256)
         /\ after (a + 0xC00) = before (a + 0xC00)
     | _ =>
         after (a + 0x400) = #(val mod 256)
         /\ after (a + 0x800) = #(val mod 256)
         /\ after (a + 0xC00) = #(val mod 256)
     end.
Proof.
  intros Hlen Ha cs after before. subst after before cs. cbv beta.
  assert (forall k, 0 <= k < 4 ->
            PPU.ntIndex s (a + 0x400 * k)
            = match PPU.mirror s with
              | Cart.vertical => (k mod 2) * 0x400 + (a - 0x2000)
              | Cart.horizontal => (k / 2) * 0x400 + (a - 0x2000)
              | _ => a - 0x2000
              end) as Hnt.
  { intros k Hk.
    replace (a + 0x400 * k) with (0x2000 + 0x400 * k + (a - 0x2000)) by lia.
    apply ntIndex_table; [left; reflexivity|lia|lia]. }
  pose proof (Hnt 0 ltac:(lia)) as H0. pose proof (Hnt 1 ltac:(lia)) as H1.
  pose proof (Hnt 2 ltac:(lia)) as H2. pose proof (Hnt 3 ltac:(lia)) as H3.
  change (0x400 * 0) with 0 in H0. rewrite Z.add_0_r in H0.
  change (0x400 * 1) with 0x400 in H1. change (0x400 * 2) with 0x800 in H2.
  change (0x400 * 3) with 0xC00 in H3.
  pose proof (nametable_read_after_write c s a a val Hlen
                ltac:(lia) ltac:(lia)) as Ra.
  pose proof (nametable_read_after_write c s a (a + 0x400) val Hlen
                ltac:(lia) ltac:(lia)) as R1.
  pose proof (nametable_read_after_write c s a (a + 0x800) val Hlen
                ltac:(lia) ltac:(lia)) as R2.
  pose proof (nametable_read_after_write c s a (a + 0xC00) val Hlen
                ltac:(lia) ltac:(lia)) as R3.
  cbv zeta in Ra, R1, R2, R3.
  rewrite Ra, R1, R2, R3, H0, H1, H2, H3. rewrite Z.eqb_refl.
  split; [reflexivity|].
  destruct (PPU.mirror s);
    change (0 mod 2) with 0; change (1 mod 2) with 1; change (2 mod 2) with 0;
    change (3 mod 2) with 1; change (0 / 2) with 0; change (1 / 2) with 0;
    change (2 / 2) with 1; change (3 / 2) with 1;
    rewrite !land_0x7FF_small by lia;
    repeat match goal with
           | |- context [?x =? ?y] => destruct (Z.eqb_spec x y); try lia
           end;
    repeat split.
Qed.

Lemma X10_nametable_mirroring_witness :
  PPU.ppuRead
    (fst (PPU.ppuWrite 0x2005 0x77 (test_cart [], PPU.new Cart.horizontal)))
    (snd (PPU.ppuWrite 0x2005 0x77 (test_cart [], PPU.new Cart.horizontal)))
    (0x2005 + 0x400)
  = #(0x77 mod 256).
Proof.
  pose proof (X10_nametable_mirroring (test_cart []) (PPU.new Cart.horizontal)
                0x2005 0x77 eq_refl ltac:(lia)) as Hm.
  cbv zeta in Hm. destruct Hm as [_ Hm].
  change (PPU.mirror (PPU.new Cart.horizontal)) with Cart.horizontal in Hm.
  exact (proj1 Hm).
Defined.

(** X11: $3000-$3EFF mirrors $2000-$2EFF, whatever the cartridge's
    mirroring: a byte written through either window is read back through
    the other. *)
Theorem X11_nametable_3000_mirror (c : Cart.Cartridge) (s : PPU.state)
    (a val : Z) :
  length (PPU.vram s) = Z.to_nat 0x800 ->
  0x2000 <= a <= 0x2EFF ->
  (let cs := PPU.ppuWrite a val (c, s) in
   PPU.ppuRead (fst cs) (snd cs) (a + 0x1000) = #(val mod 256))
  /\ (let cs := PPU.ppuWrite (a + 0x1000) val (c, s) in
      PPU.ppuRead (fst cs) (snd cs) a = #(val mod 256)).
Proof.
  intros Hlen Ha.
  assert (PPU.ntIndex s (a + 0x1000) = PPU.ntIndex s a) as Hsame.
  { unfold PPU.ntIndex. rewrite !land_0xFFF.
    replace (a + 0x1000) with (a + 1 * 4096) by lia.
    rewrite Z.mod_add by lia. reflexivity. }
  pose proof (nametable_read_after_write c s a (a + 0x1000) val Hlen
                ltac:(lia) ltac:(lia)) as R1.
  pose proof (nametable_read_after_write c s (a + 0x1000) a val Hlen
                ltac:(lia) ltac:(lia)) as R2.
  cbv zeta in *. rewrite R1, R2, Hsame, Z.eqb_refl. split; reflexivity.
Qed.

Lemma X11_nametable_3000_mirror_witness :
  PPU.ppuRead
    (fst (PPU.ppuWrite 0x3123 0x42 (test_cart [], PPU.new Cart.vertical)))
    (snd (PPU.ppuWrite 0x3123 0x42 (test_cart [], PPU.new Cart.vertical)))
    0x2123
  = #(0x42 mod 256).
Proof.
  exact (proj2 (X11_nametable_3000_mirror (test_cart []) (PPU.new Cart.vertical)
                  0x2123 0x42 eq_refl ltac:(lia))).
Defined.

(** *** The PPU step: read-only on memory, and the beam *)

Lemma keeps_memory_refl s : keeps_memory s s.
Proof. repeat split. Qed.

Lemma keeps_memory_trans s1 s2 s3 :
  keeps_memory s1 s2 -> keeps_memory s2 s3 -> keeps_memory s1 s3.
Proof.
  unfold keeps_memory. intros H12 H23.
  repeat match goal with H : _ /\ _ |- _ => destruct H end.
  repeat split; congruence.
Qed.

(** A loop whose iterations each stay within a preorder stays within it. *)
Lemma for_within {St : Type} (R : St -> St -> Prop) n
    (body : Z -> St -> St) (s : St) :
  (forall a, R a a) -> (forall a b c, R a b -> R b c -> R a c) ->
  (forall i s', R s' (body i s')) ->
  R s (PPU.for_ n body s).
Proof.
  intros Hrefl Htrans Hbody. unfold PPU.for_.
  assert (forall l acc, R s acc -> R s (foldl (fun acc i => body i acc) acc l))
    as Hfold.
  { induction l as [|i l IH]; intros acc Hacc; simpl; [exact Hacc|].
    apply IH. eapply Htrans; [exact Hacc|apply Hbody]. }
  apply Hfold, Hrefl.
Qed.

Lemma for_break_within {St : Type} (R : St -> St -> Prop) n
    (body : Z -> St -> bool * St) (s : St) :
  (forall a, R a a) -> (forall a b c, R a b -> R b c -> R a c) ->
  (forall i s', R s' (snd (body i s'))) ->
  R s (PPU.for_break n body s).
Proof.
  intros Hrefl Htrans Hbody. apply (for_break_invariant (R s)).
  - apply Hrefl.
  - intros i s' Hs'. eapply Htrans; [exact Hs'|apply Hbody].
Qed.

Ltac mem_loop :=
  first [ apply (for_within keeps_memory)
        | apply (for_break_within keeps_memory) ];
  [ exact keeps_memory_refl | exact keeps_memory_trans | ].

Ltac mem_frame := split_ifs; unfold keeps_memory; cbn; repeat split.

Lemma fetchName_memory c s : keeps_memory s (PPU.fetchName c s).
Proof. unfold PPU.fetchName. mem_frame. Qed.
Lemma fetchAttr_memory c s : keeps_memory s (PPU.fetchAttr c s).
Proof. unfold PPU.fetchAttr. mem_frame. Qed.
Lemma fetchPatternLow_memory c s : keeps_memory s (PPU.fetchPatternLow c s).
Proof. unfold PPU.fetchPatternLow. mem_frame. Qed.
Lemma fetchPatternHigh_memory c s : keeps_memory s (PPU.fetchPatternHigh c s).
Proof. unfold PPU.fetchPatternHigh. mem_frame. Qed.
Lemma loadBGShiftRegisters_memory s :
  keeps_memory s (PPU.loadBGShiftRegisters s).
Proof. unfold PPU.loadBGShiftRegisters. mem_frame. Qed.
Lemma plot_memory xpos ypos i s : keeps_memory s (PPU.plot xpos ypos i s).
Proof. unfold PPU.plot. mem_frame. Qed.

Lemma renderPixel_memory xpos ypos s :
  keeps_memory s (PPU.renderPixel xpos ypos s).
Proof.
  unfold PPU.renderPixel.
  destruct (PPU.bgSample s) as [bgPixel bgPalette].
  destruct (PPU.spriteSample s) as [[[spritePixel spritePal] spritePriority] zero].
  eapply keeps_memory_trans; [|apply plot_memory].
  destruct (_ && _ && _ && _); [|apply keeps_memory_refl]. mem_frame.
Qed.

Lemma shiftSlot_memory i s : keeps_memory s (PPU.shiftSlot i s).
Proof. unfold PPU.shiftSlot. mem_frame. Qed.

Lemma stepShifters_memory s : keeps_memory s (PPU.stepShifters s).
Proof.
  unfold PPU.stepShifters.
  match goal with
  | |- keeps_memory s (if _ then _ else ?s1) =>
      assert (keeps_memory s s1) as H1 by mem_frame; generalize dependent s1
  end.
  intros s1 H1. destruct (negb _); [|exact H1].
  eapply keeps_memory_trans; [exact H1|]. mem_loop. apply shiftSlot_memory.
Qed.

(** The scroll helpers write [v] and nothing else. *)
Lemma incCoarseX_memory s : keeps_memory s (PPU.incCoarseX s).
Proof. unfold PPU.incCoarseX. mem_frame. Qed.
Lemma incY_memory s : keeps_memory s (PPU.incY s).
Proof. unfold PPU.incY. mem_frame. Qed.
Lemma copyX_memory s : keeps_memory s (PPU.copyX s).
Proof. unfold PPU.copyX. mem_frame. Qed.
Lemma copyY_memory s : keeps_memory s (PPU.copyY s).
Proof. unfold PPU.copyY. mem_frame. Qed.

Lemma scanOAM_memory i s : keeps_memory s (snd (PPU.scanOAM i s)).
Proof. unfold PPU.scanOAM. mem_frame. Qed.
Lemma loadSlot_memory i s : keeps_memory s (PPU.loadSlot i s).
Proof. unfold PPU.loadSlot. mem_frame. Qed.

Lemma evaluateSprites_memory s : keeps_memory s (PPU.evaluateSprites s).
Proof.
  unfold PPU.evaluateSprites.
  eapply keeps_memory_trans; [|mem_loop; apply loadSlot_memory].
  eapply keeps_memory_trans; [|mem_loop; apply scanOAM_memory].
  eapply keeps_memory_trans; [|mem_loop; intros i s'; mem_frame].
  mem_frame.
Qed.

Lemma fetchSlot_memory c i s : keeps_memory s (PPU.fetchSlot c i s).
Proof.
  unfold PPU.fetchSlot.
  destruct (js_is _ _); [mem_frame|].
  destruct (if _ =? 16 then _ else _) as [[table tile] fineY].
  destruct (if negb _ then _ else _) as [lo hi].
  mem_frame.
Qed.

Lemma fetchSpritePatterns_memory c s :
  keeps_memory s (PPU.fetchSpritePatterns c s).
Proof. unfold PPU.fetchSpritePatterns. mem_loop. apply fetchSlot_memory. Qed.

Lemma visibleDot_memory c re s : keeps_memory s (PPU.visibleDot c re s).
Proof.
  unfold PPU.visibleDot.
  set (s1 := if PPU.cycle s .& 7 =? 1 then _ else _).
  assert (keeps_memory s s1) as H1.
  { subst s1.
    repeat match goal with
           | |- context [if ?b then _ else _] => destruct b
           end;
      auto using fetchName_memory, fetchAttr_memory, fetchPatternLow_memory,
        fetchPatternHigh_memory, loadBGShiftRegisters_memory, keeps_memory_refl. }
  clearbody s1.
  set (s2 := if re then _ else _).
  assert (keeps_memory s1 s2) as H2.
  { subst s2. destruct re; [apply renderPixel_memory|apply plot_memory]. }
  clearbody s2.
  assert (keeps_memory s2 (PPU.stepShifters s2)) as H3
    by apply stepShifters_memory.
  destruct (_ =? 0).
  - eauto using keeps_memory_trans, incCoarseX_memory.
  - eauto using keeps_memory_trans.
Qed.

Lemma spriteDot_memory c re s : keeps_memory s (PPU.spriteDot c re s).
Proof.
  unfold PPU.spriteDot. destruct re; [|apply keeps_memory_refl].
  eapply keeps_memory_trans; [apply copyX_memory|].
  eapply keeps_memory_trans; [apply evaluateSprites_memory|].
  eapply keeps_memory_trans; [apply fetchSpritePatterns_memory|].
  mem_loop. intros i s'. mem_frame.
Qed.

Lemma visibleLine_memory c re s : keeps_memory s (PPU.visibleLine c re s).
Proof.
  unfold PPU.visibleLine.
  destruct (_ && _); [|apply keeps_memory_refl].
  set (s1 := if (1 <=? PPU.cycle s) && _ then _ else _).
  assert (keeps_memory s s1) as H1.
  { subst s1. destruct (_ && _);
      [apply visibleDot_memory|apply keeps_memory_refl]. }
  clearbody s1.
  set (s2 := if PPU.cycle s1 =? 257 then _ else _).
  assert (keeps_memory s1 s2) as H2.
  { subst s2. destruct (_ =? 257);
      [apply spriteDot_memory|apply keeps_memory_refl]. }
  clearbody s2.
  destruct (_ =? 256); [|eauto using keeps_memory_trans].
  destruct re; eauto using keeps_memory_trans, incY_memory.
Qed.

(** Everything [step] does before it moves the beam. *)
Lemma step_before_advance c s :
  exists s', PPU.step c s = PPU.advance s' /\ keeps_memory s s'.
Proof.
  unfold PPU.step. cbv zeta. eexists. split; [reflexivity|].
  eapply keeps_memory_trans; [|unfold PPU.enterVBlank; mem_frame].
  eapply keeps_memory_trans;
    [|unfold PPU.preRenderCopy; destruct (_ =? 261);
      [destruct (_ && _ && _); [apply copyY_memory|apply keeps_memory_refl]
      |apply keeps_memory_refl]].
  eapply keeps_memory_trans; [|apply visibleLine_memory].
  unfold PPU.preRenderClear. mem_frame.
Qed.

(** X12: a PPU step never writes OAM, VRAM or palette RAM, and never
    touches [oamaddr], the scroll latches [t], [x], [w], the read buffer or
    the control and mask registers: rendering only reads them. *)
Theorem X12_step_reads_memory_only (c : Cart.Cartridge) (s : PPU.state) :
  PPU.oam (PPU.step c s) = PPU.oam s
  /\ PPU.vram (PPU.step c s) = PPU.vram s
  /\ PPU.palette (PPU.step c s) = PPU.palette s
  /\ PPU.oamaddr (PPU.step c s) = PPU.oamaddr s
  /\ PPU.t (PPU.step c s) = PPU.t s
  /\ PPU.x (PPU.step c s) = PPU.x s
  /\ PPU.w (PPU.step c s) = PPU.w s
  /\ PPU.buffered (PPU.step c s) = PPU.buffered s
  /\ PPU.ctrl (PPU.step c s) = PPU.ctrl s
  /\ PPU.mask (PPU.step c s) = PPU.mask s.
Proof.
  destruct (step_before_advance c s) as (s' & -> & Hkeep).
  unfold keeps_memory in Hkeep.
  repeat match goal with H : _ /\ _ |- _ => destruct H end.
  assert (forall z, keeps_memory z z) as _ by apply keeps_memory_refl.
  unfold PPU.advance. split_ifs; cbn; repeat split; assumption.
Qed.

(** One step moves the beam by one dot. *)
Lemma step_beam c s :
  0 <= PPU.cycle s <= 340 -> 0 <= PPU.scanline s <= 261 ->
  let s' := PPU.step c s in
  0 <= PPU.cycle s' <= 340 /\ 0 <= PPU.scanline s' <= 261
  /\ dot_index s' = (dot_index s + 1) mod dots_per_frame
  /\ PPU.frame s' = PPU.frame s + (dot_index s + 1) / dots_per_frame.
Proof.
  intros Hc Hl. cbv zeta.
  destruct (step_before_advance c s) as (s1 & -> & Hkeep).
  unfold keeps_memory in Hkeep.
  repeat match goal with H : _ /\ _ |- _ => destruct H end.
  unfold dot_index, dots_per_frame, PPU.advance.
  cbn [PPU.cycle PPU.set_cycle PPU.scanline PPU.set_scanline PPU.frame
       PPU.set_frame].
  destruct (Z.ltb_spec 340 (PPU.cycle s1 + 1)).
  - cbn [PPU.cycle PPU.set_cycle PPU.scanline PPU.set_scanline PPU.frame
         PPU.set_frame].
    destruct (Z.ltb_spec 261 (PPU.scanline s1 + 1));
      cbn [PPU.cycle PPU.set_cycle PPU.scanline PPU.set_scanline PPU.frame
           PPU.set_frame].
    + assert (PPU.cycle s = 340 /\ PPU.scanline s = 261) as [Ec El] by lia.
      rewrite Ec, El.
      change ((341 * 261 + 340 + 1) mod (341 * 262)) with 0.
      change ((341 * 261 + 340 + 1) / (341 * 262)) with 1.
      repeat split; try lia.
    + assert (PPU.cycle s = 340) as Ec by lia. rewrite Ec.
      split; [lia|]. split; [lia|]. split.
      * rewrite Z.mod_small by lia. lia.
      * rewrite Z.div_small by lia. lia.
  - cbn [PPU.cycle PPU.set_cycle PPU.scanline PPU.set_scanline PPU.frame
         PPU.set_frame].
    split; [lia|]. split; [lia|]. split.
    + rewrite Z.mod_small by lia. lia.
    + rewrite Z.div_small by lia. lia.
Qed.

(** X13: the beam. From a position within the 341 x 262 grid, [n] steps
    stay within the grid, move the beam [n] dots on, wrapping at the end of
    the frame, and raise the frame counter once per wrap: 89342 steps are
    exactly one frame. *)
Theorem X13_beam_advances (c : Cart.Cartridge) (s : PPU.state) (n : nat) :
  0 <= PPU.cycle s <= 340 -> 0 <= PPU.scanline s <= 261 ->
  let s' := Nat.iter n (PPU.step c) s in
  0 <= PPU.cycle s' <= 340 /\ 0 <= PPU.scanline s' <= 261
  /\ dot_index s' = (dot_index s + Z.of_nat n) mod dots_per_frame
  /\ PPU.frame s' = PPU.frame s + (dot_index s + Z.of_nat n) / dots_per_frame.
Proof.
  intros Hc Hl. cbv zeta.
  assert (0 <= dot_index s < dots_per_frame) as Hidx
    by (unfold dot_index, dots_per_frame; lia).
  induction n as [|k IH].
  - change (Nat.iter 0 (PPU.step c) s) with s. change (Z.of_nat 0) with 0. rewrite !Z.add_0_r.
    rewrite Z.mod_small by exact Hidx. rewrite Z.div_small by exact Hidx. lia.
  - rewrite Nat.iter_succ. destruct IH as (Hc' & Hl' & Hi & Hf).
    destruct (step_beam c (Nat.iter k (PPU.step c) s) Hc' Hl')
      as (Hc2 & Hl2 & Hi2 & Hf2).
    split; [exact Hc2|]. split; [exact Hl2|].
    rewrite Hi2, Hf2, Hi, Hf. unfold dots_per_frame in *.
    replace (dot_index s + Z.of_nat (S k)) with (dot_index s + Z.of_nat k + 1)
      by lia.
    set (m := dot_index s + Z.of_nat k).
    change (341 * 262) with 89342 in *.
    pose proof (Z.div_mod m 89342 ltac:(lia)) as Hdm.
    pose proof (Z.mod_pos_bound m 89342 ltac:(lia)) as Hmb.
    split.
    + rewrite Z.add_mod_idemp_l by lia. reflexivity.
    + destruct (Z.eq_dec (m mod 89342) 89341) as [Heq|Hne].
      * rewrite Heq. change ((89341 + 1) / 89342) with 1.
        assert ((m + 1) / 89342 = m / 89342 + 1) as ->; [|lia].
        symmetry. apply (Z.div_unique _ _ _ 0); lia.
      * rewrite (Z.div_small (m mod 89342 + 1)) by lia.
        assert ((m + 1) / 89342 = m / 89342) as ->; [|lia].
        symmetry. apply (Z.div_unique _ _ _ (m mod 89342 + 1)); lia.
Qed.

Lemma X13_beam_advances_witness :
  dot_index (Nat.iter 3 (PPU.step (test_cart [])) (PPU.new Cart.horizontal))
  = (dot_index (PPU.new Cart.horizontal) + Z.of_nat 3) mod dots_per_frame.
Proof.
  pose proof (X13_beam_advances (test_cart []) (PPU.new Cart.horizontal) 3)
    as Hbeam.
  cbv zeta in Hbeam.
  refine (proj1 (proj2 (proj2 (Hbeam _ _)))); simpl; lia.
Defined.

(** *** What the CPU leaves alone *)

Section CPUFrame.
Context {Pad Apu : Type} `{Peripherals Pad Apu}.
Abbreviation console := (@Bus.nes Pad Apu).
Local Abbreviation keeps m := (@preserves Pad Apu _ m).

Lemma cpu_frame_refl (n : console) : cpu_frame n n.
Proof. repeat split. Qed.

Lemma cpu_frame_trans (n1 n2 n3 : console) :
  cpu_frame n1 n2 -> cpu_frame n2 n3 -> cpu_frame n1 n3.
Proof.
  unfold cpu_frame. intros (A & B & C & D & E & F) (A' & B' & C' & D' & E' & F').
  repeat split; congruence.
Qed.

Lemma PPU_read_beam c addr s :
  PPU.cycle (snd (PPU.read c addr s)) = PPU.cycle s
  /\ PPU.scanline (snd (PPU.read c addr s)) = PPU.scanline s
  /\ PPU.frame (snd (PPU.read c addr s)) = PPU.frame s.
Proof.
  unfold PPU.read.
  destruct (_ =? 2); [repeat split|].
  destruct (_ =? 4); [repeat split|].
  destruct (_ =? 7); [|repeat split].
  destruct (0x3F00 <=? _); repeat split.
Qed.

Lemma PPU_write_beam addr val c s :
  PPU.cycle (snd (PPU.write addr val (c, s))) = PPU.cycle s
  /\ PPU.scanline (snd (PPU.write addr val (c, s))) = PPU.scanline s
  /\ PPU.frame (snd (PPU.write addr val (c, s))) = PPU.frame s.
Proof.
  unfold PPU.write.
  destruct (_ =? 0); [repeat split|].
  destruct (_ =? 1); [repeat split|].
  destruct (_ =? 3); [repeat split|].
  destruct (_ =? 4); [repeat split|].
  destruct (_ =? 5); [destruct (_ =? 0); repeat split|].
  destruct (_ =? 6); [destruct (_ =? 0); repeat split|].
  destruct (_ =? 7); [|repeat split].
  unfold PPU.ppuWrite.
  destruct (_ <? 0x2000); [repeat split|].
  destruct (_ <? 0x3F00); repeat split.
Qed.

Lemma doDMA_beam buf s :
  PPU.cycle (PPU.doDMA buf s) = PPU.cycle s
  /\ PPU.scanline (PPU.doDMA buf s) = PPU.scanline s
  /\ PPU.frame (PPU.doDMA buf s) = PPU.frame s.
Proof.
  unfold PPU.doDMA.
  apply (for_invariant
           (fun _ s' => PPU.cycle s' = PPU.cycle s
                        /\ PPU.scanline s' = PPU.scanline s
                        /\ PPU.frame s' = PPU.frame s) 256).
  - repeat split.
  - intros i s' _ Hs'. exact Hs'.
Qed.

Lemma cpuRead_cpu_frame addr (n : console) :
  cpu_frame n (snd (Bus.cpuRead addr n)).
Proof.
  unfold Bus.cpuRead.
  destruct (_ <? 0x2000); [apply cpu_frame_refl|].
  destruct (_ <? 0x4000).
  { pose proof (PPU_read_beam (Bus.cart n) (0x2000 + (addr .& 0xFFFF .& 7))
                  (Bus.ppu n)) as (A & B & C).
    destruct (PPU.read _ _ _) as [r ppu']. cbn [snd] in *.
    repeat split; assumption. }
  destruct (_ =? 0x4016); [destruct (pad_read _); repeat split|].
  destruct (_ =? 0x4017); [destruct (pad_read _); repeat split|].
  destruct (_ =? 0x4015); [destruct (apu_read _ _); repeat split|].
  destruct (0x8000 <=? _); [apply cpu_frame_refl|].
  destruct (0x6000 <=? _); apply cpu_frame_refl.
Qed.

Lemma reads_cpu_frame addrs (n : console) : cpu_frame n (snd (reads addrs n)).
Proof.
  revert n. induction addrs as [|b addrs IH]; intros n; simpl;
    [apply cpu_frame_refl|].
  pose proof (cpuRead_cpu_frame b n) as Hb.
  destruct (Bus.cpuRead b n) as [r n1]. specialize (IH n1).
  destruct (reads addrs n1) as [rs n2]. simpl in *.
  eapply cpu_frame_trans; eassumption.
Qed.

Lemma cpuWrite_cpu_frame addr val (n : console) :
  cpu_frame n (Bus.cpuWrite addr val n).
Proof.
  unfold Bus.cpuWrite.
  destruct (_ <? 0x2000); [repeat split|].
  destruct (_ <? 0x4000).
  { destruct (PPU_write_cart (0x2000 + (addr .& 0xFFFF .& 7)) (val .& 0xFF)
                (Bus.cart n) (Bus.ppu n)) as (A & B & C & _).
    destruct (PPU_write_beam (0x2000 + (addr .& 0xFFFF .& 7)) (val .& 0xFF)
                (Bus.cart n) (Bus.ppu n)) as (D & E & F).
    destruct (PPU.write _ _ _) as [cart' ppu']. cbn [fst snd] in *.
    repeat split; assumption. }
  destruct (_ =? 0x4014).
  { pose proof (dmaFetch_progress ((val .& 0xFF) << 8) n) as (_ & Hn1 & _).
    destruct (Bus.dmaFetch _ n) as [buf n1]. cbn [fst snd] in *.
    pose proof (reads_cpu_frame
                  (map (fun i => (val .& 0xFF) << 8 + i) (seqZ 0 256)) n)
      as (A & B & C & D & E & F).
    rewrite <- Hn1 in A, B, C, D, E, F.
    destruct (doDMA_beam buf (Bus.ppu n1)) as (A' & B' & C').
    unfold cpu_frame. cbn [Bus.cart Bus.ppu Bus.set_ppu].
    repeat split; congruence. }
  destruct (_ =? 0x4016); [repeat split|].
  destruct (_ && _); [repeat split|].
  destruct (0x8000 <=? _); [repeat split|].
  destruct (0x6000 <=? _); repeat split.
Qed.

(** The CPU methods are built from reads, writes and register updates. *)
Lemma preserves_ret {A : Type} (r : A) :
  keeps (CPU6502.ret (Pad := Pad) (Apu := Apu) r).
Proof. intros n. apply cpu_frame_refl. Qed.

Lemma preserves_bind {A B : Type} (m : console -> A * console)
    (k : A -> console -> B * console) :
  keeps m -> (forall r, keeps (k r)) -> keeps (CPU6502.bind m k).
Proof.
  intros Hm Hk n. unfold CPU6502.bind.
  specialize (Hm n). destruct (m n) as [r n1]. cbn [snd] in Hm.
  eapply cpu_frame_trans; [exact Hm|apply Hk].
Qed.

Lemma preserves_get {A : Type} (f : CPUState.regs -> A) :
  keeps (CPU6502.get (Pad := Pad) (Apu := Apu) f).
Proof. intros n. apply cpu_frame_refl. Qed.

Lemma preserves_upd (g : CPUState.regs -> CPUState.regs) :
  keeps (CPU6502.upd (Pad := Pad) (Apu := Apu) g).
Proof. intros n. repeat split. Qed.

Lemma preserves_when (b : bool) (m : console -> unit * console) :
  keeps m -> keeps (CPU6502.when b m).
Proof. intros Hm. destruct b; [exact Hm|apply preserves_ret]. Qed.

Lemma preserves_read addr : keeps (CPU6502.read addr).
Proof. intros n. apply cpuRead_cpu_frame. Qed.

Lemma preserves_write addr val : keeps (CPU6502.write addr val).
Proof. intros n. apply cpuWrite_cpu_frame. Qed.

Ltac pres_step :=
  lazymatch goal with
  | |- preserves (CPU6502.ret _) => apply preserves_ret
  | |- preserves (CPU6502.get _) => apply preserves_get
  | |- preserves (CPU6502.upd _) => apply preserves_upd
  | |- preserves (CPU6502.read _) => apply preserves_read
  | |- preserves (CPU6502.write _ _) => apply preserves_write
  | |- preserves (CPU6502.when _ _) => apply preserves_when
  | |- preserves (CPU6502.bind _ _) => apply preserves_bind; [|intros ?]
  | |- preserves (if ?b then _ else _) => destruct b
  | |- preserves (let (_, _) := ?p in _) => destruct p
  | |- preserves (match ?o with Some _ => _ | None => _ end) => destruct o
  | |- preserves (match ?o with CPUState.IMP => _ | _ => _ end) => destruct o
  end.
Ltac pres := repeat pres_step.

Lemma preserves_pc_postinc : keeps CPU6502.pc_postinc.
Proof. unfold CPU6502.pc_postinc. pres. Qed.

Lemma preserves_push val : keeps (CPU6502.push val).
Proof. unfold CPU6502.push. pres. Qed.

Lemma preserves_pop : keeps CPU6502.pop.
Proof. unfold CPU6502.pop. pres. Qed.

Lemma preserves_getFlag bit : keeps (CPU6502.getFlag bit).
Proof. apply preserves_get. Qed.

Lemma preserves_setFlag bit val : keeps (CPU6502.setFlag bit val).
Proof. apply preserves_upd. Qed.

Lemma preserves_setZN val : keeps (CPU6502.setZN val).
Proof. unfold CPU6502.setZN. pres; apply preserves_setFlag. Qed.

Lemma preserves_fetchAddr m : keeps (CPU6502.fetchAddr m).
Proof.
  unfold CPU6502.fetchAddr.
  destruct m as [[]|];
    unfold CPU6502.imm, CPU6502.zpX, CPU6502.zpY, CPU6502.absX, CPU6502.absY,
      CPU6502.indX, CPU6502.indY, CPU6502.ind, CPU6502.rel, CPU6502.abs,
      CPU6502.zp, CPU6502.indexed, CPU6502.pc_postinc; cbv zeta; pres.
Qed.

Lemma preserves_execute i addr : keeps (CPU6502.execute i addr).
Proof.
  destruct i; unfold CPU6502.execute, CPU6502.ADC_, CPU6502.SBC_,
    CPU6502.ADC_, CPU6502.CMP_, CPU6502.BIT_, CPU6502.branch, CPU6502.shiftOp,
    CPU6502.setZN, CPU6502.push, CPU6502.pop, CPU6502.pc_postinc,
    CPU6502.getC, CPU6502.getZ, CPU6502.getN, CPU6502.getV,
    CPU6502.setC, CPU6502.setZ, CPU6502.setI, CPU6502.setD, CPU6502.setB,
    CPU6502.setU, CPU6502.setV, CPU6502.setN, CPU6502.getFlag,
    CPU6502.setFlag; cbv zeta; pres.
Qed.

Lemma preserves_interrupt lo hi :
  preserves
    (CPU6502.bind (CPU6502.get CPUState.pc) (fun pc0 =>
     CPU6502.bind (CPU6502.push #((to_int32 pc0 >> 8) .& 0xFF)) (fun _ =>
     CPU6502.bind (CPU6502.get CPUState.pc) (fun pc1 =>
     CPU6502.bind (CPU6502.push #(to_int32 pc1 .& 0xFF)) (fun _ =>
     CPU6502.bind (CPU6502.setB false) (fun _ =>
     CPU6502.bind (CPU6502.setU true) (fun _ =>
     CPU6502.bind (CPU6502.setI true) (fun _ =>
     CPU6502.bind (CPU6502.get CPUState.p) (fun flags =>
     CPU6502.bind (CPU6502.push #flags) (fun _ =>
     CPU6502.bind (CPU6502.read #lo) (fun l =>
     CPU6502.bind (CPU6502.read #hi) (fun h =>
     CPU6502.bind (CPU6502.upd (CPUState.set_pc (CPU6502.word l h))) (fun _ =>
     CPU6502.upd (fun r =>
       CPUState.set_cycles (js_add (CPUState.cycles r) #7) r)))))))))))))).
Proof.
  unfold CPU6502.push, CPU6502.setB, CPU6502.setU, CPU6502.setI,
    CPU6502.setFlag. pres.
Qed.

Lemma preserves_step : keeps CPU6502.step.
Proof.
  unfold CPU6502.step. pres;
    first [apply preserves_pc_postinc | apply preserves_fetchAddr
          | apply preserves_execute].
Qed.

Lemma preserves_nmi : keeps CPU6502.nmi.
Proof. apply preserves_interrupt. Qed.

(** X14: no CPU operation moves the beam or reaches the cartridge's PRG
    image, mapper registers or mirroring: across [step], [reset], [nmi]
    and [irq] the PPU's dot, scanline and frame counter and those three
    parts of the cartridge are as before, whatever the program does. *)
Theorem X14_cpu_leaves_beam_and_banks (n : console) :
  cpu_frame n (snd (CPU6502.step n))
  /\ cpu_frame n (snd (CPU6502.reset n))
  /\ cpu_frame n (snd (CPU6502.nmi n))
  /\ cpu_frame n (snd (CPU6502.irq n)).
Proof.
  split; [apply preserves_step|]. split; [|split; [apply preserves_nmi|]].
  - revert n. change (keeps (CPU6502.reset (Pad := Pad) (Apu := Apu))).
    unfold CPU6502.reset. pres.
  - revert n. change (keeps (CPU6502.irq (Pad := Pad) (Apu := Apu))).
    unfold CPU6502.irq. apply preserves_bind; [apply preserves_getFlag|].
    intros i. destruct (negb _); [apply preserves_ret|].
    apply preserves_interrupt.
Qed.

End CPUFrame.

(** *** The cost of a step and the run loop *)

Section RunLoop.
Context {Pad Apu : Type} `{Peripherals Pad Apu}.
Variable apu_step : jsval -> Apu -> Apu.
Abbreviation system := (@Bus.nes Pad Apu).

(** [entry.cy] is [undefined]: the cycle counter and the cost returned
    become NaN whatever the addressing mode and the instruction do. *)
Lemma step_table_cost (n : system) (e : CPU6502.OpEntry) :
  CPUState.stall (Bus.cpu n) <= 0 ->
  CPU6502.lookupOp (fst (opcode_fetch n)) = Some e ->
  fst (CPU6502.step n) = JNaN
  /\ CPUState.cycles (Bus.cpu (snd (CPU6502.step n))) = JNaN.
Proof.
  intros Hstall He. rewrite step_fetch by exact Hstall.
  destruct (opcode_fetch n) as [op n1]. cbn [fst] in He. rewrite He.
  unfold CPU6502.bind, CPU6502.upd, CPU6502.get, CPU6502.ret, CPU6502.cy.
  destruct (CPU6502.fetchAddr _ _) as [addr n2].
  destruct (CPU6502.execute _ _ _) as [u n3].
  cbn [fst snd Bus.cpu Bus.set_cpu CPUState.cycles CPUState.set_cycles].
  unfold js_add at 2. cbn [to_number].
  unfold js_add, js_sub. cbn [to_number].
  destruct (to_number (CPUState.cycles (Bus.cpu n3))); split; reflexivity.
Qed.

(** X15: an opcode of the table costs NaN cycles: [step] returns NaN and
    leaves the cycle counter at NaN, because it adds [entry.cy], a
    property the table's entries do not have. *)
Theorem X15_table_opcode_costs_NaN (n : system) (e : CPU6502.OpEntry) :
  CPUState.stall (Bus.cpu n) <= 0 ->
  CPU6502.lookupOp (fst (opcode_fetch n)) = Some e ->
  fst (CPU6502.step n) = JNaN
  /\ CPUState.cycles (Bus.cpu (snd (CPU6502.step n))) = JNaN.
Proof. apply step_table_cost. Qed.

Lemma tick_table_opcode (n : system) (e : CPU6502.OpEntry) :
  CPUState.stall (Bus.cpu n) <= 0 ->
  CPU6502.lookupOp (fst (opcode_fetch n)) = Some e ->
  NES.tick apu_step n
  = Bus.set_apu (apu_step JNaN (Bus.apu (snd (CPU6502.step n))))
      (snd (CPU6502.step n)).
Proof.
  intros Hstall He. destruct (step_table_cost n e Hstall He) as [Hcost _].
  unfold NES.tick. destruct (CPU6502.step n) as [cyc n1].
  cbn [fst snd] in *. subst cyc. reflexivity.
Qed.

Lemma tick_table_beam (n : system) (e : CPU6502.OpEntry) :
  CPUState.stall (Bus.cpu n) <= 0 ->
  CPU6502.lookupOp (fst (opcode_fetch n)) = Some e ->
  PPU.cycle (Bus.ppu (NES.tick apu_step n)) = PPU.cycle (Bus.ppu n)
  /\ PPU.scanline (Bus.ppu (NES.tick apu_step n)) = PPU.scanline (Bus.ppu n)
  /\ PPU.frame (Bus.ppu (NES.tick apu_step n)) = PPU.frame (Bus.ppu n).
Proof.
  intros Hstall He. rewrite (tick_table_opcode n e Hstall He).
  destruct (preserves_step n) as (A & B & C & _).
  cbn [Bus.ppu Bus.set_apu]. repeat split; assumption.
Qed.

(** X16: in an iteration of the run loop that executes an opcode of the
    table, the PPU is not stepped at all (the bound [cyc*3] of the inner
    loop is NaN) and no NMI is delivered: the machine after the iteration
    is the machine after the CPU step, with the APU stepped by NaN, and
    the beam is where it was. *)
Theorem X16_tick_skips_ppu (n : system) (e : CPU6502.OpEntry) :
  CPUState.stall (Bus.cpu n) <= 0 ->
  CPU6502.lookupOp (fst (opcode_fetch n)) = Some e ->
  NES.tick apu_step n
  = Bus.set_apu (apu_step JNaN (Bus.apu (snd (CPU6502.step n))))
      (snd (CPU6502.step n))
  /\ PPU.cycle (Bus.ppu (NES.tick apu_step n)) = PPU.cycle (Bus.ppu n)
  /\ PPU.scanline (Bus.ppu (NES.tick apu_step n)) = PPU.scanline (Bus.ppu n)
  /\ PPU.frame (Bus.ppu (NES.tick apu_step n)) = PPU.frame (Bus.ppu n).
Proof.
  intros Hstall He. split.
  - exact (tick_table_opcode n e Hstall He).
  - exact (tick_table_beam n e Hstall He).
Qed.

(** X17: while the program executes opcodes of the table, the run loop
    never completes a frame: its [while] loop runs all its iterations,
    each of them one CPU step and no PPU step, and the frame counter
    stays at its start value. *)
Theorem X17_runLoop_frame_never_ends (n : system) (k : nat) :
  (forall j, (j < k)%nat ->
     CPUState.stall (Bus.cpu (Nat.iter j (NES.tick apu_step) n)) <= 0
     /\ CPU6502.lookupOp (fst (opcode_fetch (Nat.iter j (NES.tick apu_step) n)))
        <> None) ->
  NES.whileFrame apu_step k (PPU.frame (Bus.ppu n)) n
  = Nat.iter k (NES.tick apu_step) n
  /\ PPU.frame (Bus.ppu (Nat.iter k (NES.tick apu_step) n))
     = PPU.frame (Bus.ppu n).
Proof.
  intros Hrun.
  assert (forall j, (j <= k)%nat ->
            PPU.frame (Bus.ppu (Nat.iter j (NES.tick apu_step) n))
            = PPU.frame (Bus.ppu n)) as Hframe.
  { induction j as [|j IH]; intros Hj; [reflexivity|].
    rewrite Nat.iter_succ.
    destruct (Hrun j ltac:(lia)) as [Hstall Hop].
    destruct (CPU6502.lookupOp _) as [e|] eqn:He; [|congruence].
    destruct (tick_table_beam _ e Hstall He) as (_ & _ & ->).
    apply IH. lia. }
  split; [|apply Hframe; lia].
  assert (forall j, (j <= k)%nat ->
            NES.whileFrame apu_step j (PPU.frame (Bus.ppu n))
              (Nat.iter (k - j) (NES.tick apu_step) n)
            = Nat.iter k (NES.tick apu_step) n) as Hloop.
  { induction j as [|j IH]; intros Hj.
    - cbn [NES.whileFrame]. rewrite Nat.sub_0_r. reflexivity.
    - cbn [NES.whileFrame]. rewrite Hframe by lia. rewrite Z.eqb_refl.
      rewrite <- Nat.iter_succ.
      replace (S (k - S j)) with (k - j)%nat by lia. apply IH. lia. }
  specialize (Hloop k (Nat.le_refl k)). rewrite Nat.sub_diag in Hloop.
  exact Hloop.
Qed.

End RunLoop.

Lemma X15_table_opcode_costs_NaN_witness :
  fst (CPU6502.step jmp_nes) = JNaN.
Proof.
  refine (proj1 (X15_table_opcode_costs_NaN jmp_nes
                   (CPU6502.O CPUState.IND CPU6502.JMP 5) _ _)).
  - vm_compute. discriminate.
  - vm_compute. reflexivity.
Defined.

Lemma X16_tick_skips_ppu_witness :
  PPU.cycle (Bus.ppu (NES.tick (fun _ u => u) builtin_nes))
  = PPU.cycle (Bus.ppu builtin_nes).
Proof.
  refine (proj1 (proj2 (X16_tick_skips_ppu (fun _ u => u) builtin_nes
                          (CPU6502.O CPUState.IMP CPU6502.BRK 7) _ _))).
  - vm_compute. discriminate.
  - vm_compute. reflexivity.
Defined.

Lemma X17_runLoop_frame_never_ends_witness :
  PPU.frame (Bus.ppu (Nat.iter 2 (NES.tick (fun _ u => u)) builtin_nes))
  = PPU.frame (Bus.ppu builtin_nes).
Proof.
  refine (proj2 (X17_runLoop_frame_never_ends (fun _ u => u) builtin_nes 2 _)).
  intros j Hj.
  destruct j as [|[|j]]; [| |lia]; split; vm_compute; discriminate.
Defined.

(** *** Status flags and the stack *)

Section FlagsAndStack.
Context {Pad Apu : Type} `{Peripherals Pad Apu}.
Abbreviation micro := (@Bus.nes Pad Apu).

Lemma flag_cases bit :
  0 <= bit <= 7 ->
  bit = 0 \/ bit = 1 \/ bit = 2 \/ bit = 3 \/ bit = 4 \/ bit = 5 \/ bit = 6
  \/ bit = 7.
Proof. lia. Qed.

Lemma shl1_flag bit : 0 <= bit <= 7 -> 1 << bit = 2 ^ bit.
Proof.
  intros Hb.
  destruct (flag_cases bit Hb) as [->|[->|[->|[->|[->|[->|[->| ->]]]]]]];
    reflexivity.
Qed.

Lemma shr_flag p bit : 0 <= bit <= 7 -> p >> bit = Z.shiftr p bit.
Proof.
  intros Hb. unfold shr.
  destruct (flag_cases bit Hb) as [->|[->|[->|[->|[->|[->|[->| ->]]]]]]];
    reflexivity.
Qed.

(** The new value of [p] in [setFlag], bit by bit. *)
Lemma flag_testbit p bit (val : bool) i :
  0 <= bit <= 7 -> 0 <= i ->
  Z.testbit (if val then p .| (1 << bit) else p .& ~~(1 << bit)) i
  = if i =? bit then val else Z.testbit p i.
Proof.
  intros Hb Hi. rewrite shl1_flag by exact Hb.
  destruct val.
  - rewrite Z.lor_spec, Z.pow2_bits_eqb by lia. rewrite (Z.eqb_sym bit i).
    destruct (i =? bit); [apply orb_true_r|apply orb_false_r].
  - rewrite Z.land_spec, Z.lnot_spec, Z.pow2_bits_eqb by lia.
    rewrite (Z.eqb_sym bit i).
    destruct (i =? bit); [apply andb_false_r|apply andb_true_r].
Qed.

Lemma flag_width p bit (val : bool) :
  0 <= bit <= 7 -> 0 <= p < 256 ->
  0 <= (if val then p .| (1 << bit) else p .& ~~(1 << bit)) < 256.
Proof.
  intros Hb Hp. change 256 with (2 ^ 8).
  apply width_by_bits; [lia|]. intros i Hi.
  rewrite flag_testbit by lia.
  destruct (Z.eqb_spec i bit); [lia|].
  apply (testbit_above p 8 i); [exact Hp|lia].
Qed.

Lemma getFlag_testbit (n : micro) bit :
  0 <= bit <= 7 ->
  fst (CPU6502.getFlag bit n) = Z.b2z (Z.testbit (CPUState.p (Bus.cpu n)) bit).
Proof.
  intros Hb. unfold CPU6502.getFlag, CPU6502.get. cbn [fst].
  rewrite shr_flag by exact Hb.
  change 1 with (Z.ones 1). rewrite Z.land_ones by lia. change (2 ^ 1) with 2.
  rewrite <- Z.bit0_mod, Z.shiftr_spec by lia. reflexivity.
Qed.

Lemma setFlag_spec (n : micro) bit val :
  CPU6502.setFlag bit val n
  = (tt, Bus.set_cpu
           (CPUState.set_p
              (if val then CPUState.p (Bus.cpu n) .| (1 << bit)
               else CPUState.p (Bus.cpu n) .& ~~(1 << bit)) (Bus.cpu n)) n).
Proof. unfold CPU6502.setFlag, CPU6502.upd. destruct val; reflexivity. Qed.

(** X18: [setFlag] sets or clears exactly the named bit of the status
    register: [getFlag] then returns the value given for that flag and
    what it returned before for each of the seven others, [p] stays a
    byte, and nothing but [p] changes. *)
Theorem X18_setFlag_one_bit (n : micro) (bit other : Z) (val : bool) :
  0 <= bit <= 7 -> 0 <= other <= 7 ->
  fst (CPU6502.getFlag other (snd (CPU6502.setFlag bit val n)))
  = (if other =? bit then Z.b2z val else fst (CPU6502.getFlag other n))
  /\ (0 <= CPUState.p (Bus.cpu n) < 256 ->
      0 <= CPUState.p (Bus.cpu (snd (CPU6502.setFlag bit val n))) < 256)
  /\ snd (CPU6502.setFlag bit val n)
     = Bus.set_cpu
         (CPUState.set_p
            (CPUState.p (Bus.cpu (snd (CPU6502.setFlag bit val n))))
            (Bus.cpu n)) n.
Proof.
  intros Hb Ho. rewrite setFlag_spec. cbn [snd].
  rewrite !getFlag_testbit by exact Ho.
  cbn [Bus.cpu Bus.set_cpu CPUState.p CPUState.set_p].
  split; [|split].
  - rewrite flag_testbit by lia. destruct (other =? bit); reflexivity.
  - intros Hp. apply flag_width; assumption.
  - reflexivity.
Qed.

(** The stack page is internal RAM. *)
Lemma stack_addr s :
  0 <= s <= 255 -> to_int32 (js_add #0x100 #s) .& 0xFFFF = 0x100 + s.
Proof.
  intros Hs. unfold to_int32, js_add. cbn [to_number].
  rewrite wrap32_small, land_0xFFFF, Z.mod_small by lia. reflexivity.
Qed.

Lemma byte_arg v : to_int32 #(to_int32 v .& 0xFF) .& 0xFF = to_int32 v mod 256.
Proof.
  rewrite !land_0xFF.
  pose proof (Z.mod_pos_bound (to_int32 v) 256 ltac:(lia)).
  unfold to_int32 at 1. cbn [to_number].
  rewrite wrap32_small, Z.mod_mod by lia. reflexivity.
Qed.

Lemma push_spec (n : micro) s v :
  CPUState.sp (Bus.cpu n) = #s -> 0 <= s <= 255 ->
  CPU6502.push v n
  = (tt, Bus.set_cpu (CPUState.set_sp #((s - 1) mod 256) (Bus.cpu n))
           (Bus.set_ram
              (ta_set8 (Bus.ram n) (0x100 + s) #(to_int32 v mod 256)) n)).
Proof.
  intros Hsp Hs. unfold CPU6502.push, CPU6502.bind, CPU6502.get, CPU6502.write,
    CPU6502.upd. rewrite Hsp, stack_addr, byte_arg by exact Hs.
  rewrite cpuWrite_ram by lia. rewrite (Z.mod_small (0x100 + s)) by lia.
  rewrite Z.mod_mod by lia.
  cbn [Bus.cpu Bus.set_ram]. rewrite Hsp.
  unfold to_int32, js_sub. cbn [to_number].
  rewrite wrap32_small, land_0xFF by lia. reflexivity.
Qed.

Lemma pop_spec (n : micro) s :
  CPUState.sp (Bus.cpu n) = #s -> 0 <= s <= 255 ->
  CPU6502.pop n
  = (ta_get (Bus.ram n) (0x100 + (s + 1) mod 256),
     Bus.set_cpu (CPUState.set_sp #((s + 1) mod 256) (Bus.cpu n)) n).
Proof.
  intros Hsp Hs. unfold CPU6502.pop, CPU6502.bind, CPU6502.get, CPU6502.read,
    CPU6502.upd. cbn [Bus.cpu Bus.set_cpu CPUState.sp CPUState.set_sp].
  rewrite Hsp.
  assert (to_int32 (js_add #s #1) .& 0xFF = (s + 1) mod 256) as ->.
  { unfold to_int32, js_add. cbn [to_number].
    rewrite wrap32_small, land_0xFF by lia. reflexivity. }
  pose proof (Z.mod_pos_bound (s + 1) 256 ltac:(lia)) as Hm.
  rewrite stack_addr by lia.
  rewrite cpuRead_memory by (unfold memory_addr; lia).
  rewrite cpuRead_ram by lia. cbn [fst].
  rewrite (Z.mod_small (0x100 + _)) by lia. reflexivity.
Qed.

Lemma set_sp_same r s : CPUState.sp r = s -> CPUState.set_sp s r = r.
Proof. intros <-. destruct r; reflexivity. Qed.


End FlagsAndStack.

Lemma X18_setFlag_one_bit_witness :
  fst (CPU6502.getFlag 0 (snd (CPU6502.setFlag 0 true (test_nes [] [])))) = 1.
Proof.
  exact (proj1 (X18_setFlag_one_bit (test_nes [] []) 0 0 true
                  ltac:(lia) ltac:(lia))).
Defined.


(** *** Subroutines *)

Section Subroutines.
Context {Pad Apu : Type} `{Peripherals Pad Apu}.
Abbreviation unit6502 := (@Bus.nes Pad Apu).

Lemma shr8_word r : 0 <= r <= 0xFFFF -> (r >> 8) .& 0xFF = r / 256.
Proof.
  intros Hr. unfold shr. change (8 .& 31) with 8.
  rewrite Z.shiftr_div_pow2, land_0xFF by lia. change (2 ^ 8) with 256.
  apply Z.mod_small. split; [apply Z.div_pos; lia|].
  apply Z.div_lt_upper_bound; lia.
Qed.

Lemma num_byte b : 0 <= b < 256 -> to_int32 #b mod 256 = b.
Proof.
  intros Hb. unfold to_int32. cbn [to_number].
  rewrite wrap32_small by lia. apply Z.mod_small. exact Hb.
Qed.

Lemma word_bytes hi lo :
  0 <= hi < 256 -> 0 <= lo < 256 ->
  (to_int32 #hi << 8) .| to_int32 #lo = 256 * hi + lo.
Proof.
  intros Hh Hl. unfold to_int32. cbn [to_number].
  rewrite !wrap32_small by lia. rewrite shl8_small by exact Hh.
  apply lor_page_offset. exact Hl.
Qed.

(** X20: JSR and RTS pair up: JSR pushes the return address minus one,
    high byte first, and jumps; an RTS run on the machine JSR leaves
    restores every register, with the program counter and the stack
    pointer back at their values before the JSR. *)
Theorem X20_jsr_rts (n : unit6502) (s pcv : Z) (addr : jsval) :
  length (Bus.ram n) = 2048%nat ->
  CPUState.sp (Bus.cpu n) = #s -> 0 <= s <= 255 ->
  CPUState.pc (Bus.cpu n) = #pcv -> 1 <= pcv <= 0xFFFF ->
  CPUState.pc (Bus.cpu (snd (CPU6502.execute CPU6502.JSR addr n))) = addr
  /\ ta_get (Bus.ram (snd (CPU6502.execute CPU6502.JSR addr n))) (0x100 + s)
     = #((pcv - 1) / 256)
  /\ ta_get (Bus.ram (snd (CPU6502.execute CPU6502.JSR addr n)))
       (0x100 + (s - 1) mod 256)
     = #((pcv - 1) mod 256)
  /\ Bus.cpu (snd (CPU6502.execute CPU6502.RTS JNull
                     (snd (CPU6502.execute CPU6502.JSR addr n))))
     = Bus.cpu n.
Proof.
  intros Hlen Hsp Hs Hpc Hpcv.
  pose proof (Z.mod_pos_bound (s - 1) 256 ltac:(lia)) as Hs1.
  pose proof (Z.mod_pos_bound ((s - 1) mod 256 - 1) 256 ltac:(lia)) as Hs2.
  pose proof (Z.mod_pos_bound (pcv - 1) 256 ltac:(lia)) as Hlo.
  assert (0 <= (pcv - 1) / 256 < 256) as Hhi.
  { split; [apply Z.div_pos; lia|apply Z.div_lt_upper_bound; lia]. }
  assert ((s - 1) mod 256 <> s) as Hne.
  { destruct (Z.eq_dec s 0) as [->|Hnz]; [discriminate|].
    rewrite Z.mod_small; lia. }
  assert (CPU6502.execute CPU6502.JSR addr n
          = (tt, Bus.set_cpu
                   (CPUState.set_pc addr
                      (CPUState.set_sp #(((s - 1) mod 256 - 1) mod 256)
                         (Bus.cpu n)))
                   (Bus.set_ram
                      (ta_set8
                         (ta_set8 (Bus.ram n) (0x100 + s) #((pcv - 1) / 256))
                         (0x100 + (s - 1) mod 256) #((pcv - 1) mod 256)) n)))
    as Hjsr.
  { cbn [CPU6502.execute]. unfold CPU6502.bind at 1, CPU6502.get at 1.
    rewrite Hpc.
    assert (to_int32 (js_sub #pcv #1) .& 0xFFFF = pcv - 1) as ->.
    { unfold to_int32, js_sub. cbn [to_number].
      rewrite wrap32_small, land_0xFFFF, Z.mod_small by lia. reflexivity. }
    rewrite shr8_word, land_0xFF by lia.
    unfold CPU6502.bind at 1. rewrite (push_spec n s _ Hsp Hs).
    unfold CPU6502.bind at 1.
    rewrite (push_spec _ ((s - 1) mod 256)) by (try reflexivity; lia).
    rewrite !num_byte by lia. unfold CPU6502.upd.
    cbn [Bus.cpu Bus.set_cpu Bus.ram Bus.set_ram]. reflexivity. }
  rewrite Hjsr. cbn [snd Bus.cpu Bus.set_cpu Bus.ram Bus.set_ram CPUState.pc
                     CPUState.set_pc].
  split; [reflexivity|]. split; [|split].
  - rewrite ta_get_set8_ne by lia.
    rewrite ta_get_set8_eq by (unfold len; lia).
    rewrite to_uint8_byte by lia. reflexivity.
  - rewrite ta_get_set8_eq by (unfold len; rewrite ta_set8_length; lia).
    rewrite to_uint8_byte by lia. reflexivity.
  - cbn [CPU6502.execute]. unfold CPU6502.bind at 1.
    rewrite (pop_spec _ (((s - 1) mod 256 - 1) mod 256))
      by (try reflexivity; lia).
    assert ((((s - 1) mod 256 - 1) mod 256 + 1) mod 256 = (s - 1) mod 256)
      as ->.
    { rewrite Z.add_mod_idemp_l by lia.
      replace ((s - 1) mod 256 - 1 + 1) with ((s - 1) mod 256) by lia.
      apply Z.mod_mod. lia. }
    unfold CPU6502.bind at 1.
    rewrite (pop_spec _ ((s - 1) mod 256)) by (try reflexivity; lia).
    assert (((s - 1) mod 256 + 1) mod 256 = s) as ->.
    { rewrite Z.add_mod_idemp_l by lia. replace (s - 1 + 1) with s by lia.
      apply Z.mod_small. lia. }
    cbn [Bus.cpu Bus.set_cpu Bus.ram Bus.set_ram].
    rewrite ta_get_set8_eq by (unfold len; rewrite ta_set8_length; lia).
    rewrite ta_get_set8_ne by lia.
    rewrite ta_get_set8_eq by (unfold len; lia).
    rewrite !to_uint8_byte by lia.
    rewrite word_bytes by lia. unfold CPU6502.upd, js_add.
    cbn [snd to_number Bus.cpu Bus.set_cpu].
    replace (256 * ((pcv - 1) / 256) + (pcv - 1) mod 256 + 1) with pcv
      by (pose proof (Z.div_mod (pcv - 1) 256 ltac:(lia)); lia).
    rewrite <- Hsp, <- Hpc. destruct (Bus.cpu n); reflexivity.
Qed.

End Subroutines.

Lemma X20_jsr_rts_witness :
  Bus.cpu (snd (CPU6502.execute CPU6502.RTS JNull
                  (snd (CPU6502.execute CPU6502.JSR #0x9000 jmp_nes))))
  = Bus.cpu jmp_nes.
Proof.
  refine (proj2 (proj2 (proj2
            (X20_jsr_rts jmp_nes 0xFD 0x8000 #0x9000 _ _ _ _ _))));
    solve [reflexivity | lia].
Defined.

(** *** Arithmetic *)

Lemma in_byte_range b : 0 <= b < 256 -> In b (seqZ 0 256).
Proof. intros Hb. apply list_elem_of_In, elem_of_seqZ. lia. Qed.

Lemma byte_bit7 b : 0 <= b < 256 -> negb (b .& 0x80 =? 0) = (128 <=? b).
Proof.
  intros Hb.
  assert (forallb (fun b => Bool.eqb (negb (b .& 0x80 =? 0)) (128 <=? b))
            (seqZ 0 256) = true) as Hall by (vm_compute; reflexivity).
  rewrite forallb_forall in Hall.
  apply Bool.eqb_prop, Hall, in_byte_range, Hb.
Qed.

Lemma byte_complement v : 0 <= v < 256 -> (v .^ 0xFF) .& 0xFF = 255 - v.
Proof.
  intros Hv.
  assert (forallb (fun v => (v .^ 0xFF) .& 0xFF =? 255 - v) (seqZ 0 256) = true)
    as Hall by (vm_compute; reflexivity).
  rewrite forallb_forall in Hall.
  apply Z.eqb_eq, Hall, in_byte_range, Hv.
Qed.

(** The overflow test of [ADC], checked on every pair of bytes and carry. *)
Lemma adc_overflow_bits a v c :
  0 <= a < 256 -> 0 <= v < 256 -> 0 <= c <= 1 ->
  negb ((~~(a .^ v) .& (a .^ (a + v + c)) .& 0x80) =? 0) = adc_overflows a v c.
Proof.
  intros Ha Hv Hc.
  assert (forallb (fun a =>
            forallb (fun v =>
              forallb (fun c =>
                Bool.eqb
                  (negb ((~~(a .^ v) .& (a .^ (a + v + c)) .& 0x80) =? 0))
                  (adc_overflows a v c)) [0; 1]) (seqZ 0 256)) (seqZ 0 256)
          = true) as Hall by (vm_compute; reflexivity).
  rewrite forallb_forall in Hall. specialize (Hall a (in_byte_range a Ha)).
  rewrite forallb_forall in Hall. specialize (Hall v (in_byte_range v Hv)).
  rewrite forallb_forall in Hall. apply Bool.eqb_prop, Hall.
  simpl. lia.
Qed.

Section Arithmetic.
Context {Pad Apu : Type} `{Peripherals Pad Apu}.
Abbreviation alu := (@Bus.nes Pad Apu).

Lemma carry_bit (n : alu) :
  fst (CPU6502.getC n) = Z.b2z (Z.testbit (CPUState.p (Bus.cpu n)) 0).
Proof. apply getFlag_testbit. lia. Qed.

Ltac run_cpu :=
  repeat first
    [ rewrite setFlag_spec
    | progress cbn [fst snd Bus.cpu Bus.set_cpu CPUState.a CPUState.set_a
                    CPUState.p CPUState.set_p to_number]
    | progress unfold CPU6502.bind, CPU6502.get, CPU6502.upd ].

Lemma adc_spec (n : alu) (av v : Z) :
  CPUState.a (Bus.cpu n) = #av -> 0 <= av < 256 -> 0 <= v < 256 ->
  let sum := av + v + fst (CPU6502.getC n) in
  let n' := snd (CPU6502.ADC_ #v n) in
  CPUState.a (Bus.cpu n') = #(sum mod 256)
  /\ fst (CPU6502.getC n') = Z.b2z (255 <? sum)
  /\ fst (CPU6502.getZ n') = Z.b2z (sum mod 256 =? 0)
  /\ fst (CPU6502.getN n') = Z.b2z (128 <=? sum mod 256)
  /\ fst (CPU6502.getV n')
     = Z.b2z (adc_overflows av v (fst (CPU6502.getC n)))
  /\ (forall bit, 2 <= bit <= 5 ->
        fst (CPU6502.getFlag bit n') = fst (CPU6502.getFlag bit n))
  /\ n' = Bus.set_cpu
            (CPUState.set_p (CPUState.p (Bus.cpu n'))
               (CPUState.set_a #(sum mod 256) (Bus.cpu n))) n.
Proof.
  intros Ha Hav Hv. cbv zeta.
  pose proof (carry_bit n) as Hc.
  assert (0 <= fst (CPU6502.getC n) <= 1) as Hc01
    by (rewrite Hc; destruct (Z.testbit _ 0); simpl; lia).
  unfold CPU6502.getC, CPU6502.getZ, CPU6502.getN, CPU6502.getV.
  rewrite !getFlag_testbit by lia.
  rewrite <- Hc.
  set (c := fst (CPU6502.getC n)) in *.
  assert (snd (CPU6502.ADC_ #v n)
          = Bus.set_cpu
              (CPUState.set_p
                 (let p0 := CPUState.p (Bus.cpu n) in
                  let p1 := if 255 <? av + v + c
                            then p0 .| (1 << 0) else p0 .& ~~(1 << 0) in
                  let p2 := if adc_overflows av v c
                            then p1 .| (1 << 6) else p1 .& ~~(1 << 6) in
                  let p3 := if (av + v + c) mod 256 =? 0
                            then p2 .| (1 << 1) else p2 .& ~~(1 << 1) in
                  if 128 <=? (av + v + c) mod 256
                  then p3 .| (1 << 7) else p3 .& ~~(1 << 7))
                 (CPUState.set_a #((av + v + c) mod 256) (Bus.cpu n))) n)
    as Hadc.
  { unfold CPU6502.ADC_, CPU6502.setZN, CPU6502.setC, CPU6502.setV,
      CPU6502.setZ, CPU6502.setN.
    subst c. unfold CPU6502.getC, CPU6502.getFlag, CPU6502.get in Hc01.
    cbn [fst] in Hc01. unfold CPU6502.getC, CPU6502.getFlag.
    run_cpu. rewrite Ha.
    set (c := (CPUState.p (Bus.cpu n) >> 0) .& 1) in *.
    pose proof (Z.mod_pos_bound (av + v + c) 256 ltac:(lia)) as Hm.
    unfold js_add, js_gt, js_lt. cbn [to_number].
    unfold to_int32. cbn [to_number].
    rewrite (wrap32_small av), (wrap32_small v), (wrap32_small (av + v + c))
      by lia.
    rewrite (land_0xFF (av + v + c)).
    rewrite (wrap32_small ((av + v + c) mod 256)) by lia.
    rewrite (land_0xFF ((av + v + c) mod 256)), Z.mod_mod by lia.
    rewrite adc_overflow_bits by lia.
    rewrite byte_bit7 by lia.
    reflexivity. }
  rewrite Hadc. cbv zeta.
  cbn [Bus.cpu Bus.set_cpu CPUState.a CPUState.set_a CPUState.p CPUState.set_p].
  split; [reflexivity|].
  split; [rewrite !flag_testbit by lia; reflexivity|].
  split; [rewrite !flag_testbit by lia; reflexivity|].
  split; [rewrite !flag_testbit by lia; reflexivity|].
  split; [rewrite !flag_testbit by lia; reflexivity|].
  split; [|reflexivity].
  intros bit Hbit. rewrite !getFlag_testbit by lia.
  cbn [Bus.cpu Bus.set_cpu CPUState.p CPUState.set_p].
  rewrite !flag_testbit by lia.
  destruct (Z.eqb_spec bit 7); [lia|].
  destruct (Z.eqb_spec bit 1); [lia|].
  destruct (Z.eqb_spec bit 6); [lia|].
  destruct (Z.eqb_spec bit 0); [lia|]. reflexivity.
Qed.

(** X21: ADC on bytes is the 8-bit addition with carry of the 6502 in
    binary mode: A becomes the sum modulo 256, C the carry out, Z and N
    the zero test and bit 7 of the result, V the signed overflow; the
    flags I, D, B and U (bits 2 to 5) and every other register are left
    alone. *)
Theorem X21_adc (n : alu) (av v : Z) :
  CPUState.a (Bus.cpu n) = #av -> 0 <= av < 256 -> 0 <= v < 256 ->
  let sum := av + v + fst (CPU6502.getC n) in
  let n' := snd (CPU6502.ADC_ #v n) in
  CPUState.a (Bus.cpu n') = #(sum mod 256)
  /\ fst (CPU6502.getC n') = Z.b2z (255 <? sum)
  /\ fst (CPU6502.getZ n') = Z.b2z (sum mod 256 =? 0)
  /\ fst (CPU6502.getN n') = Z.b2z (128 <=? sum mod 256)
  /\ fst (CPU6502.getV n')
     = Z.b2z (adc_overflows av v (fst (CPU6502.getC n)))
  /\ (forall bit, 2 <= bit <= 5 ->
        fst (CPU6502.getFlag bit n') = fst (CPU6502.getFlag bit n))
  /\ n' = Bus.set_cpu
            (CPUState.set_p (CPUState.p (Bus.cpu n'))
               (CPUState.set_a #(sum mod 256) (Bus.cpu n))) n.
Proof. apply adc_spec. Qed.

(** X22: SBC on bytes subtracts with borrow, the borrow being the
    complement of the carry: A becomes [a - v - (1 - C)] modulo 256 and C
    is set exactly when no borrow is needed. *)
Theorem X22_sbc (n : alu) (av v : Z) :
  CPUState.a (Bus.cpu n) = #av -> 0 <= av < 256 -> 0 <= v < 256 ->
  let diff := av - v - (1 - fst (CPU6502.getC n)) in
  let n' := snd (CPU6502.SBC_ #v n) in
  CPUState.a (Bus.cpu n') = #(diff mod 256)
  /\ fst (CPU6502.getC n') = Z.b2z (0 <=? diff)
  /\ fst (CPU6502.getZ n') = Z.b2z (diff mod 256 =? 0)
  /\ fst (CPU6502.getN n') = Z.b2z (128 <=? diff mod 256).
Proof.
  intros Ha Hav Hv. cbv zeta. unfold CPU6502.SBC_.
  assert (to_int32 #v = v) as -> by (apply wrap32_small; lia).
  rewrite byte_complement by exact Hv.
  destruct (adc_spec n av (255 - v) Ha Hav ltac:(lia))
    as (HA & HC & HZ & HN & _).
  set (c := fst (CPU6502.getC n)) in *.
  assert ((av + (255 - v) + c) mod 256 = (av - v - (1 - c)) mod 256) as Hmod.
  { replace (av + (255 - v) + c) with (av - v - (1 - c) + 1 * 256) by lia.
    apply Z.mod_add. lia. }
  rewrite Hmod in HA, HZ, HN.
  split; [exact HA|]. split; [|split; assumption].
  rewrite HC. f_equal.
  destruct (Z.ltb_spec 255 (av + (255 - v) + c));
    destruct (Z.leb_spec 0 (av - v - (1 - c))); try reflexivity; lia.
Qed.

(** X23: CMP, CPX and CPY compare two bytes without changing a register:
    C is set when the register is at least the operand, Z when they are
    equal, N is bit 7 of the difference modulo 256, and the flags V, I,
    D, B and U (bits 2 to 6) stay. *)
Theorem X23_cmp (n : alu) (rv v : Z) :
  0 <= rv < 256 -> 0 <= v < 256 ->
  let n' := snd (CPU6502.CMP_ #rv #v n) in
  fst (CPU6502.getC n') = Z.b2z (v <=? rv)
  /\ fst (CPU6502.getZ n') = Z.b2z (rv =? v)
  /\ fst (CPU6502.getN n') = Z.b2z (128 <=? (rv - v) mod 256)
  /\ (forall bit, 2 <= bit <= 6 ->
        fst (CPU6502.getFlag bit n') = fst (CPU6502.getFlag bit n))
  /\ n' = Bus.set_cpu (CPUState.set_p (CPUState.p (Bus.cpu n')) (Bus.cpu n)) n.
Proof.
  intros Hr Hv. cbv zeta.
  pose proof (Z.mod_pos_bound (rv - v) 256 ltac:(lia)) as Hm.
  assert (snd (CPU6502.CMP_ #rv #v n)
          = Bus.set_cpu
              (CPUState.set_p
                 (let p0 := CPUState.p (Bus.cpu n) in
                  let p1 := if v <=? rv
                            then p0 .| (1 << 0) else p0 .& ~~(1 << 0) in
                  let p2 := if rv =? v
                            then p1 .| (1 << 1) else p1 .& ~~(1 << 1) in
                  if 128 <=? (rv - v) mod 256
                  then p2 .| (1 << 7) else p2 .& ~~(1 << 7))
                 (Bus.cpu n)) n) as Hcmp.
  { unfold CPU6502.CMP_, CPU6502.setZN, CPU6502.setC, CPU6502.setZ,
      CPU6502.setN. cbv zeta. run_cpu.
    unfold js_sub, js_ge. cbn [to_number].
    unfold to_int32. cbn [to_number].
    rewrite (wrap32_small (rv - v)) by lia.
    rewrite (land_0xFF (rv - v)).
    rewrite (wrap32_small ((rv - v) mod 256)) by lia.
    rewrite (land_0xFF ((rv - v) mod 256)), Z.mod_mod by lia.
    rewrite byte_bit7 by lia.
    assert (((rv - v) mod 256 =? 0) = (rv =? v)) as ->.
    { destruct (Z.eqb_spec rv v) as [->|Hne].
      - rewrite Z.sub_diag. reflexivity.
      - apply Z.eqb_neq. intros H0.
        apply Z.mod_divide in H0; [|lia]. destruct H0 as [q Hq]. lia. }
    reflexivity. }
  unfold CPU6502.getC, CPU6502.getZ, CPU6502.getN.
  rewrite Hcmp. cbv zeta.
  split; [rewrite getFlag_testbit by lia;
          cbn [Bus.cpu Bus.set_cpu CPUState.p CPUState.set_p];
          rewrite !flag_testbit by lia; reflexivity|].
  split; [rewrite getFlag_testbit by lia;
          cbn [Bus.cpu Bus.set_cpu CPUState.p CPUState.set_p];
          rewrite !flag_testbit by lia; reflexivity|].
  split; [rewrite getFlag_testbit by lia;
          cbn [Bus.cpu Bus.set_cpu CPUState.p CPUState.set_p];
          rewrite !flag_testbit by lia; reflexivity|].
  split; [|reflexivity].
  intros bit Hbit. rewrite !getFlag_testbit by lia.
  cbn [Bus.cpu Bus.set_cpu CPUState.p CPUState.set_p].
  rewrite !flag_testbit by lia.
  destruct (Z.eqb_spec bit 7); [lia|].
  destruct (Z.eqb_spec bit 1); [lia|].
  destruct (Z.eqb_spec bit 0); [lia|]. reflexivity.
Qed.

End Arithmetic.

Lemma X21_adc_witness :
  CPUState.a (Bus.cpu (snd (CPU6502.ADC_ #0x50 (test_nes [] []))))
  = #((0 + 0x50 + fst (CPU6502.getC (test_nes [] []))) mod 256).
Proof.
  exact (proj1 (X21_adc (test_nes [] []) 0 0x50 eq_refl ltac:(lia) ltac:(lia))).
Defined.

Lemma X22_sbc_witness :
  fst (CPU6502.getC (snd (CPU6502.SBC_ #0x50 (test_nes [] []))))
  = Z.b2z (0 <=? 0 - 0x50 - (1 - fst (CPU6502.getC (test_nes [] [])))).
Proof.
  exact (proj1 (proj2 (X22_sbc (test_nes [] []) 0 0x50 eq_refl
                         ltac:(lia) ltac:(lia)))).
Defined.

Lemma X23_cmp_witness :
  fst (CPU6502.getZ (snd (CPU6502.CMP_ #0x42 #0x42 (test_nes [] [])))) = 1.
Proof.
  exact (proj1 (proj2 (X23_cmp (test_nes [] []) 0x42 0x42
                         ltac:(lia) ltac:(lia)))).
Defined.

(** *** Reset *)

Section ResetVector.
Context {Pad Apu : Type} `{Peripherals Pad Apu}.
Abbreviation deck := (@Bus.nes Pad Apu).

Lemma prg_byte (image : list Z) i :
  bytes image -> 0 <= i ->
  to_int32 (ta_get image i) = nth (Z.to_nat i) image 0
  /\ 0 <= nth (Z.to_nat i) image 0 < 256.
Proof.
  intros Hb Hi. unfold ta_get. destruct (Z.ltb_spec i 0); [lia|].
  destruct (image !! Z.to_nat i) as [b|] eqn:Hl.
  - assert (0 <= b < 256) as Hr.
    { unfold bytes in Hb. rewrite Forall_forall in Hb. apply Hb.
      eapply list_elem_of_lookup_2, Hl. }
    rewrite (nth_lookup_Some _ _ _ _ Hl).
    split; [apply wrap32_small; lia|exact Hr].
  - rewrite nth_overflow by (apply lookup_ge_None_1, Hl).
    split; [reflexivity|lia].
Qed.

(** X24: [reset] loads the registers of the power-on state and takes the
    program counter from offsets $7FFC/$7FFD of the PRG image, through
    the bus. The image is not mirrored: with a 16 KiB image, which ends
    before the vector, the program counter is 0 whatever the image holds. *)
Theorem X24_reset_vector (n : deck) :
  bytes (Cart.prg (Bus.cart n)) ->
  snd (CPU6502.reset n)
  = Bus.set_cpu
      (CPUState.mkCPU #0 #0 #0 #0xFD 0x24
         #(reset_vector (Cart.prg (Bus.cart n))) #7 0
         (CPUState.addrMode (Bus.cpu n)) (CPUState.pageCross (Bus.cpu n))) n
  /\ (len (Cart.prg (Bus.cart n)) <= 0x7FFC ->
      CPUState.pc (Bus.cpu (snd (CPU6502.reset n))) = #0).
Proof.
  intros Hb.
  assert (snd (CPU6502.reset n)
          = Bus.set_cpu
              (CPUState.mkCPU #0 #0 #0 #0xFD 0x24
                 #(reset_vector (Cart.prg (Bus.cart n))) #7 0
                 (CPUState.addrMode (Bus.cpu n))
                 (CPUState.pageCross (Bus.cpu n))) n) as Hreset.
  { unfold CPU6502.reset, CPU6502.bind, CPU6502.upd, CPU6502.read.
    cbn [Bus.cpu Bus.set_cpu].
    change (to_int32 #0xFFFC .& 0xFFFF) with 0xFFFC.
    change (to_int32 #0xFFFD .& 0xFFFF) with 0xFFFD.
    rewrite !cpuRead_prg by lia. cbn [snd Bus.cpu Bus.set_cpu Bus.cart].
    unfold Cart.read. cbn [Z.leb Z.compare Pos.compare Pos.compare_cont CompOpp].
    change (0xFFFC - 0x8000) with 0x7FFC. change (0xFFFD - 0x8000) with 0x7FFD.
    unfold CPU6502.word.
    destruct (prg_byte (Cart.prg (Bus.cart n)) 0x7FFC Hb ltac:(lia)) as [-> Hlo].
    destruct (prg_byte (Cart.prg (Bus.cart n)) 0x7FFD Hb ltac:(lia)) as [-> Hhi].
    rewrite shl8_small by exact Hhi.
    rewrite Z.lor_comm, lor_page_offset by exact Hlo.
    unfold reset_vector.
    rewrite (Z.add_comm (256 * _)). reflexivity. }
  split; [exact Hreset|].
  intros Hshort. rewrite Hreset. cbn [Bus.cpu Bus.set_cpu CPUState.pc].
  unfold reset_vector, len in *.
  rewrite !nth_overflow by lia. reflexivity.
Qed.

End ResetVector.

Lemma X24_reset_vector_witness :
  CPUState.pc (Bus.cpu (snd (CPU6502.reset builtin_nes))) = #0.
Proof.
  refine (proj2 (X24_reset_vector builtin_nes _) _).
  - apply bytesb_spec. vm_compute. reflexivity.
  - vm_compute. discriminate.
Defined.

(** *** Loading a cartridge *)

Lemma ta_slice_range (arr : list Z) (off size : Z) :
  0 <= off -> 0 <= size ->
  Cart.ta_slice arr #off #(off + size)
  = take (Z.to_nat size) (drop (Z.to_nat off) arr).
Proof.
  intros Ho Hs. unfold Cart.ta_slice, Cart.slice_bound, Cart.to_integer, len.
  cbn [to_number].
  destruct (Z.ltb_spec off 0); [lia|].
  destruct (Z.ltb_spec (off + size) 0); [lia|].
  destruct (Z.le_gt_cases off (Z.of_nat (length arr))) as [Hin|Hout].
  - rewrite (Z.min_l off) by lia.
    destruct (Z.le_gt_cases (off + size) (Z.of_nat (length arr))) as [Hfit|Hcut].
    + rewrite Z.min_l by lia. f_equal. lia.
    + rewrite Z.min_r by lia.
      rewrite !take_ge by (rewrite length_drop; lia). reflexivity.
  - rewrite !Z.min_r by lia. rewrite Z.sub_diag.
    rewrite (drop_ge arr (Z.to_nat off)) by lia.
    rewrite take_nil. reflexivity.
Qed.

Lemma mapper_id_nibbles flag6 flag7 :
  0 <= flag6 < 256 -> 0 <= flag7 < 256 ->
  ((to_int32 #flag7 .& 0xF0) .| (to_int32 #flag6 >> 4)) .& 0xFF
  = ines_mapper flag6 flag7.
Proof.
  intros H6 H7.
  assert (forallb (fun f6 =>
            forallb (fun f7 =>
              ((to_int32 #f7 .& 0xF0) .| (to_int32 #f6 >> 4)) .& 0xFF
              =? ines_mapper f6 f7) (seqZ 0 256)) (seqZ 0 256) = true) as Hall
    by (vm_compute; reflexivity).
  rewrite forallb_forall in Hall. specialize (Hall flag6 (in_byte_range _ H6)).
  rewrite forallb_forall in Hall. apply Z.eqb_eq, Hall, in_byte_range, H7.
Qed.

(** [parseINES] on an array that starts with the magic. *)
Lemma parseINES_header (b : list Z) (k j flag6 flag7 : Z) :
  ta_get b 0 = #0x4E -> ta_get b 1 = #0x45 -> ta_get b 2 = #0x53 ->
  ta_get b 3 = #0x1A -> ta_get b 4 = #k -> ta_get b 5 = #j ->
  ta_get b 6 = #flag6 -> ta_get b 7 = #flag7 ->
  0 <= k -> 0 <= j -> 0 <= flag6 < 256 -> 0 <= flag7 < 256 ->
  let off := if Z.testbit flag6 2 then 528 else 16 in
  Cart.parseINES b
  = match Cart.newMapper (ines_mapper flag6 flag7) with
    | inl t => inl t
    | inr m =>
        inr (Cart.mkLoaded
               (Cart.mkCartridge
                  (take (Z.to_nat (16384 * k)) (drop (Z.to_nat off) b))
                  (if j =? 0 then replicate (Z.to_nat 8192) 0
                   else take (Z.to_nat (8192 * j))
                          (drop (Z.to_nat (off + 16384 * k)) b))
                  (j =? 0) (replicate (Z.to_nat 0x2000) 0)
                  (if Z.testbit flag6 0 then Cart.vertical else Cart.horizontal)
                  m)
               (ines_mapper flag6 flag7) (Z.testbit flag6 2))
    end.
Proof.
  intros H0 H1 H2 H3 H4 H5 H6 H7 Hk Hj Hf6 Hf7. cbv zeta.
  unfold Cart.parseINES. rewrite H0, H1, H2, H3, H4, H5, H6, H7.
  change (negb (js_is #0x4E 0x4E) || negb (js_is #0x45 0x45)
          || negb (js_is #0x53 0x53) || negb (js_is #0x1A 0x1A)) with false.
  cbv iota. rewrite mapper_id_nibbles by assumption.
  assert (to_int32 #flag6 = flag6) as -> by (apply wrap32_small; lia).
  change 0x01 with (2 ^ 0). change 0x04 with (2 ^ 2).
  rewrite !land_pow2_testbit by lia.
  unfold js_mul, js_add, truthy, js_is. cbn [to_number].
  assert ((j * 8192 =? 0) = (j =? 0)) as ->.
  { destruct (Z.eqb_spec j 0); destruct (Z.eqb_spec (j * 8192) 0);
      try reflexivity; lia. }
  destruct (Cart.newMapper _) as [t|m]; [reflexivity|].
  destruct (Z.testbit flag6 2);
    rewrite !ta_slice_range by lia;
    replace (k * 16384) with (16384 * k) by lia;
    replace (j * 8192) with (8192 * j) by lia;
    destruct (j =? 0); reflexivity.
Qed.

(** X25: [parseINES] undoes the layout of an iNES file: from a header,
    a 512-byte trainer when flag 6 has bit 2, [k] PRG banks and [j] CHR
    banks it extracts exactly the PRG and CHR bytes, whatever follows; the
    mirroring is bit 0 of flag 6 and the mapper number comes from the two
    high nibbles. With no CHR bank the cartridge gets 8 KiB of zeroed CHR
    RAM. *)
Theorem X25_parse_image (k j flag6 flag7 : Z) (trainer PRG CHR rest : list Z) :
  0 <= k < 256 -> 0 <= j < 256 -> 0 <= flag6 < 256 -> 0 <= flag7 < 256 ->
  len PRG = 16384 * k -> len CHR = 8192 * j ->
  len trainer = (if Z.testbit flag6 2 then 512 else 0) ->
  ines_mapper flag6 flag7 <> 4 ->
  exists l,
    Cart.parseINES
      (ines_header k j flag6 flag7 ++ trainer ++ PRG ++ CHR ++ rest) = inr l
    /\ Cart.prg (Cart.cartridge l) = PRG
    /\ Cart.chr (Cart.cartridge l)
       = (if j =? 0 then replicate (Z.to_nat 8192) 0 else CHR)
    /\ Cart.chrRAM (Cart.cartridge l) = (j =? 0)
    /\ Cart.mirror (Cart.cartridge l)
       = (if Z.testbit flag6 0 then Cart.vertical else Cart.horizontal)
    /\ Cart.mapperId l = ines_mapper flag6 flag7
    /\ Cart.hasTrainer l = Z.testbit flag6 2.
Proof.
  intros Hk Hj Hf6 Hf7 Hprg Hchr Htr Hmap.
  rewrite (parseINES_header _ k j flag6 flag7)
    by (try reflexivity; lia).
  assert (exists m, Cart.newMapper (ines_mapper flag6 flag7) = inr m)
    as [m ->].
  { unfold Cart.newMapper.
    destruct (_ =? 0); [eexists; reflexivity|].
    destruct (_ =? 1); [eexists; reflexivity|].
    destruct (_ =? 2); [eexists; reflexivity|].
    destruct (_ =? 3); [eexists; reflexivity|].
    destruct (Z.eqb_spec (ines_mapper flag6 flag7) 4); [contradiction|].
    eexists; reflexivity. }
  eexists. split; [reflexivity|].
  cbn [Cart.cartridge Cart.prg Cart.chr Cart.chrRAM Cart.mirror Cart.mapperId
       Cart.hasTrainer].
  unfold len in *.
  assert (length (ines_header k j flag6 flag7 ++ trainer)
          = Z.to_nat (if Z.testbit flag6 2 then 528 else 16)) as Hoff.
  { rewrite length_app. change (length (ines_header k j flag6 flag7)) with 16%nat.
    destruct (Z.testbit flag6 2); lia. }
  split; [|split; [|repeat split]].
  - rewrite (app_assoc _ trainer), drop_app_length' by (symmetry; exact Hoff).
    apply take_app_length'. lia.
  - destruct (j =? 0); [reflexivity|].
    rewrite (app_assoc _ trainer), (app_assoc _ PRG).
    rewrite drop_app_length'
      by (rewrite (length_app _ PRG), Hoff; destruct (Z.testbit flag6 2); lia).
    apply take_app_length'. lia.
Qed.

(** X26: a file whose header names mapper 4 cannot be loaded: the
    constructor of [Mapper4] assigns [this.mirror], for which the base
    class defines a getter and no setter, and the TypeError leaves
    [new Cartridge] before the cartridge exists. *)
Theorem X26_mapper4_cannot_load (k j flag6 flag7 : Z) (body : list Z) :
  0 <= k < 256 -> 0 <= j < 256 -> 0 <= flag6 < 256 -> 0 <= flag7 < 256 ->
  ines_mapper flag6 flag7 = 4 ->
  Cart.parseINES (ines_header k j flag6 flag7 ++ body)
  = inl Cart.MirrorHasOnlyGetter.
Proof.
  intros Hk Hj Hf6 Hf7 Hmap.
  rewrite (parseINES_header _ k j flag6 flag7)
    by (try reflexivity; lia).
  rewrite Hmap. reflexivity.
Qed.

Lemma X25_parse_image_witness :
  exists l,
    Cart.parseINES
      (ines_header 1 1 0 0 ++ [] ++ replicate (Z.to_nat 16384) 0
       ++ replicate (Z.to_nat 8192) 0 ++ []) = inr l
    /\ Cart.prg (Cart.cartridge l) = replicate (Z.to_nat 16384) 0.
Proof.
  destruct (X25_parse_image 1 1 0 0 [] (replicate (Z.to_nat 16384) 0)
              (replicate (Z.to_nat 8192) 0) [])
    as (l & Hl & Hprg & _);
    [lia|lia|lia|lia|vm_compute; reflexivity|vm_compute; reflexivity
    |reflexivity|vm_compute; discriminate|].
  exists l. split; [exact Hl|exact Hprg].
Defined.

Lemma X26_mapper4_cannot_load_witness :
  Cart.parseINES (ines_header 1 1 0x40 0 ++ [])
  = inl Cart.MirrorHasOnlyGetter.
Proof.
  apply (X26_mapper4_cannot_load 1 1 0x40 0 []); solve [lia | reflexivity].
Defined.

(** *** Mapper 1: loading a register *)

Lemma bit0_cases v : v .& 1 = 0 \/ v .& 1 = 1.
Proof.
  change 1 with (Z.ones 1) at 1 2. rewrite Z.land_ones by lia.
  change (2 ^ 1) with 2. pose proof (Z.mod_pos_bound v 2 ltac:(lia)). lia.
Qed.

Lemma bit0_mod v : v .& 1 = v mod 2.
Proof. change 1 with (Z.ones 1). rewrite Z.land_ones by lia. reflexivity. Qed.

Lemma mmc1_register addr : (addr >> 13) .& 3 = (addr / 8192) mod 4.
Proof.
  unfold shr. change (13 .& 31) with 13.
  rewrite Z.shiftr_div_pow2 by lia. change 3 with (Z.ones 2).
  rewrite Z.land_ones by lia. reflexivity.
Qed.

Lemma no_reset_bit v : Z.testbit v 7 = false -> negb (v .& 0x80 =? 0) = false.
Proof.
  intros Hbit. change 0x80 with (2 ^ 7). rewrite land_pow2_testbit by lia.
  exact Hbit.
Qed.

(** X27: an MMC1 register is loaded by five writes, one bit each, least
    significant bit first: from an empty shift register, five writes with
    bit 7 clear leave the shift register empty again and store the five
    bits in the register selected by bits 13-14 of the address of the
    fifth write (control with the mirroring, CHR bank 0, CHR bank 1, or
    the low four bits as the PRG bank); the other registers stay. *)
Theorem X27_mmc1_serial_load (m : Cart.Mapper1) (mir : Cart.Mirror)
    (a0 a1 a2 a3 a4 v0 v1 v2 v3 v4 : Z) :
  Cart.shift m = 0x10 ->
  Z.testbit v0 7 = false -> Z.testbit v1 7 = false ->
  Z.testbit v2 7 = false -> Z.testbit v3 7 = false ->
  Z.testbit v4 7 = false ->
  let data := mmc1_data v0 v1 v2 v3 v4 in
  let reg := (a4 / 8192) mod 4 in
  Cart.writeReg a4 v4
    (Cart.writeReg a3 v3
       (Cart.writeReg a2 v2
          (Cart.writeReg a1 v1 (Cart.writeReg a0 v0 (m, mir)))))
  = (Cart.mkMapper1 0x10
       (if reg =? 0 then data else Cart.ctrl m)
       (if reg =? 3 then data mod 16 else Cart.prgBank m)
       (if reg =? 1 then data else Cart.chrBank0 m)
       (if reg =? 2 then data else Cart.chrBank1 m),
     if reg =? 0 then Cart.mirror_of (data mod 4) else mir).
Proof.
  intros Hshift H0 H1 H2 H3 H4. cbv zeta. unfold mmc1_data.
  rewrite <- (mmc1_register a4), <- !bit0_mod.
  pose proof (Z.mod_pos_bound (a4 / 8192) 4 ltac:(lia)) as Hreg.
  rewrite <- (mmc1_register a4) in Hreg.
  unfold Cart.writeReg.
  rewrite !no_reset_bit by assumption. cbv iota.
  cbn [Cart.shift Cart.ctrl Cart.prgBank Cart.chrBank0 Cart.chrBank1].
  rewrite Hshift.
  destruct (bit0_cases v0) as [-> | ->]; destruct (bit0_cases v1) as [-> | ->];
    destruct (bit0_cases v2) as [-> | ->]; destruct (bit0_cases v3) as [-> | ->];
    destruct (bit0_cases v4) as [-> | ->];
    cbn [Cart.shift Cart.ctrl Cart.prgBank Cart.chrBank0 Cart.chrBank1];
    set (reg := (a4 >> 13) .& 3) in *;
    (assert (reg = 0 \/ reg = 1 \/ reg = 2 \/ reg = 3) as Hcases by lia);
    clearbody reg;
    destruct Hcases as [-> | [-> | [-> | ->]]]; reflexivity.
Qed.

Lemma X27_mmc1_serial_load_witness :
  Cart.writeReg 0xE000 1
    (Cart.writeReg 0xE000 0
       (Cart.writeReg 0xE000 1
          (Cart.writeReg 0xE000 0
             (Cart.writeReg 0xE000 1 (Cart.Mapper1_new, Cart.horizontal)))))
  = (Cart.mkMapper1 0x10 0x0C 5 0 0, Cart.horizontal).
Proof.
  exact (X27_mmc1_serial_load Cart.Mapper1_new Cart.horizontal
           0xE000 0xE000 0xE000 0xE000 0xE000 1 0 1 0 1
           eq_refl eq_refl eq_refl eq_refl eq_refl eq_refl).
Defined.

(** *** Scrolling *)

Lemma land_field t lo w :
  0 <= lo -> 0 <= w ->
  t .& (Z.shiftl (Z.ones w) lo) = 2 ^ lo * ((t / 2 ^ lo) mod 2 ^ w).
Proof.
  intros Hlo Hw.
  assert (2 ^ lo * ((t / 2 ^ lo) mod 2 ^ w)
          = Z.shiftl (Z.land (Z.shiftr t lo) (Z.ones w)) lo) as ->.
  { rewrite Z.shiftl_mul_pow2, Z.land_ones, Z.shiftr_div_pow2 by lia.
    apply Z.mul_comm. }
  apply Z.bits_inj'. intros i Hi.
  rewrite Z.land_spec, !Z.shiftl_spec by lia.
  destruct (Z.lt_ge_cases i lo) as [Hlow|Hhigh].
  - rewrite !(Z.testbit_neg_r _ (i - lo)) by lia. apply andb_false_r.
  - rewrite Z.land_spec, Z.shiftr_spec by lia.
    replace (i - lo + lo) with i by lia. reflexivity.
Qed.

Lemma nametable_bits t : t .& 0x0C00 = 1024 * ((t / 1024) mod 4).
Proof. exact (land_field t 10 2 ltac:(lia) ltac:(lia)). Qed.

Lemma coarse_of_byte X : 0 <= X < 256 -> ((X .& 0xF8) >> 3) .& 0x0C1F = X / 8.
Proof.
  intros HX.
  assert (forallb (fun X => ((X .& 0xF8) >> 3) .& 0x0C1F =? X / 8) (seqZ 0 256)
          = true) as Hall by (vm_compute; reflexivity).
  rewrite forallb_forall in Hall. apply Z.eqb_eq, Hall, in_byte_range, HX.
Qed.

(** The value of [t] after the two writes to $2005, on every nametable,
    coarse X and second byte. *)
Lemma scroll_latch_fields nt cx Y :
  0 <= nt < 4 -> 0 <= cx < 32 -> 0 <= Y < 256 ->
  (((1024 * nt) .| cx) .| ((Y .& 0x07) << 12)) .| ((Y .& 0xF8) << 2)
  = vram_addr (Y mod 8) nt (Y / 8) cx.
Proof.
  intros Hn Hcx HY.
  assert (forallb (fun nt =>
            forallb (fun cx =>
              forallb (fun Y =>
                (((1024 * nt) .| cx) .| ((Y .& 0x07) << 12))
                .| ((Y .& 0xF8) << 2)
                =? vram_addr (Y mod 8) nt (Y / 8) cx)
                (seqZ 0 256)) (seqZ 0 32)) (seqZ 0 4) = true) as Hall
    by (vm_compute; reflexivity).
  rewrite forallb_forall in Hall.
  specialize (Hall nt ltac:(apply list_elem_of_In, elem_of_seqZ; lia)).
  rewrite forallb_forall in Hall.
  specialize (Hall cx ltac:(apply list_elem_of_In, elem_of_seqZ; lia)).
  rewrite forallb_forall in Hall. apply Z.eqb_eq, Hall, in_byte_range, HY.
Qed.

Lemma write_2005_first c s val :
  PPU.w s = 0 ->
  PPU.write 0x2005 val (c, s)
  = (c, PPU.set_w 1
          (PPU.set_t ((PPU.t s .& 0x7FE0) .| (((val .& 0xFF) .& 0xF8) >> 3))
             (PPU.set_x ((val .& 0xFF) .& 0x07) s))).
Proof.
  intros Hw. unfold PPU.write. change (0x2005 .& 7) with 5.
  cbn [Z.eqb Pos.eqb]. rewrite Hw. reflexivity.
Qed.

Lemma write_2005_second c s val :
  PPU.w s = 1 ->
  PPU.write 0x2005 val (c, s)
  = (c, PPU.set_w 0
          (PPU.set_t
             (((PPU.t s .& 0x0C1F) .| (((val .& 0xFF) .& 0x07) << 12))
              .| (((val .& 0xFF) .& 0xF8) << 2)) s)).
Proof.
  intros Hw. unfold PPU.write. change (0x2005 .& 7) with 5.
  cbn [Z.eqb Pos.eqb]. rewrite Hw. reflexivity.
Qed.

(** X28: the scroll latch. After a read of $2002, two writes to $2005
    set the fine X scroll to the low three bits of the first byte and, in
    [t], coarse X to its high five bits, fine Y and coarse Y to the low
    three and high five bits of the second byte; the nametable bits of
    [t] stay, [v] is not touched and the write toggle is back at 0. *)
Theorem X28_scroll_latch (c : Cart.Cartridge) (s : PPU.state) (X Y : Z) :
  0 <= X < 256 -> 0 <= Y < 256 ->
  let s0 := snd (PPU.read c 0x2002 s) in
  let cs := PPU.write 0x2005 Y (PPU.write 0x2005 X (c, s0)) in
  fst cs = c
  /\ PPU.x (snd cs) = X mod 8
  /\ PPU.t (snd cs)
     = vram_addr (Y mod 8) ((PPU.t s / 1024) mod 4) (Y / 8) (X / 8)
  /\ PPU.w (snd cs) = 0
  /\ PPU.v (snd cs) = PPU.v s.
Proof.
  intros HX HY. cbv zeta.
  unfold PPU.read. change (0x2002 .& 7 =? 2) with true. cbv iota. cbn [snd].
  rewrite write_2005_first by reflexivity.
  rewrite write_2005_second by reflexivity.
  cbn [fst snd PPU.x PPU.set_x PPU.t PPU.set_t PPU.w PPU.set_w PPU.v
       PPU.set_status].
  rewrite !land_0xFF, (Z.mod_small X), (Z.mod_small Y) by lia.
  split; [reflexivity|]. split; [|split; [|split; reflexivity]].
  - change 0x07 with (Z.ones 3). rewrite Z.land_ones by lia. reflexivity.
  - rewrite Z.land_lor_distr_l, <- Z.land_assoc.
    change (0x7FE0 .& 0x0C1F) with 0x0C00. rewrite nametable_bits.
    rewrite coarse_of_byte by exact HX.
    apply scroll_latch_fields; [|split|exact HY].
    + apply Z.mod_pos_bound. lia.
    + apply Z.div_pos; lia.
    + apply Z.div_lt_upper_bound; lia.
Qed.

Lemma X28_scroll_latch_witness :
  PPU.x (snd (PPU.write 0x2005 0x5A
                (PPU.write 0x2005 0x7D
                   (test_cart [],
                    snd (PPU.read (test_cart []) 0x2002
                           (PPU.new Cart.horizontal))))))
  = 0x7D mod 8.
Proof.
  exact (proj1 (proj2 (X28_scroll_latch (test_cart []) (PPU.new Cart.horizontal)
                         0x7D 0x5A ltac:(lia) ltac:(lia)))).
Defined.

(** The two increments as functions of [v]. *)
Lemma incCoarseX_v s :
  PPU.incCoarseX s
  = PPU.set_v (if PPU.v s .& 0x001F =? 31
               then (PPU.v s .& ~~0x001F) .^ 0x0400 else PPU.v s + 1) s.
Proof. unfold PPU.incCoarseX. destruct (_ =? 31); reflexivity. Qed.

Lemma incY_v s :
  PPU.incY s
  = PPU.set_v
      (if negb (PPU.v s .& 0x7000 =? 0x7000) then PPU.v s + 0x1000
       else
         let v1 := PPU.v s .& ~~0x7000 in
         let y0 := (v1 .& 0x03E0) >> 5 in
         if y0 =? 29 then ((v1 .^ 0x0800) .& ~~0x03E0) .| (0 << 5)
         else if y0 =? 31 then (v1 .& ~~0x03E0) .| (0 << 5)
         else (v1 .& ~~0x03E0) .| ((y0 + 1) << 5)) s.
Proof.
  unfold PPU.incY. destruct (negb _); [reflexivity|]. cbv zeta.
  cbn [PPU.v PPU.set_v].
  destruct (_ =? 29); [reflexivity|]. destruct (_ =? 31); reflexivity.
Qed.

Lemma scroll_increment_fields fy nt cy cx :
  0 <= fy < 8 -> 0 <= nt < 4 -> 0 <= cy < 32 -> 0 <= cx < 32 ->
  let v := vram_addr fy nt cy cx in
  (if v .& 0x001F =? 31 then (v .& ~~0x001F) .^ 0x0400 else v + 1)
  = vram_addr fy (if cx =? 31 then Z.lxor nt 1 else nt) cy ((cx + 1) mod 32)
  /\ (if negb (v .& 0x7000 =? 0x7000) then v + 0x1000
      else
        let v1 := v .& ~~0x7000 in
        let y0 := (v1 .& 0x03E0) >> 5 in
        if y0 =? 29 then ((v1 .^ 0x0800) .& ~~0x03E0) .| (0 << 5)
        else if y0 =? 31 then (v1 .& ~~0x03E0) .| (0 << 5)
        else (v1 .& ~~0x03E0) .| ((y0 + 1) << 5))
     = (if fy <? 7 then vram_addr (fy + 1) nt cy cx
        else vram_addr 0 (if cy =? 29 then Z.lxor nt 2 else nt)
               (if (cy =? 29) || (cy =? 31) then 0 else cy + 1) cx).
Proof.
  intros Hfy Hnt Hcy Hcx.
  assert (forallb (fun fy =>
            forallb (fun nt =>
              forallb (fun cy =>
                forallb (fun cx =>
                  let v := vram_addr fy nt cy cx in
                  ((if v .& 0x001F =? 31 then (v .& ~~0x001F) .^ 0x0400
                    else v + 1)
                   =? vram_addr fy (if cx =? 31 then Z.lxor nt 1 else nt) cy
                        ((cx + 1) mod 32))
                  && ((if negb (v .& 0x7000 =? 0x7000) then v + 0x1000
                       else
                         let v1 := v .& ~~0x7000 in
                         let y0 := (v1 .& 0x03E0) >> 5 in
                         if y0 =? 29
                         then ((v1 .^ 0x0800) .& ~~0x03E0) .| (0 << 5)
                         else if y0 =? 31 then (v1 .& ~~0x03E0) .| (0 << 5)
                         else (v1 .& ~~0x03E0) .| ((y0 + 1) << 5))
                      =? (if fy <? 7 then vram_addr (fy + 1) nt cy cx
                          else vram_addr 0
                                 (if cy =? 29 then Z.lxor nt 2 else nt)
                                 (if (cy =? 29) || (cy =? 31) then 0
                                  else cy + 1) cx)))
                  (seqZ 0 32)) (seqZ 0 32)) (seqZ 0 4)) (seqZ 0 8) = true)
    as Hall by (vm_compute; reflexivity).
  rewrite forallb_forall in Hall.
  specialize (Hall fy ltac:(apply list_elem_of_In, elem_of_seqZ; lia)).
  rewrite forallb_forall in Hall.
  specialize (Hall nt ltac:(apply list_elem_of_In, elem_of_seqZ; lia)).
  rewrite forallb_forall in Hall.
  specialize (Hall cy ltac:(apply list_elem_of_In, elem_of_seqZ; lia)).
  rewrite forallb_forall in Hall.
  specialize (Hall cx ltac:(apply list_elem_of_In, elem_of_seqZ; lia)).
  cbv zeta in Hall. apply andb_true_iff in Hall. destruct Hall as [Hx Hy].
  cbv zeta. split; apply Z.eqb_eq; assumption.
Qed.

(** X29: the scroll increments of the rendering pipeline. [incCoarseX]
    steps coarse X and, on the wrap from 31 to 0, switches the horizontal
    nametable; [incY] steps fine Y and carries into coarse Y, which wraps
    from 29 to 0 switching the vertical nametable and from 31 to 0
    without switching. Every other field of [v] and of the PPU stays. *)
Theorem X29_scroll_increments (s : PPU.state) (fy nt cy cx : Z) :
  0 <= fy < 8 -> 0 <= nt < 4 -> 0 <= cy < 32 -> 0 <= cx < 32 ->
  PPU.v s = vram_addr fy nt cy cx ->
  PPU.incCoarseX s
  = PPU.set_v
      (vram_addr fy (if cx =? 31 then Z.lxor nt 1 else nt) cy ((cx + 1) mod 32))
      s
  /\ PPU.incY s
     = PPU.set_v
         (if fy <? 7 then vram_addr (fy + 1) nt cy cx
          else vram_addr 0 (if cy =? 29 then Z.lxor nt 2 else nt)
                 (if (cy =? 29) || (cy =? 31) then 0 else cy + 1) cx) s.
Proof.
  intros Hfy Hnt Hcy Hcx Hv.
  destruct (scroll_increment_fields fy nt cy cx Hfy Hnt Hcy Hcx) as [Hx Hy].
  cbv zeta in Hx, Hy.
  rewrite incCoarseX_v, incY_v, Hv. cbv zeta. rewrite Hx, Hy.
  split; reflexivity.
Qed.

Lemma X29_scroll_increments_witness :
  PPU.incCoarseX (PPU.set_v 0x001F (PPU.new Cart.horizontal))
  = PPU.set_v (vram_addr 0 (Z.lxor 0 1) 0 0)
      (PPU.set_v 0x001F (PPU.new Cart.horizontal)).
Proof.
  exact (proj1 (X29_scroll_increments
                  (PPU.set_v 0x001F (PPU.new Cart.horizontal)) 0 0 0 31
                  ltac:(lia) ltac:(lia) ltac:(lia) ltac:(lia) eq_refl)).
Defined.

(** *** Sprite evaluation *)

(** A loop with [break]: an invariant that follows the index and whether
    the loop has been left. *)
Lemma for_break_indexed {St : Type} (P : Z -> bool -> St -> Prop) (n : nat)
    (body : Z -> St -> bool * St) (s : St) :
  P 0 false s ->
  (forall i s', 0 <= i < Z.of_nat n -> P i false s' ->
     P (i + 1) (fst (body i s')) (snd (body i s'))) ->
  (forall i s', 0 <= i < Z.of_nat n -> P i true s' -> P (i + 1) true s') ->
  exists b, P (Z.of_nat n) b (PPU.for_break (Z.of_nat n) body s).
Proof.
  intros H0 Hrun Hleft. unfold PPU.for_break.
  set (f := fun (acc : bool * St) i =>
              if fst acc then acc else body i (snd acc)).
  assert (forall k, (k <= n)%nat ->
            P (Z.of_nat k) (fst (foldl f (false, s) (seqZ 0 (Z.of_nat k))))
              (snd (foldl f (false, s) (seqZ 0 (Z.of_nat k))))) as Hall.
  { induction k as [|k IH]; intros Hk; [exact H0|].
    rewrite seqZ_S, foldl_snoc. specialize (IH ltac:(lia)).
    replace (Z.of_nat (S k)) with (Z.of_nat k + 1) by lia.
    change (0 + Z.of_nat k) with (Z.of_nat k).
    destruct (foldl f (false, s) (seqZ 0 (Z.of_nat k))) as [b st].
    cbn [fst snd] in *. unfold f at 1 2. cbn [fst snd]. destruct b.
    - cbn [fst snd]. apply Hleft; [lia|exact IH].
    - apply Hrun; [lia|exact IH]. }
  eexists. apply Hall. lia.
Qed.

Lemma sprites_on_line_snoc s k :
  0 <= k ->
  sprites_on_line s (k + 1)
  = sprites_on_line s k ++ (if sprite_in_range s k then [k] else []).
Proof.
  intros Hk. unfold sprites_on_line.
  replace k with (Z.of_nat (Z.to_nat k)) at 1 2 by lia.
  replace (Z.of_nat (Z.to_nat k) + 1) with (Z.of_nat (S (Z.to_nat k))) by lia.
  rewrite seqZ_S, List.filter_app. rewrite !Z2Nat.id by lia.
  change (0 + k) with k. reflexivity.
Qed.

Lemma sprites_on_line_bound s k : 0 <= k -> len (sprites_on_line s k) <= k.
Proof.
  intros Hk. unfold len, sprites_on_line.
  pose proof (List.filter_length_le (sprite_in_range s) (seqZ 0 k)) as Hle.
  rewrite length_seqZ in Hle. lia.
Qed.

(** The range test of the scan, in the code's terms. *)
Lemma scan_range_test s st i :
  PPU.oam st = PPU.oam s -> PPU.ctrl st = PPU.ctrl s ->
  PPU.scanline st = PPU.scanline s ->
  js_ge (js_sub #(PPU.scanline st) (ta_get (PPU.oam st) (i * 4))) #0
  && js_lt (js_sub #(PPU.scanline st) (ta_get (PPU.oam st) (i * 4)))
       #(if negb (PPU.ctrl st .& 0x20 =? 0) then 16 else 8)
  = sprite_in_range s i.
Proof.
  intros -> -> ->. unfold sprite_in_range.
  change 0x20 with (2 ^ 5). rewrite land_pow2_testbit by lia.
  unfold ta_get. destruct (i * 4 <? 0); [reflexivity|].
  destruct (PPU.oam s !! Z.to_nat (i * 4)) as [y|]; [|reflexivity].
  unfold js_ge, js_lt, js_sub. cbn [to_number].
  destruct (Z.testbit (PPU.ctrl s) 5);
    destruct (Z.leb_spec 0 (PPU.scanline s - y));
    destruct (Z.leb_spec y (PPU.scanline s)); try lia; cbn [andb];
    try reflexivity;
    match goal with
    | |- (?a <? ?b) = (?c <? ?d) =>
        destruct (Z.ltb_spec a b); destruct (Z.ltb_spec c d);
        try reflexivity; lia
    end.
Qed.

Lemma nth_prefix (l tail : list Z) m :
  0 <= m < len l -> nth (Z.to_nat m) (l ++ tail) 0 = nth (Z.to_nat m) l 0.
Proof. unfold len. intros Hm. apply app_nth1. lia. Qed.

Lemma scan_step s i st :
  0 <= i < 64 -> scan_progress s i false st ->
  scan_progress s (i + 1) (fst (PPU.scanOAM i st)) (snd (PPU.scanOAM i st)).
Proof.
  intros Hi (Hoam & Hctrl & Hline & Hlen & Hzero & (Hcount & Hle & Hstatus)
             & Hsec & Hfree).
  unfold scan_progress. rewrite sprites_on_line_snoc by lia.
  unfold PPU.scanOAM. cbv zeta.
  rewrite (scan_range_test s st i Hoam Hctrl Hline).
  set (found := sprites_on_line s i) in *.
  destruct (sprite_in_range s i) eqn:Hin.
  2:{ rewrite app_nil_r. cbn [fst snd].
      repeat split; try assumption.
      rewrite Hzero. destruct (Z.eq_dec i 0) as [->|Hnz].
      - rewrite Hin. reflexivity.
      - destruct (Z.ltb_spec 0 i); destruct (Z.ltb_spec 0 (i + 1));
          try reflexivity; lia. }
  assert (len (found ++ [i]) = len found + 1) as Hgrow
    by (unfold len; rewrite length_app; simpl; lia).
  rewrite Hcount.
  destruct (Z.ltb_spec (len found) 8) as [Hroom|Hfull].
  - (* the sprite is copied to secondary OAM *)
    set (dest := len found * 4).
    set (sec := ta_set8
                  (ta_set8
                     (ta_set8
                        (ta_set8 (PPU.secOAM st) (dest + 0)
                           (ta_get (PPU.oam st) (i * 4)))
                        (dest + 1) (ta_get (PPU.oam st) (i * 4 + 1)))
                     (dest + 2) (ta_get (PPU.oam st) (i * 4 + 2)))
                  (dest + 3) (ta_get (PPU.oam st) (i * 4 + 3))).
    assert (0 <= len found) as Hnn by (unfold len; lia).
    assert (forall idx, 0 <= idx -> (idx < dest \/ dest + 4 <= idx) ->
              ta_get sec idx = ta_get (PPU.secOAM st) idx) as Hold.
    { intros idx Hidx Hout. unfold sec.
      rewrite !ta_get_set8_ne by lia. reflexivity. }
    assert (forall j, 0 <= j < 4 ->
              ta_get sec (dest + j)
              = #(to_uint8 (ta_get (PPU.oam s) (i * 4 + j)))) as Hnew.
    { intros j Hj. unfold sec. rewrite Hoam.
      assert (j = 0 \/ j = 1 \/ j = 2 \/ j = 3) as [->|[->|[->| ->]]] by lia.
      - rewrite !ta_get_set8_ne by lia.
        rewrite ta_get_set8_eq by (unfold len; unfold dest; lia).
        rewrite Z.add_0_r. reflexivity.
      - rewrite !ta_get_set8_ne by lia.
        rewrite ta_get_set8_eq
          by (unfold len; rewrite !ta_set8_length; unfold dest; lia).
        reflexivity.
      - rewrite !ta_get_set8_ne by lia.
        rewrite ta_get_set8_eq
          by (unfold len; rewrite !ta_set8_length; unfold dest; lia).
        reflexivity.
      - rewrite ta_get_set8_eq
          by (unfold len; rewrite !ta_set8_length; unfold dest; lia).
        reflexivity. }
    assert (PPU.spriteCount
              (if i =? 0
               then PPU.set_spriteZeroInLine true (PPU.set_secOAM sec st)
               else PPU.set_secOAM sec st) = len found) as Hc1
      by (destruct (i =? 0); exact Hcount).
    cbv zeta. fold dest. fold sec.
    cbn [PPU.spriteCount PPU.set_spriteCount]. rewrite Hc1.
    destruct (Z.eqb_spec (len found + 1) 9) as [Hnine|_]; [lia|].
    cbn [fst snd].
    assert (forall (A : Type) (f : PPU.state -> A),
              (forall e st', f (PPU.set_spriteZeroInLine e st') = f st') ->
              f (if i =? 0
                 then PPU.set_spriteZeroInLine true (PPU.set_secOAM sec st)
                 else PPU.set_secOAM sec st) = f (PPU.set_secOAM sec st))
      as Hzi by (intros A f Hf; destruct (i =? 0); [apply Hf|reflexivity]).
    split; [destruct (i =? 0); exact Hoam|].
    split; [destruct (i =? 0); exact Hctrl|].
    split; [destruct (i =? 0); exact Hline|].
    split.
    { destruct (i =? 0); cbn [PPU.secOAM PPU.set_secOAM PPU.set_spriteCount
                               PPU.set_spriteZeroInLine];
        unfold sec; rewrite !ta_set8_length; exact Hlen. }
    split.
    { destruct (Z.eqb_spec i 0) as [->|Hnz].
      - cbn [PPU.spriteZeroInLine PPU.set_spriteCount PPU.set_spriteZeroInLine].
        rewrite Hin. reflexivity.
      - cbn [PPU.spriteZeroInLine PPU.set_spriteCount PPU.set_secOAM].
        rewrite Hzero.
        destruct (Z.ltb_spec 0 i); destruct (Z.ltb_spec 0 (i + 1));
          try reflexivity; lia. }
    split.
    { split; [cbn [PPU.spriteCount PPU.set_spriteCount]; lia|].
      split; [lia|]. destruct (i =? 0); exact Hstatus. }
    assert (PPU.secOAM
              (PPU.set_spriteCount (len found + 1)
                 (if i =? 0
                  then PPU.set_spriteZeroInLine true (PPU.set_secOAM sec st)
                  else PPU.set_secOAM sec st)) = sec) as ->
      by (destruct (i =? 0); reflexivity).
    rewrite Hgrow. rewrite (Z.min_r 8 (len found + 1)) by lia.
    rewrite (Z.min_r 8 (len found)) in Hsec, Hfree by lia.
    split.
    + intros m j Hm Hj. destruct (Z.eq_dec m (len found)) as [->|Hlt].
      * unfold len at 2. rewrite Nat2Z.id.
        rewrite app_nth2, Nat.sub_diag by lia. cbn [nth].
        fold dest. apply Hnew, Hj.
      * rewrite nth_prefix by lia. rewrite Hold by (unfold dest; lia).
        apply Hsec; lia.
    + intros idx Hidx. rewrite Hold by (unfold dest; lia).
      apply Hfree. lia.
  - (* the ninth sprite: overflow, and the loop is left *)
    assert (len found = 8) as H8 by lia.
    cbn [PPU.spriteCount PPU.set_spriteCount]. rewrite Hcount, H8.
    change (8 + 1 =? 9) with true. cbn [fst snd].
    cbn [PPU.oam PPU.ctrl PPU.scanline PPU.secOAM PPU.spriteZeroInLine
         PPU.spriteCount PPU.status PPU.set_status PPU.set_spriteCount].
    split; [exact Hoam|]. split; [exact Hctrl|]. split; [exact Hline|].
    split; [exact Hlen|].
    split.
    { rewrite Hzero.
      pose proof (sprites_on_line_bound s i ltac:(lia)) as Hb. fold found in Hb.
      destruct (Z.ltb_spec 0 i); destruct (Z.ltb_spec 0 (i + 1));
        try reflexivity; lia. }
    split; [split; [reflexivity|split; [lia|rewrite Hstatus; reflexivity]]|].
    rewrite Hgrow, H8. rewrite H8 in Hsec, Hfree.
    change (Z.min 8 (8 + 1)) with 8. change (Z.min 8 8) with 8 in Hsec, Hfree.
    split.
    + intros m j Hm Hj. rewrite nth_prefix by lia. apply Hsec; assumption.
    + exact Hfree.
Qed.

Lemma scan_left s i st :
  0 <= i < 64 -> scan_progress s i true st -> scan_progress s (i + 1) true st.
Proof.
  intros Hi (Hoam & Hctrl & Hline & Hlen & Hzero & (Hcount & Hle & Hstatus)
             & Hsec & Hfree).
  unfold scan_progress. rewrite sprites_on_line_snoc by lia.
  set (found := sprites_on_line s i) in *.
  pose proof (sprites_on_line_bound s i ltac:(lia)) as Hb. fold found in Hb.
  assert (len found <= len (found ++ (if sprite_in_range s i then [i] else [])))
    as Hgrow by (unfold len; rewrite length_app; lia).
  rewrite (Z.min_l 8 (len found)) in Hsec, Hfree by lia.
  rewrite (Z.min_l 8) by lia.
  split; [exact Hoam|]. split; [exact Hctrl|]. split; [exact Hline|].
  split; [exact Hlen|].
  split.
  { rewrite Hzero.
    destruct (Z.ltb_spec 0 i); destruct (Z.ltb_spec 0 (i + 1));
      try reflexivity; lia. }
  split; [split; [exact Hcount|split; [lia|exact Hstatus]]|].
  split.
  - intros m j Hm Hj. rewrite nth_prefix by lia. apply Hsec; assumption.
  - exact Hfree.
Qed.

(** The third loop of [evaluateSprites] loads the sprite registers and
    leaves the result of the scan alone. *)
Lemma loadSlot_scan_result i s :
  PPU.secOAM (PPU.loadSlot i s) = PPU.secOAM s
  /\ PPU.spriteCount (PPU.loadSlot i s) = PPU.spriteCount s
  /\ PPU.spriteZeroInLine (PPU.loadSlot i s) = PPU.spriteZeroInLine s
  /\ PPU.status (PPU.loadSlot i s) = PPU.status s.
Proof. unfold PPU.loadSlot. destruct (js_is _ _); repeat split. Qed.

(** X30: sprite evaluation. Of the 64 sprites of OAM, those that cover
    the scanline are found in OAM order; the first eight are copied to
    secondary OAM, four bytes each, and the rest of secondary OAM is $FF.
    The sprite count is the number found, capped at 9; a ninth sprite
    sets the overflow flag (bit 5 of the status), which is otherwise left
    alone; and sprite 0 is flagged exactly when it covers the line. *)
Theorem X30_sprite_evaluation (s : PPU.state) :
  length (PPU.secOAM s) = 32%nat ->
  let s' := PPU.evaluateSprites s in
  let found := sprites_on_line s 64 in
  PPU.spriteCount s' = Z.min 9 (len found)
  /\ PPU.spriteZeroInLine s' = sprite_in_range s 0
  /\ PPU.status s'
     = (if 9 <=? len found then PPU.status s .| 0x20 else PPU.status s)
  /\ (forall m j, 0 <= m < Z.min 8 (len found) -> 0 <= j < 4 ->
        ta_get (PPU.secOAM s') (m * 4 + j)
        = #(to_uint8 (ta_get (PPU.oam s) (nth (Z.to_nat m) found 0 * 4 + j))))
  /\ (forall idx, Z.min 8 (len found) * 4 <= idx < 32 ->
        ta_get (PPU.secOAM s') idx = #0xFF).
Proof.
  intros Hlen. cbv zeta. unfold PPU.evaluateSprites.
  set (s0 := PPU.set_spriteZeroInLine false (PPU.set_spriteCount 0 s)).
  set (s1 := PPU.for_ 32
               (fun i s' => PPU.set_secOAM (ta_set8 (PPU.secOAM s') i #0xFF) s')
               s0).
  assert (PPU.oam s1 = PPU.oam s /\ PPU.ctrl s1 = PPU.ctrl s
          /\ PPU.scanline s1 = PPU.scanline s /\ PPU.status s1 = PPU.status s
          /\ PPU.spriteCount s1 = 0 /\ PPU.spriteZeroInLine s1 = false
          /\ length (PPU.secOAM s1) = 32%nat
          /\ forall idx, 0 <= idx < 32 -> ta_get (PPU.secOAM s1) idx = #0xFF)
    as (Hoam & Hctrl & Hline & Hstatus & Hcount & Hzero & Hlen1 & Hfill).
  { unfold s1.
    apply (for_invariant
             (fun k st =>
                PPU.oam st = PPU.oam s /\ PPU.ctrl st = PPU.ctrl s
                /\ PPU.scanline st = PPU.scanline s
                /\ PPU.status st = PPU.status s
                /\ PPU.spriteCount st = 0 /\ PPU.spriteZeroInLine st = false
                /\ length (PPU.secOAM st) = 32%nat
                /\ forall idx, 0 <= idx < k ->
                     ta_get (PPU.secOAM st) idx = #0xFF) 32).
    - repeat split; try exact Hlen. intros idx Hidx. lia.
    - intros i st Hi (A & B & C & D & E & F & G & I).
      cbn [PPU.oam PPU.ctrl PPU.scanline PPU.status PPU.spriteCount
           PPU.spriteZeroInLine PPU.secOAM PPU.set_secOAM].
      repeat split; try assumption.
      + rewrite ta_set8_length. exact G.
      + intros idx Hidx. destruct (Z.eq_dec idx i) as [->|Hne].
        * rewrite ta_get_set8_eq by (unfold len; lia). reflexivity.
        * rewrite ta_get_set8_ne by lia. apply I. lia. }
  destruct (for_break_indexed (scan_progress s) 64 PPU.scanOAM s1)
    as [b Hscan].
  - unfold scan_progress. change (sprites_on_line s 0) with (@nil Z).
    cbv zeta. change (len (@nil Z)) with 0. change (Z.min 8 0) with 0.
    split; [exact Hoam|]. split; [exact Hctrl|]. split; [exact Hline|].
    split; [exact Hlen1|]. split; [exact Hzero|].
    split; [split; [exact Hcount|split; [lia|exact Hstatus]]|].
    split.
    + intros m j Hm. lia.
    + intros idx Hidx. apply Hfill. lia.
  - intros i st Hi. apply scan_step. exact Hi.
  - intros i st Hi. apply scan_left. exact Hi.
  - change (Z.of_nat 64) with 64 in Hscan.
    set (s2 := PPU.for_break 64 PPU.scanOAM s1) in *.
    assert (PPU.secOAM (PPU.for_ 8 PPU.loadSlot s2) = PPU.secOAM s2
            /\ PPU.spriteCount (PPU.for_ 8 PPU.loadSlot s2) = PPU.spriteCount s2
            /\ PPU.spriteZeroInLine (PPU.for_ 8 PPU.loadSlot s2)
               = PPU.spriteZeroInLine s2
            /\ PPU.status (PPU.for_ 8 PPU.loadSlot s2) = PPU.status s2)
      as (-> & -> & -> & ->).
    { apply (for_invariant
               (fun _ st =>
                  PPU.secOAM st = PPU.secOAM s2
                  /\ PPU.spriteCount st = PPU.spriteCount s2
                  /\ PPU.spriteZeroInLine st = PPU.spriteZeroInLine s2
                  /\ PPU.status st = PPU.status s2) 8).
      - repeat split.
      - intros i st _ (A & B & C & D).
        destruct (loadSlot_scan_result i st) as (A' & B' & C' & D').
        repeat split; congruence. }
    destruct Hscan as (_ & _ & _ & _ & Hz & Hcnt & Hsec & Hfree).
    set (found := sprites_on_line s 64) in *.
    split; [|split; [exact Hz|split; [|split; assumption]]].
    + destruct b; destruct Hcnt as (Hc & Hl & _); rewrite Hc; lia.
    + destruct b; destruct Hcnt as (_ & Hl & Hs); rewrite Hs;
        destruct (Z.leb_spec 9 (len found)); try reflexivity; lia.
Qed.

Lemma X30_sprite_evaluation_witness :
  PPU.spriteZeroInLine (PPU.evaluateSprites (PPU.new Cart.horizontal))
  = sprite_in_range (PPU.new Cart.horizontal) 0.
Proof.
  exact (proj1 (proj2 (X30_sprite_evaluation (PPU.new Cart.horizontal) eq_refl))).
Defined.
